(** * STT_Voice_Spliter.py: a shallow embedding and its verified properties

    The script installs its tools on first run, converts an audio file to
    MP3, cuts it into speech segments found by a voice-activity detector
    and transcribes every segment with an external binary.

    Embedding conventions.
    - A Python [str] is the list of its Unicode code points ([list N]).
    - A Python [float] is an IEEE 754 binary64 value: [spec_float] with the
      Standard Library's executable operations at precision 53.
    - The file system, the global [vad_config] and the console are threaded
      through a state-and-exception monad [M]; every run also yields the
      chronological trace of what the program printed and which external
      tools it started.
    - Everything outside the script (external processes, the VAD model, the
      directory listing, the JSON parser, the command line) is a field of
      the record [Env]; all theorems hold for every [Env].
    - The functions [is_installed], [install_with_brew], [get_file_size]
      and [download_with_progress_aiohttp] are never called by the script
      and are not embedded; [save_config], not called either, is. *)

From Stdlib Require Import ZArith NArith List Lia.
From Stdlib Require Import Strings.String Strings.Ascii Floats.SpecFloat.
From Stdlib Require Import Numbers.DecimalZ.
From stdpp Require Import base option list gmap sorting.

Open Scope Z_scope.

(** ** Python strings *)

Abbreviation pystr := (list N).

(** A literal: the code points of an ASCII string. *)
Definition u (s : string) : pystr := N_of_ascii <$> list_ascii_of_string s.

Definition LF : N := 10%N.
Definition CR : N := 13%N.
Definition SPACE : N := 32%N.
Definition DOT : N := 46%N.
Definition SLASH : N := 47%N.

(** [str.lower()].  Only the ASCII capitals are mapped.  No code point
    outside ASCII has a Unicode lower-case form containing one of the
    characters of ".mp3", so [s.lower().endswith(".mp3")], the only use of
    [lower] in the script, is decided by this mapping for every string. *)
Definition lower_char (c : N) : N :=
  if ((65 <=? c) && (c <=? 90))%N then (c + 32)%N else c.

Definition lower (s : pystr) : pystr := lower_char <$> s.

Definition endswith (s suffix : pystr) : bool := bool_decide (suffix `suffix_of` s).

Definition startswith (s prefix : pystr) : bool := bool_decide (prefix `prefix_of` s).

(** The parts of [s] before and after the last occurrence of [c]. *)
Fixpoint rpartition (c : N) (s : pystr) : option (pystr * pystr) :=
  match s with
  | [] => None
  | x :: t =>
      match rpartition c t with
      | Some (h, r) => Some (x :: h, r)
      | None => if (x =? c)%N then Some ([], t) else None
      end
  end.

(** [s.rsplit(c, 1)] for a one-character separator. *)
Definition rsplit1 (c : N) (s : pystr) : list pystr :=
  match rpartition c s with
  | Some (h, r) => [h; r]
  | None => [s]
  end.

(** Indexing a list that is known to be non-empty: [l[0]]. *)
Definition item0 (l : list pystr) : pystr := default [] (l !! 0%nat).

(** [s.rfind(c)]: index of the last occurrence, [-1] when there is none. *)
Definition rfind (c : N) (s : pystr) : Z :=
  match rpartition c s with
  | Some (h, _) => Z.of_nat (length h)
  | None => -1
  end.

(** [s[i:j]] for [0 <= i]. *)
Definition slice (s : pystr) (i j : Z) : pystr :=
  take (Z.to_nat (j - i)) (drop (Z.to_nat i) s).

(** [posixpath.basename]. *)
Definition basename (p : pystr) : pystr := drop (Z.to_nat (rfind SLASH p + 1)) p.

(** [s.rstrip("/")]. *)
Fixpoint lstrip_slashes (s : pystr) : pystr :=
  match s with
  | c :: t => if (c =? SLASH)%N then lstrip_slashes t else s
  | [] => []
  end.

Definition rstrip_slashes (s : pystr) : pystr := reverse (lstrip_slashes (reverse s)).

(** [posixpath.dirname]: what precedes the last slash, without its
    trailing slashes unless it is made of slashes only. *)
Definition dirname (p : pystr) : pystr :=
  let head := take (Z.to_nat (rfind SLASH p + 1)) p in
  if forallb (fun c => (c =? SLASH)%N) head then head else rstrip_slashes head.

(** [posixpath.splitext]: the extension starts at the last dot of the last
    component, unless only dots precede it there. *)
Definition splitext (p : pystr) : pystr * pystr :=
  let sepIndex := rfind SLASH p in
  let dotIndex := rfind DOT p in
  if (sepIndex <? dotIndex)
     && existsb (fun c => negb (c =? DOT)%N) (slice p (sepIndex + 1) dotIndex)
  then (take (Z.to_nat dotIndex) p, drop (Z.to_nat dotIndex) p)
  else (p, []).

(** [posixpath.join] of two components. *)
Definition path_join (a b : pystr) : pystr :=
  if startswith b [SLASH] then b
  else if bool_decide (a = []) || endswith a [SLASH] then a ++ b
  else a ++ SLASH :: b.

(** [str.isspace] of one code point (the Unicode white-space characters). *)
Definition is_space (c : N) : bool :=
  (((9 <=? c) && (c <=? 13)) || ((28 <=? c) && (c <=? 32))
   || (c =? 133) || (c =? 160) || (c =? 5760)
   || ((8192 <=? c) && (c <=? 8202)) || (c =? 8232) || (c =? 8233)
   || (c =? 8239) || (c =? 8287) || (c =? 12288))%N.

Fixpoint lstrip (s : pystr) : pystr :=
  match s with
  | c :: t => if is_space c then lstrip t else s
  | [] => []
  end.

Definition rstrip (s : pystr) : pystr := reverse (lstrip (reverse s)).

(** [str.strip()]. *)
Definition strip (s : pystr) : pystr := rstrip (lstrip s).

(** [sep.join(parts)]. *)
Fixpoint str_join (sep : pystr) (parts : list pystr) : pystr :=
  match parts with
  | [] => []
  | [x] => x
  | x :: rest => x ++ sep ++ str_join sep rest
  end.

Fixpoint uint_digits (d : Decimal.uint) : pystr :=
  match d with
  | Decimal.Nil => []
  | Decimal.D0 d => 48%N :: uint_digits d
  | Decimal.D1 d => 49%N :: uint_digits d
  | Decimal.D2 d => 50%N :: uint_digits d
  | Decimal.D3 d => 51%N :: uint_digits d
  | Decimal.D4 d => 52%N :: uint_digits d
  | Decimal.D5 d => 53%N :: uint_digits d
  | Decimal.D6 d => 54%N :: uint_digits d
  | Decimal.D7 d => 55%N :: uint_digits d
  | Decimal.D8 d => 56%N :: uint_digits d
  | Decimal.D9 d => 57%N :: uint_digits d
  end.

(** [str(z)] of an [int], as an f-string formats it. *)
Definition str_of_int (z : Z) : pystr :=
  match Z.to_int z with
  | Decimal.Pos d => uint_digits d
  | Decimal.Neg d => 45%N :: uint_digits d
  end.

(** Lexicographic order on code points: Python's [<=] on [str]. *)
Fixpoint str_le (a b : pystr) : bool :=
  match a, b with
  | [], _ => true
  | _ :: _, [] => false
  | x :: a', y :: b' => (x <? y)%N || ((x =? y)%N && str_le a' b')
  end.

Definition str_le_rel (a b : pystr) : Prop := str_le a b = true.

#[global] Instance str_le_rel_dec : RelDecision str_le_rel.
Proof. intros a b. unfold str_le_rel. apply _. Defined.

(** [sorted] on a list of strings. *)
Definition sorted (l : list pystr) : list pystr := merge_sort str_le_rel l.

(** *** Text files *)

(** Reading in text mode with [newline=None]: "\r\n" and "\r" become "\n". *)
Fixpoint universal_newlines (s : pystr) : pystr :=
  match s with
  | [] => []
  | c :: t =>
      if (c =? CR)%N then
        match t with
        | d :: t' => if (d =? LF)%N then LF :: universal_newlines t'
                     else LF :: universal_newlines t
        | [] => [LF]
        end
      else c :: universal_newlines t
  end.

(** [f.readlines()] on translated text: every line keeps its final "\n". *)
Fixpoint readlines (s : pystr) : list pystr :=
  match s with
  | [] => []
  | c :: t =>
      if (c =? LF)%N then [c] :: readlines t
      else match readlines t with
           | [] => [[c]]
           | l :: ls => (c :: l) :: ls
           end
  end.

(** Writing in text mode with [newline=None]: "\n" becomes [os.linesep]. *)
Definition write_newlines (linesep : pystr) (s : pystr) : pystr :=
  flat_map (fun c => if (c =? LF)%N then linesep else [c]) s.

(** ** Python floats *)

Abbreviation pyfloat := spec_float.

Definition prec : Z := 53.
Definition emax : Z := 1024.

Definition int_operand (z : Z) : pyfloat :=
  match z with
  | Z0 => S754_zero false
  | Zpos p => S754_finite false p 0
  | Zneg p => S754_finite true p 0
  end.

(** The exact quotient of two integers rounded once to binary64 (to
    nearest, ties to even); the operands enter the division as integers
    with exponent 0.  Beyond the range of binary64 the rounding gives an
    infinity. *)
Definition quotient (a b : Z) : pyfloat := SFdiv prec emax (int_operand a) (int_operand b).

Definition fsub (x y : pyfloat) : pyfloat := SFsub prec emax x y.
Definition flt (x y : pyfloat) : bool := SFltb x y.
Definition fle (x y : pyfloat) : bool := SFleb x y.
Definition fge (x y : pyfloat) : bool := SFleb y x.

Definition fzero : pyfloat := S754_zero false.
(** The literals [0.5] and [0.6]. *)
Definition f0_5 : pyfloat := S754_finite false 4503599627370496 (-53).
Definition f0_6 : pyfloat := S754_finite false 5404319552844595 (-53).

(** [max(0, x)]: Python keeps the first argument unless the second is
    strictly greater.  The [int] 0 it then returns is written [0.0] here;
    the two agree in the comparison and the subtraction that follow. *)
Definition max0 (x : pyfloat) : pyfloat := if flt fzero x then x else fzero.

(** ** Values, commands, console messages *)

(** One detected speech interval: the dict with the keys 'start' and 'end',
    in samples. *)
Record segment := Segment { seg_start : Z; seg_end : Z }.

(** What [json.load] can return. *)
#[local] Unset Elimination Schemes.
Inductive json :=
| JNull
| JBool (b : bool)
| JInt (z : Z)
| JFloat (f : pyfloat)
| JStr (s : pystr)
| JList (items : list json)
| JDict (items : list (pystr * json)).
#[local] Set Elimination Schemes.

(** The external programs the script starts, with the arguments it builds. *)
Inductive command :=
| AptUpdate (sudo : bool)
| AptInstall (sudo : bool)
| GitClone
| CmakeConfigure (cwd : pystr)
| CmakeBuild (cwd : pystr) (release : bool)
| FfmpegVersion
| FfmpegEncode (src dst : pystr)
| FfmpegCut (src : pystr) (ss t : pyfloat) (dst : pystr)
| WhisperCli (cli model : pystr) (audio : list pystr).

(** Exceptions below [Exception] (a [SystemExit] is not one of them). *)
Inductive exn :=
| CalledProcessError (c : command) (status : Z)
| FileNotFoundError (p : pystr)
| IsADirectoryError (p : pystr)
| PermissionError (p : pystr)
| FileExistsError (p : pystr)
| NotADirectoryError (p : pystr)
| ShutilError (p : pystr)
| JSONDecodeError
| AttributeError
| EOFError
| RuntimeError
| OverflowError
| ZeroDivisionError.

(** [a / b] on two [int]s, as CPython computes it: the correctly rounded
    quotient, [ZeroDivisionError] for a zero divisor and [OverflowError]
    when the rounded quotient is beyond the range of binary64. *)
Definition truediv (a b : Z) : exn + pyfloat :=
  if b =? 0 then inl ZeroDivisionError
  else match quotient a b with
       | S754_infinity _ => inl OverflowError
       | q => inr q
       end.

(** First argument of [progress_callback], by line of the source. *)
Inductive progress :=
| PSystemPackages                    (* 55 *)
| PEncoderDirCopied | PEncoderDirPresent | PEncoderFileCopied | PEncoderFilePresent
| PModelDirCopied | PModelDirPresent | PModelFileCopied | PModelFilePresent
| PCloning                           (* 182 *)
| PCloneFailed (e : exn)             (* 187 *)
| PUsingBundled                      (* 188 *)
| PRepoPresent                       (* 191 *)
| PCmakeConfigure                    (* 195 *)
| PBuilding                          (* 198 *)
| PBuildDone                         (* 204 *)
| PCheckingSystem                    (* 208 *)
| POsArch (os arch : pystr)          (* 211 *)
| PWhisperMissing                    (* 214 *)
| PWhisperPresent                    (* 217 *)
| PInstallDone                       (* 218 *)
| PError (e : exn).                  (* 221 *)

(** The calls of [print], by line of the source, with what they interpolate. *)
Inductive message :=
| MsgUnsupportedOS                          (* 65 *)
| MsgConfigLoadError (e : exn)              (* 90 *)
| MsgCurrentVadConfig (cfg : json)          (* 94 *)
| MsgFfmpegMissing                          (* 228 *)
| MsgAlreadyMp3 (p : pystr)                 (* 233 *)
| MsgConverting (src dst : pystr)           (* 236 *)
| MsgConvertFailed (dst : pystr)            (* 240 *)
| MsgLoadingVad                             (* 253 *)
| MsgLoadingAudio (p : pystr)               (* 257 *)
| MsgDetecting                              (* 259 *)
| MsgDetected (n : Z)                       (* 271 *)
| MsgSkipped (n : Z)                        (* 277 *)
| MsgCutting (n total : Z)                  (* 281 *)
| MsgSplitDone                              (* 283 *)
| MsgNewlinesRemoved (p : pystr)            (* 292 *)
| MsgFolderMissing (p : pystr)              (* 296 *)
| MsgWhisperFiles (n : Z)                   (* 300 *)
| MsgWhisperStart                           (* 307 *)
| MsgWhisperLine (line : pystr)             (* 310 *)
| MsgTranscribed (name loc : pystr)         (* 318 *)
| MsgTxtMissing (txt : pystr)               (* 320 *)
| MsgTranscribeDone (folder : pystr)        (* 321 *)
| MsgFirstRun                               (* 338 *)
| MsgProgress (p : progress) (val : Z)      (* 339 *)
| MsgDefaultMissing                         (* 345 *)
| MsgInputMissing                           (* 351 *)
| MsgStart                                  (* 354 *)
| MsgAllDone.                               (* 358 *)

(** What a run leaves behind, in order. *)
Inductive event :=
| Printed (m : message)
| Spawned (c : command)
| VadRun (file : pystr) (params : list json)
| Wrote (p data : pystr)
| Moved (src dst : pystr)
| MadeDir (p : pystr)
| Copied (src dst : pystr)
| Prompted.

(** ** The world and the monad *)

(** A path names a directory, a regular file with its decoded text, or a
    file that [open] refuses (no permission, undecodable bytes).  Paths are
    keys as the script spells them. *)
Inductive node :=
| Dir
| File (data : pystr)
| Unreadable.

Record world := World {
  files : gmap pystr node;
  vad_config : json
}.

Inductive outcome (A : Type) :=
| Return (a : A)
| SysExit (code : Z)
| Raise (e : exn).
Arguments Return {A} a.
Arguments SysExit {A} code.
Arguments Raise {A} e.

Record run (A : Type) := Run {
  result : outcome A;
  final : world;
  trace : list event
}.
Arguments Run {A} result final trace.
Arguments result {A} r.
Arguments final {A} r.
Arguments trace {A} r.

Definition M (A : Type) : Type := world -> run A.

Definition ret {A} (a : A) : M A := fun w => Run (Return a) w [].

Definition bind {A B} (m : M A) (k : A -> M B) : M B := fun w =>
  let r := m w in
  match result r with
  | Return a =>
      let r' := k a (final r) in
      Run (result r') (final r') (trace r ++ trace r')
  | SysExit c => Run (SysExit c) (final r) (trace r)
  | Raise e => Run (Raise e) (final r) (trace r)
  end.

Notation "x <- m ;; k" := (bind m (fun x => k))
  (at level 100, m at next level, right associativity).
Notation "m ;; k" := (bind m (fun _ => k))
  (at level 100, right associativity).

(** [try: m  except E as e: h e], where [catches] tells the members of [E]. *)
Definition try_except {A} (catches : exn -> bool) (m : M A) (h : exn -> M A) : M A :=
  fun w =>
    let r := m w in
    match result r with
    | Raise e =>
        if catches e then
          let r' := h e (final r) in
          Run (result r') (final r') (trace r ++ trace r')
        else r
    | _ => r
    end.

Definition any_exception (e : exn) : bool := true.

Definition is_CalledProcessError (e : exn) : bool :=
  match e with CalledProcessError _ _ => true | _ => false end.

Definition emit (e : event) : M unit := fun w => Run (Return tt) w [e].
Definition print (m : message) : M unit := emit (Printed m).
Definition sys_exit {A} (code : Z) : M A := fun w => Run (SysExit code) w [].
Definition raise {A} (e : exn) : M A := fun w => Run (Raise e) w [].

(** The value of an expression, or the exception it raises. *)
Definition of_result {A} (r : exn + A) : M A :=
  match r with
  | inl e => raise e
  | inr a => ret a
  end.

(** The status the process ends with. *)
Definition exit_status {A} (o : outcome A) : Z :=
  match o with
  | Return _ => 0
  | SysExit c => c
  | Raise _ => 1
  end.

Definition get_files : M (gmap pystr node) := fun w => Run (Return (files w)) w [].
Definition set_files (fs : gmap pystr node) : M unit :=
  fun w => Run (Return tt) (World fs (vad_config w)) [].
Definition get_vad_config : M json := fun w => Run (Return (vad_config w)) w [].
Definition set_vad_config (cfg : json) : M unit :=
  fun w => Run (Return tt) (World (files w) cfg) [].

(** [os.path.exists], [os.path.isdir]. *)
Definition path_exists (p : pystr) : M bool :=
  fs <- get_files ;; ret (bool_decide (is_Some (fs !! p))).
Definition path_isdir (p : pystr) : M bool :=
  fs <- get_files ;; ret (match fs !! p with Some Dir => true | _ => false end).

(** [open(p, "r").read()] before newline translation. *)
Definition read_text (p : pystr) : M pystr :=
  fs <- get_files ;;
  match fs !! p with
  | Some (File data) => ret data
  | Some Dir => raise (IsADirectoryError p)
  | Some Unreadable => raise (PermissionError p)
  | None => raise (FileNotFoundError p)
  end.

(** [open(p, "w").write(data)]: creates or replaces the file. *)
Definition write_text (p data : pystr) : M unit :=
  fs <- get_files ;;
  match fs !! p with
  | Some Dir => raise (IsADirectoryError p)
  | Some Unreadable => raise (PermissionError p)
  | _ => set_files (<[p := File data]> fs) ;; emit (Wrote p data)
  end.

(** [os.makedirs(p, exist_ok=True)]; only the leaf directory is recorded. *)
Definition makedirs (p : pystr) : M unit :=
  fs <- get_files ;;
  match fs !! p with
  | Some Dir => ret tt
  | Some _ => raise (FileExistsError p)
  | None => set_files (<[p := Dir]> fs) ;; emit (MadeDir p)
  end.

(** [shutil.copy2] of a regular file to a path that does not exist. *)
Definition copy2 (src dst : pystr) : M unit :=
  fs <- get_files ;;
  match fs !! src with
  | Some (File data) => set_files (<[dst := File data]> fs) ;; emit (Copied src dst)
  | Some Dir => raise (IsADirectoryError src)
  | Some Unreadable => raise (PermissionError src)
  | None => raise (FileNotFoundError src)
  end.

(** [shutil.copytree] to a path that does not exist: the directory and
    every path below it. *)
Definition copytree (src dst : pystr) : M unit :=
  fs <- get_files ;;
  let below := fun (kv : pystr * node) (acc : gmap pystr node) =>
    if startswith kv.1 (src ++ [SLASH])
    then <[dst ++ drop (length src) kv.1 := kv.2]> acc else acc in
  set_files (foldr below (<[dst := Dir]> fs) (map_to_list fs)) ;;
  emit (Copied src dst).

(** [shutil.move] of a file.  When [dst] is a directory the file goes into
    it under its own name, which must be free there ([shutil.Error]).
    Otherwise it goes onto [dst] by [os.rename], which replaces a file that
    is there and needs the directory of [dst]: the current directory when
    [dst] names none, else the path [posixpath.dirname] gives.  When the
    rename fails for want of that directory, the copy [shutil.move] then
    tries fails in the same way. *)
Definition shutil_move (src dst : pystr) : M unit :=
  fs <- get_files ;;
  match fs !! dst with
  | Some Dir =>
      let real_dst := path_join dst (basename src) in
      if bool_decide (is_Some (fs !! real_dst)) then raise (ShutilError real_dst)
      else
        match fs !! src with
        | Some nd => set_files (<[real_dst := nd]> (delete src fs)) ;; emit (Moved src real_dst)
        | None => raise (FileNotFoundError src)
        end
  | _ =>
      match fs !! src with
      | Some nd =>
          let parent := dirname dst in
          match (if bool_decide (parent = []) then Some Dir else fs !! parent) with
          | Some Dir => set_files (<[dst := nd]> (delete src fs)) ;; emit (Moved src dst)
          | Some _ => raise (NotADirectoryError dst)
          | None => raise (FileNotFoundError dst)
          end
      | None => raise (FileNotFoundError src)
      end
  end.

(** ** The environment of a run *)

Record Env := {
  (** [sys._MEIPASS], when the script runs from a PyInstaller bundle *)
  sys_meipass : option pystr;
  (** [os.getcwd()], also the value of [os.path.abspath(".")] *)
  getcwd : pystr;
  platform_system : pystr;
  platform_machine : pystr;
  geteuid : Z;
  os_linesep : pystr;
  (** the optional positional argument, after [parse_args] *)
  args_filepath : option pystr;
  (** the line [input] reads; [None] at end of input *)
  stdin_line : option pystr;
  (** an external program run to its end: wait status, the lines it wrote
      and the files it left; [None] when the executable cannot be started *)
  spawn : command -> gmap pystr node -> option (Z * list pystr * gmap pystr node);
  (** [json.load]; [None] when the text is not JSON *)
  json_load : pystr -> option json;
  (** [os.listdir] *)
  os_listdir : pystr -> gmap pystr node -> option (list pystr);
  (** the Silero model: [torch.hub.load], [read_audio] at 16 kHz and
      [get_speech_timestamps] with the five tuning values *)
  silero_vad : pystr -> list json -> gmap pystr node -> option (list segment)
}.

(** ** The script *)

Definition ffmpeg_path : pystr := u "ffmpeg".
Definition CONFIG_FILE : pystr := u "config.json".

Definition DEFAULT_CONFIG : json :=
  JDict [ (u "min_speech_duration_ms", JInt 500);
          (u "min_silence_duration_ms", JInt 700);
          (u "max_speech_duration_s", JInt 18);
          (u "speech_pad_ms", JInt 10);
          (u "threshold", JFloat f0_6) ].

Fixpoint assoc (k : pystr) (items : list (pystr * json)) : option json :=
  match items with
  | [] => None
  | (k', v) :: rest => if bool_decide (k' = k) then Some v else assoc k rest
  end.

(** [cfg.get(k, dflt)]; only a dict has the method. *)
Definition dict_get (cfg : json) (k : pystr) (dflt : json) : M json :=
  match cfg with
  | JDict items => ret (default dflt (assoc k items))
  | _ => raise AttributeError
  end.

(** The callback [main] hands to the installer (line 339). *)
Definition main_callback (msg : progress) (val : Z) : M unit :=
  print (MsgProgress msg val).

Section Script.
Variable E : Env.

(** lines 20-28 *)
Definition resource_path (relative_path : pystr) : pystr :=
  let base_path := default (getcwd E) (sys_meipass E) in
  path_join base_path relative_path.

(** [os.system(c)]: the wait status; 127 from the shell when the program
    is missing. *)
Definition os_system (c : command) : M Z :=
  fs <- get_files ;;
  emit (Spawned c) ;;
  match spawn E c fs with
  | Some (status, _, fs') => set_files fs' ;; ret status
  | None => ret 32512
  end.

(** [subprocess.run(c, check=True)], through the shell or not. *)
Definition subprocess_run (shell : bool) (c : command) : M unit :=
  fs <- get_files ;;
  emit (Spawned c) ;;
  match spawn E c fs with
  | Some (status, _, fs') =>
      set_files fs' ;;
      if status =? 0 then ret tt else raise (CalledProcessError c status)
  | None =>
      if shell then raise (CalledProcessError c 127)
      else raise (FileNotFoundError [])
  end.

(** [subprocess.Popen(c, stdout=PIPE, ...)], its output read to the end,
    then [wait()]. *)
Definition popen_lines (c : command) : M (list pystr) :=
  fs <- get_files ;;
  emit (Spawned c) ;;
  match spawn E c fs with
  | Some (_, lines, fs') => set_files fs' ;; ret lines
  | None => raise (FileNotFoundError [])
  end.

(** lines 53-66 *)
Definition check_and_install_system_dependencies
    (progress_callback : progress -> Z -> M unit) : M unit :=
  if bool_decide (platform_system E = u "Linux") then
    progress_callback PSystemPackages 0 ;;
    let sudo := negb (geteuid E =? 0) in
    subprocess_run true (AptUpdate sudo) ;;
    subprocess_run true (AptInstall sudo)
  else
    print MsgUnsupportedOS ;;
    sys_exit 1.

(** lines 82-94 *)
Definition load_config : M unit :=
  let config_path := resource_path CONFIG_FILE in
  present <- path_exists config_path ;;
  (if present then
     try_except any_exception
       (text <- read_text config_path ;;
        match json_load E text with
        | Some cfg => set_vad_config cfg
        | None => raise JSONDecodeError
        end)
       (fun e =>
          print (MsgConfigLoadError e) ;;
          set_vad_config DEFAULT_CONFIG)
   else set_vad_config DEFAULT_CONFIG) ;;
  cfg <- get_vad_config ;;
  print (MsgCurrentVadConfig cfg).

(** lines 104-105 *)
Definition WHISPER_CLI : pystr := resource_path (u "whisper.cpp/build/bin/whisper-cli").
Definition WHISPER_MODEL : pystr := resource_path (u "whisper.cpp/models/ggml-large-v3-turbo.bin").

(** lines 142-143 *)
Definition check_whisper_cli : M bool := path_exists WHISPER_CLI.

(** One of the two symmetric halves of [copy_prebundled_files]. *)
Definition copy_prebundled (progress_callback : progress -> Z -> M unit)
    (src dest : pystr) (dir_copied dir_present file_copied file_present : progress)
    : M unit :=
  src_isdir <- path_isdir src ;;
  dest_exists <- path_exists dest ;;
  if src_isdir then
    if negb dest_exists then copytree src dest ;; progress_callback dir_copied 30
    else progress_callback dir_present 30
  else
    if negb dest_exists then copy2 src dest ;; progress_callback file_copied 30
    else progress_callback file_present 30.

(** lines 145-177 *)
Definition copy_prebundled_files (progress_callback : progress -> Z -> M unit) : M unit :=
  let models_dir := resource_path (u "whisper.cpp/models") in
  makedirs models_dir ;;
  let encoder_src := resource_path (u "resources/ggml-large-v3-turbo-encoder.mlmodelc") in
  let model_src := resource_path (u "resources/ggml-large-v3-turbo.bin") in
  let encoder_dest := path_join models_dir (u "ggml-large-v3-turbo-encoder.mlmodelc") in
  let model_dest := path_join models_dir (u "ggml-large-v3-turbo.bin") in
  copy_prebundled progress_callback encoder_src encoder_dest
    PEncoderDirCopied PEncoderDirPresent PEncoderFileCopied PEncoderFilePresent ;;
  copy_prebundled progress_callback model_src model_dest
    PModelDirCopied PModelDirPresent PModelFileCopied PModelFilePresent.

(** lines 179-204 *)
Definition download_and_build_whisper (progress_callback : progress -> Z -> M unit) : M unit :=
  let target_dir := resource_path (u "whisper.cpp") in
  present <- path_exists target_dir ;;
  (if negb present then
     progress_callback PCloning 10 ;;
     try_except is_CalledProcessError
       (subprocess_run false GitClone)
       (fun e =>
          progress_callback (PCloneFailed e) 10 ;;
          progress_callback PUsingBundled 10 ;;
          copy_prebundled_files progress_callback)
   else progress_callback PRepoPresent 10) ;;
  copy_prebundled_files progress_callback ;;
  progress_callback PCmakeConfigure 40 ;;
  subprocess_run false (CmakeConfigure (resource_path (u "whisper.cpp"))) ;;
  progress_callback PBuilding 50 ;;
  let build_command :=
    CmakeBuild (resource_path (u "whisper.cpp"))
               (bool_decide (platform_system E = u "Windows")) in
  subprocess_run false build_command ;;
  progress_callback PBuildDone 70.

(** lines 206-222 *)
Definition installation_process (progress_callback : progress -> Z -> M unit) : M bool :=
  try_except any_exception
    (progress_callback PCheckingSystem 0 ;;
     let os_type := platform_system E in
     let arch := platform_machine E in
     progress_callback (POsArch os_type arch) 5 ;;
     check_and_install_system_dependencies progress_callback ;;
     present <- check_whisper_cli ;;
     (if negb present then
        progress_callback PWhisperMissing 5 ;;
        download_and_build_whisper progress_callback
      else progress_callback PWhisperPresent 70) ;;
     progress_callback PInstallDone 100 ;;
     ret true)
    (fun e =>
       progress_callback (PError e) 100 ;;
       raise e).

(** lines 226-229 *)
Definition check_ffmpeg : M unit :=
  status <- os_system FfmpegVersion ;;
  if negb (status =? 0) then print MsgFfmpegMissing ;; sys_exit 1 else ret tt.

(** lines 231-242 *)
Definition convert_to_mp3 (file_path : pystr) : M pystr :=
  if endswith (lower file_path) (u ".mp3") then
    print (MsgAlreadyMp3 file_path) ;;
    ret file_path
  else
    let output_mp3 := item0 (rsplit1 DOT file_path) ++ u ".mp3" in
    print (MsgConverting file_path output_mp3) ;;
    os_system (FfmpegEncode file_path output_mp3) ;;
    present <- path_exists output_mp3 ;;
    if negb present then print (MsgConvertFailed output_mp3) ;; sys_exit 1
    else ret output_mp3.

(** lines 273-275: the three values computed at the head of the loop body;
    each of the two divisions can raise. *)
Definition segment_times (seg : segment) : M (pyfloat * pyfloat * pyfloat) :=
  start <- of_result (truediv (seg_start seg) 16000) ;;
  let start_time := max0 start in
  end_time <- of_result (truediv (seg_end seg) 16000) ;;
  let duration := fsub end_time start_time in
  ret (start_time, end_time, duration).

(** lines 272-282: the loop over [enumerate(speech_timestamps)], entered at
    index [idx]. *)
Fixpoint split_loop (file_path mp3_folder : pystr) (total_segments idx : Z)
    (speech_timestamps : list segment) : M unit :=
  match speech_timestamps with
  | [] => ret tt
  | seg :: rest =>
      times <- segment_times seg ;;
      let '(start_time, end_time, duration) := times in
      (if fge start_time end_time || flt duration f0_5 then
         print (MsgSkipped (idx + 1))
       else
         let output_mp3 := path_join mp3_folder (str_of_int (idx + 1) ++ u ".mp3") in
         print (MsgCutting (idx + 1) total_segments) ;;
         os_system (FfmpegCut file_path start_time duration output_mp3) ;;
         ret tt) ;;
      split_loop file_path mp3_folder total_segments (idx + 1) rest
  end.

(** lines 244-284 *)
Definition split_audio (file_path : pystr) : M (pystr * pystr * pystr) :=
  check_ffmpeg ;;
  let base_name := (splitext (basename file_path)).1 in
  let output_folder := path_join (u "split_audio") base_name in
  let mp3_folder := path_join output_folder (u "MP3") in
  let text_folder := path_join output_folder (u "TEXT") in
  makedirs mp3_folder ;;
  makedirs text_folder ;;
  file_path <- convert_to_mp3 file_path ;;
  print MsgLoadingVad ;;
  print (MsgLoadingAudio file_path) ;;
  print MsgDetecting ;;
  cfg <- get_vad_config ;;
  min_speech <- dict_get cfg (u "min_speech_duration_ms") (JInt 500) ;;
  min_silence <- dict_get cfg (u "min_silence_duration_ms") (JInt 700) ;;
  max_speech <- dict_get cfg (u "max_speech_duration_s") (JInt 18) ;;
  speech_pad <- dict_get cfg (u "speech_pad_ms") (JInt 10) ;;
  threshold <- dict_get cfg (u "threshold") (JFloat f0_6) ;;
  let params := [min_speech; min_silence; max_speech; speech_pad; threshold] in
  fs <- get_files ;;
  emit (VadRun file_path params) ;;
  match silero_vad E file_path params fs with
  | None => raise RuntimeError
  | Some speech_timestamps =>
      let total_segments := Z.of_nat (length speech_timestamps) in
      print (MsgDetected total_segments) ;;
      split_loop file_path mp3_folder total_segments 0 speech_timestamps ;;
      print MsgSplitDone ;;
      ret (output_folder, mp3_folder, text_folder)
  end.

(** lines 286-292 *)
Definition remove_newlines_from_text (text_file : pystr) : M unit :=
  raw <- read_text text_file ;;
  let lines := readlines (universal_newlines raw) in
  let cleaned_text := str_join [SPACE] (strip <$> lines) in
  write_text text_file (write_newlines (os_linesep E) cleaned_text) ;;
  print (MsgNewlinesRemoved text_file).

(** lines 313-320: the body of the loop over [audio_files]. *)
Definition transcribe_one (text_folder file : pystr) : M unit :=
  let txt_file := file ++ u ".txt" in
  present <- path_exists txt_file ;;
  if present then
    remove_newlines_from_text txt_file ;;
    let new_location := path_join text_folder (basename txt_file) in
    shutil_move txt_file new_location ;;
    print (MsgTranscribed (basename file) new_location)
  else
    print (MsgTxtMissing txt_file).

(** lines 312-320 *)
Fixpoint transcribe_loop (text_folder : pystr) (audio_files : list pystr) : M unit :=
  match audio_files with
  | [] => ret tt
  | file :: rest =>
      transcribe_one text_folder file ;;
      transcribe_loop text_folder rest
  end.

(** lines 309-310 *)
Fixpoint print_lines (lines : list pystr) : M unit :=
  match lines with
  | [] => ret tt
  | line :: rest => print (MsgWhisperLine (strip line)) ;; print_lines rest
  end.

(** lines 294-321 *)
Definition transcribe_audio (mp3_folder text_folder : pystr) : M unit :=
  present <- path_exists mp3_folder ;;
  if negb present then print (MsgFolderMissing mp3_folder) ;; sys_exit 1
  else
    fs <- get_files ;;
    match os_listdir E mp3_folder fs with
    | None => raise (FileNotFoundError mp3_folder)
    | Some names =>
        let audio_files :=
          sorted (path_join mp3_folder <$>
                  List.filter (fun f => endswith f (u ".mp3")) names) in
        let total_files := Z.of_nat (length audio_files) in
        print (MsgWhisperFiles total_files) ;;
        print MsgWhisperStart ;;
        lines <- popen_lines (WhisperCli WHISPER_CLI WHISPER_MODEL audio_files) ;;
        print_lines lines ;;
        transcribe_loop text_folder audio_files ;;
        print (MsgTranscribeDone text_folder)
    end.

Definition marker : pystr := u "installed.flag".

(** [if args.filepath:] an absent and an empty argument are both false. *)
Definition filepath_given : bool :=
  match args_filepath E with
  | Some (_ :: _) => true
  | _ => false
  end.

(** lines 333-352: the choice of the file to process. *)
Definition choose_file : M pystr :=
  if filepath_given then ret (default [] (args_filepath E))
  else
    installed <- path_exists marker ;;
    if negb installed then
      print MsgFirstRun ;;
      installation_process main_callback ;;
      write_text marker (write_newlines (os_linesep E) (u "installed")) ;;
      let file_path := path_join (getcwd E) (u "Tvoice.mp3") in
      present <- path_exists file_path ;;
      if negb present then print MsgDefaultMissing ;; sys_exit 1
      else ret file_path
    else
      emit Prompted ;;
      match stdin_line E with
      | None => raise EOFError
      | Some line =>
          let file_path := strip line in
          present <- path_exists file_path ;;
          if negb present then print MsgInputMissing ;; sys_exit 1
          else ret file_path
      end.

(** lines 354-358: conversion, segmentation, transcription. *)
Definition process_audio (file_path : pystr) : M unit :=
  print MsgStart ;;
  file_path <- convert_to_mp3 file_path ;;
  folders <- split_audio file_path ;;
  let '(output_folder, mp3_folder, text_folder) := folders in
  transcribe_audio mp3_folder text_folder ;;
  print MsgAllDone.

(** lines 325-358 *)
Definition main : M unit :=
  file_path <- choose_file ;;
  process_audio file_path.

(** The module body (line 100) followed by the call at lines 360-361. *)
Definition script : M unit := load_config ;; main.

End Script.

(** The state the interpreter starts from: [vad_config = {}] (line 80). *)
Definition initial_world (fs : gmap pystr node) : world := World fs (JDict []).

(** ** Vocabulary of the properties *)

(** The events of conversion, segmentation and transcription. *)
Definition is_audio_event (e : event) : bool :=
  match e with
  | Spawned FfmpegVersion | Spawned (FfmpegEncode _ _)
  | Spawned (FfmpegCut _ _ _ _) | Spawned (WhisperCli _ _ _) => true
  | VadRun _ _ => true
  | _ => false
  end.

(** The events of the installer. *)
Definition is_install_event (e : event) : bool :=
  match e with
  | Spawned (AptUpdate _) | Spawned (AptInstall _) | Spawned GitClone
  | Spawned (CmakeConfigure _) | Spawned (CmakeBuild _ _) => true
  | Printed (MsgProgress _ _) => true
  | _ => false
  end.

Definition is_marker_write (e : event) : bool :=
  match e with
  | Wrote p _ => bool_decide (p = marker)
  | _ => false
  end.

Definition is_encoder_run (e : event) : bool :=
  match e with
  | Spawned (FfmpegEncode _ _) => true
  | _ => false
  end.

(** An interval whose two sample positions, divided by 16000, are within
    the range of binary64: neither division of lines 273-274 raises. *)
Definition in_range (s : segment) : Prop :=
  truediv (seg_start s) 16000 = inr (quotient (seg_start s) 16000) /\
  truediv (seg_end s) 16000 = inr (quotient (seg_end s) 16000).

(** The three values lines 273-275 compute for such an interval. *)
Definition start_time (s : segment) : pyfloat := max0 (quotient (seg_start s) 16000).
Definition end_time (s : segment) : pyfloat := quotient (seg_end s) 16000.
Definition duration (s : segment) : pyfloat := fsub (end_time s) (start_time s).

(** The test of line 276, in the words of the specification: the start is
    not before the end, or the duration is under half a second. *)
Definition interval_skipped (s : segment) : Prop :=
  fge (start_time s) (end_time s) = true \/ flt (duration s) f0_5 = true.

(** A text file holding the given lines, each ended by a line feed. *)
Definition unlines (ls : list pystr) : pystr := concat ((fun l => l ++ [LF]) <$> ls).

(** The extension of [p] is the target format in some letter case. *)
Definition has_mp3_extension (p : pystr) : Prop :=
  exists stem ext, p = stem ++ ext /\ lower ext = u ".mp3".


(** [open(p, "w")] succeeds: nothing is at [p], or a regular file. *)
Definition writable (fs : gmap pystr node) (p : pystr) : Prop :=
  fs !! p = None \/ exists data, fs !! p = Some (File data).

(** A computation that starts no audio processing and, if it ends the
    process, ends it with status 1. *)
Definition installer_like {A} (m : M A) : Prop :=
  forall w,
    Forall (fun e => is_audio_event e = false) (trace (m w)) /\
    forall c, result (m w) = SysExit c -> c = 1.

(** A zero, an infinity or a finite number of sign [s] ([true]: negative). *)
Inductive signed_as (s : bool) : pyfloat -> Prop :=
| signed_zero : signed_as s (S754_zero s)
| signed_infinity : signed_as s (S754_infinity s)
| signed_finite m e : signed_as s (S754_finite s m e).

(** ** A concrete environment for the examples *)

(** Every tool succeeds; the encoder and the cutter create their output
    file, the transcription binary writes a two-line transcript beside
    every audio file it is given. *)
Definition demo_transcript : pystr := unlines [u " hello"; u "world "].

Definition demo_spawn (c : command) (fs : gmap pystr node)
    : option (Z * list pystr * gmap pystr node) :=
  match c with
  | FfmpegEncode _ dst => Some (0, [], <[dst := File []]> fs)
  | FfmpegCut _ _ _ dst => Some (0, [], <[dst := File []]> fs)
  | WhisperCli _ _ audio =>
      Some (0, [], foldr (fun f acc => <[f ++ u ".txt" := File demo_transcript]> acc) fs audio)
  | _ => Some (0, [], fs)
  end.

(** The names right below a directory. *)
Definition demo_listdir (d : pystr) (fs : gmap pystr node) : option (list pystr) :=
  Some (omap (fun kv : pystr * node =>
                if startswith kv.1 (d ++ [SLASH])
                then Some (drop (S (length d)) kv.1) else None)
             (map_to_list fs)).

Definition demo_env (arg : option pystr) (segs : list segment) : Env :=
  {| sys_meipass := None;
     getcwd := u "/home/user";
     platform_system := u "Linux";
     platform_machine := u "x86_64";
     geteuid := 1000;
     os_linesep := [LF];
     args_filepath := arg;
     stdin_line := None;
     spawn := demo_spawn;
     json_load := fun _ => None;
     os_listdir := demo_listdir;
     silero_vad := fun _ _ _ => Some segs |}.

(** A machine on which the transcription binary is already built. *)
Definition demo_built : gmap pystr node :=
  {[ WHISPER_CLI (demo_env None []) := File [] ]}.

(** ** Proof automation *)

(** Lemmas that show a computation to be [installer_like]. *)
Create HintDb installer discriminated.

(** Refutes [H : x ∈ l] for a closed list [l] that does not hold [x]. *)
Ltac absurd_member H :=
  vm_compute in H;
  repeat (apply elem_of_cons in H as [H|H]; [discriminate H|]);
  apply elem_of_nil in H; exact H.

(** ** Vocabulary of the further properties *)

(** A computation that never ends the process through [sys.exit]. *)
Definition never_exits {A} (m : M A) : Prop :=
  forall w c, result (m w) <> SysExit c.

(** A computation none of whose events satisfies [P]. *)
Definition never_emits (P : event -> bool) {A} (m : M A) : Prop :=
  forall w, Forall (fun e => P e = false) (trace (m w)).

(** A computation that leaves the global [vad_config] as it found it. *)
Definition keeps_config {A} (m : M A) : Prop :=
  forall w, vad_config (final (m w)) = vad_config w.

Definition is_cut (e : event) : bool :=
  match e with
  | Spawned (FfmpegCut _ _ _ _) => true
  | _ => false
  end.

Definition is_vad_run (e : event) : bool :=
  match e with
  | VadRun _ _ => true
  | _ => false
  end.

Definition is_spawn (e : event) : bool :=
  match e with
  | Spawned _ => true
  | _ => false
  end.

(** An environment in which the package index cannot be updated. *)
Definition failing_update_env : Env :=
  {| sys_meipass := None; getcwd := u "/home/user"; platform_system := u "Linux";
     platform_machine := u "x86_64"; geteuid := 0; os_linesep := [LF];
     args_filepath := None; stdin_line := None;
     spawn := fun c fs => match c with
                          | AptUpdate _ => Some (100, [], fs)
                          | _ => Some (0, [], fs)
                          end;
     json_load := fun _ => None; os_listdir := demo_listdir;
     silero_vad := fun _ _ _ => Some [] |}.

Create HintDb noexit discriminated.
Create HintDb quiet discriminated.
Create HintDb keepcfg discriminated.


(** A computation that neither reads nor writes the global [vad_config]:
    started with another configuration it does the same, and hands that
    configuration on. *)
Definition ignores_config {A} (m : M A) : Prop :=
  forall fs c c',
    m (World fs c')
    = let r := m (World fs c) in Run (result r) (World (files (final r)) c') (trace r).

(** The same for two given configurations, together with the fact that the
    first one is handed on. *)
Definition config_insensitive (c c' : json) {A} (m : M A) : Prop :=
  forall fs,
    m (World fs c')
    = (let r := m (World fs c) in Run (result r) (World (files (final r)) c') (trace r)) /\
    vad_config (final (m (World fs c))) = c.

(** The five tuning values [split_audio] reads with [vad_config.get]
    (lines 264-268), in the order of the call; [None] when [vad_config] has
    no method [get]. *)
Definition vad_params (cfg : json) : option (list json) :=
  match cfg with
  | JDict items =>
      Some [ default (JInt 500) (assoc (u "min_speech_duration_ms") items);
             default (JInt 700) (assoc (u "min_silence_duration_ms") items);
             default (JInt 18) (assoc (u "max_speech_duration_s") items);
             default (JInt 10) (assoc (u "speech_pad_ms") items);
             default (JFloat f0_6) (assoc (u "threshold") items) ]
  | _ => None
  end.

(** A computation that, started with a [vad_config] that is not a dict,
    does not return and does not run the detector. *)
Definition blocked_without_dict {A} (m : M A) : Prop :=
  forall w, vad_params (vad_config w) = None ->
    (forall a, result (m w) <> Return a) /\
    Forall (fun e => is_vad_run e = false) (trace (m w)).

Create HintDb cfg discriminated.

(** What only a first run does: the installer's events and the write of
    the marker. *)
Definition is_first_run_event (e : event) : bool :=
  is_install_event e || is_marker_write e.

Definition is_write (e : event) : bool :=
  match e with
  | Wrote _ _ => true
  | _ => false
  end.

(** The external programs a run has started, in order. *)
Definition spawned (t : list event) : list command :=
  omap (fun e => match e with Spawned c => Some c | _ => None end) t.

(** Every run of [m] starts an initial stretch of one of the command
    sequences [L], and all of it when [m] returns. *)
Definition spawns_among (L : list (list command)) {A} (m : M A) : Prop :=
  forall w,
    let cs := spawned (trace (m w)) in
    (exists l, l ∈ L /\ cs `prefix_of` l) /\
    (forall a, result (m w) = Return a -> cs ∈ L).

(** What a call of the segmenter shows of the detector: it is not run, or
    it is run once, on an MP3 path and with the five values of the
    configuration; a call that returns has run it, and returns a value
    for which [Q] holds. *)
Definition detects_once {A} (Q : A -> Prop) (m : M A) : Prop :=
  forall w,
    let runs := List.filter is_vad_run (trace (m w)) in
    (runs = [] \/
     exists mp3 params,
       vad_params (vad_config w) = Some params /\
       endswith (lower mp3) (u ".mp3") = true /\
       runs = [VadRun mp3 params]) /\
    (forall a, result (m w) = Return a -> Q a /\ runs <> []).

(** lines 96-98: [save_config], a function of the module that the script
    itself does not call.  [json_dump] is the text [json.dump] with
    [indent=4] produces. *)
Definition save_config (E : Env) (json_dump : json -> pystr) : M unit :=
  cfg <- get_vad_config ;;
  write_text (resource_path E CONFIG_FILE)
             (write_newlines (os_linesep E) (json_dump cfg)).

(** * Properties *)

(** ** Floats *)

Lemma shr_1_nonneg mrs : 0 <= shr_m mrs -> 0 <= shr_m (shr_1 mrs).
Proof.
  destruct mrs as [m r s]; simpl.
  destruct m as [|p|p]; [easy | | lia].
  destruct p; simpl; lia.
Qed.

Lemma iter_shr_1_nonneg p mrs :
  0 <= shr_m mrs -> 0 <= shr_m (SpecFloat.iter_pos shr_1 p mrs).
Proof.
  revert mrs; induction p as [p IH|p IH|]; intros mrs H; simpl.
  - apply IH, IH, shr_1_nonneg, H.
  - apply IH, IH, H.
  - apply shr_1_nonneg, H.
Qed.

Lemma shr_fexp_nonneg m e l :
  0 <= m -> 0 <= shr_m (shr_fexp prec emax m e l).1.
Proof.
  intros H. unfold shr_fexp, shr.
  assert (H0 : 0 <= shr_m (shr_record_of_loc m l)).
  { destruct l as [|[]]; simpl; exact H. }
  destruct (fexp prec emax (Zdigits2 m + e) - e); simpl; auto.
  apply iter_shr_1_nonneg, H0.
Qed.

Lemma round_nearest_even_nonneg m l : 0 <= m -> 0 <= round_nearest_even m l.
Proof.
  intros H. destruct l as [|[]]; simpl; try lia. destruct (Z.even m); lia.
Qed.

Lemma binary_round_aux_signed s m e l :
  0 <= m -> signed_as s (binary_round_aux prec emax s m e l).
Proof.
  intros H. unfold binary_round_aux.
  pose proof (shr_fexp_nonneg m e l H) as H1.
  destruct (shr_fexp prec emax m e l) as [mrs' e'] eqn:E1; simpl in H1.
  pose proof (shr_fexp_nonneg _ e' loc_Exact
                (round_nearest_even_nonneg _ (loc_of_shr_record mrs') H1)) as H2.
  destruct (shr_fexp prec emax _ e' loc_Exact) as [mrs'' e''] eqn:E2; simpl in H2.
  destruct (shr_m mrs'') as [|p|p]; [constructor | | lia].
  destruct (e'' <=? emax - prec); constructor.
Qed.

Lemma quotient_signed a b :
  a <> 0 -> 0 < b -> signed_as (a <? 0) (quotient a b).
Proof.
  intros Ha Hb. unfold quotient.
  destruct b as [|pb|pb]; try lia.
  destruct a as [|pa|pa]; try lia; simpl int_operand; unfold SFdiv.
  all: destruct (SFdiv_core_binary prec emax _ 0 _ 0) as [[mz ez] lz] eqn:Hc.
  all: unfold SFdiv_core_binary in Hc.
  all: match type of Hc with context [Z.div_eucl ?x ?y] =>
         pose proof (Z.div_pos x y) as Hq; unfold Z.div in Hq;
         destruct (Z.div_eucl x y) as [q r] eqn:Hd end.
  all: injection Hc as <- <- <-.
  all: apply binary_round_aux_signed, Hq; try lia.
  all: match goal with |- 0 <= match ?s with _ => _ end => destruct s end; try lia.
  all: rewrite Z.shiftl_mul_pow2 by lia; lia.
Qed.

Lemma SFcompare_antisym x y :
  SFcompare y x = CompOpp <$> SFcompare x y.
Proof.
  destruct x as [sx|sx| |sx mx ex], y as [sy|sy| |sy my ey]; simpl;
    try reflexivity; try (destruct sx; reflexivity); try (destruct sy; reflexivity);
    try (destruct sx, sy; reflexivity).
  destruct sx, sy; simpl; try reflexivity.
  - rewrite (Z.compare_antisym ex ey).
    destruct (ex ?= ey); simpl; try reflexivity.
    rewrite (Pos.compare_cont_antisym mx my Eq). simpl.
    destruct (Pos.compare_cont Eq mx my); reflexivity.
  - rewrite (Z.compare_antisym ex ey).
    destruct (ex ?= ey); simpl; try reflexivity.
    rewrite (Pos.compare_cont_antisym mx my Eq). simpl.
    destruct (Pos.compare_cont Eq mx my); reflexivity.
Qed.

Lemma signed_as_not_nan s x : signed_as s x -> x <> S754_nan.
Proof. intros [] ?; discriminate. Qed.

(** On numbers, [not (x <= y)] is [y < x] and [not (x < y)] is [y <= x]. *)
Lemma not_fle_flt x y :
  x <> S754_nan -> y <> S754_nan -> negb (fle x y) = flt y x.
Proof.
  intros Hx Hy. unfold fle, flt, SFleb, SFltb.
  rewrite (SFcompare_antisym x y).
  destruct (SFcompare x y) as [[]|] eqn:Hc; try reflexivity.
  destruct x, y; try congruence; simpl in Hc; try discriminate.
Qed.

Lemma not_flt_fle x y :
  x <> S754_nan -> y <> S754_nan -> negb (flt x y) = fle y x.
Proof.
  intros Hx Hy. unfold fle, flt, SFleb, SFltb.
  rewrite (SFcompare_antisym x y).
  destruct (SFcompare x y) as [[]|] eqn:Hc; try reflexivity.
  destruct x, y; try congruence; simpl in Hc; try discriminate.
Qed.

Lemma quotient_not_nan a b : 0 < b -> quotient a b <> S754_nan.
Proof.
  intros Hb. destruct (decide (a = 0)) as [->|Ha].
  - destruct b; try lia. discriminate.
  - eapply signed_as_not_nan, quotient_signed; assumption.
Qed.

Lemma max0_negative x : signed_as true x -> max0 x = fzero.
Proof. intros []; reflexivity. Qed.

Lemma fsub_fzero x : fsub x fzero = x.
Proof. destruct x as [[]|[]| |]; reflexivity. Qed.

(** The float literals of the script are the roundings of their decimals. *)
Example float_literals : f0_5 = quotient 1 2 /\ f0_6 = quotient 6 10.
Proof. split; reflexivity. Qed.

(** ** The monad *)

Lemma bind_Return {A B} (m : M A) (k : A -> M B) w a :
  result (m w) = Return a ->
  bind m k w = Run (result (k a (final (m w)))) (final (k a (final (m w))))
                   (trace (m w) ++ trace (k a (final (m w)))).
Proof. intros H. unfold bind. rewrite H. reflexivity. Qed.

Lemma bind_SysExit {A B} (m : M A) (k : A -> M B) w c :
  result (m w) = SysExit c ->
  bind m k w = Run (SysExit c) (final (m w)) (trace (m w)).
Proof. intros H. unfold bind. rewrite H. reflexivity. Qed.

Lemma bind_Raise {A B} (m : M A) (k : A -> M B) w e :
  result (m w) = Raise e ->
  bind m k w = Run (Raise e) (final (m w)) (trace (m w)).
Proof. intros H. unfold bind. rewrite H. reflexivity. Qed.

Lemma run_eta {A} (r : run A) : Run (result r) (final r) (trace r) = r.
Proof. destruct r; reflexivity. Qed.

Lemma bind_ret_l {A B} (a : A) (k : A -> M B) w : bind (ret a) k w = k a w.
Proof. unfold bind, ret; simpl. apply run_eta. Qed.

Lemma bind_run_Return {A B} (m : M A) (k : A -> M B) w a w' t :
  m w = Run (Return a) w' t ->
  bind m k w = Run (result (k a w')) (final (k a w')) (t ++ trace (k a w')).
Proof. intros H. unfold bind. rewrite H. reflexivity. Qed.

Lemma bind_run_SysExit {A B} (m : M A) (k : A -> M B) w c w' t :
  m w = Run (SysExit c) w' t -> bind m k w = Run (SysExit c) w' t.
Proof. intros H. unfold bind. rewrite H. reflexivity. Qed.

Lemma bind_run_Raise {A B} (m : M A) (k : A -> M B) w e w' t :
  m w = Run (Raise e) w' t -> bind m k w = Run (Raise e) w' t.
Proof. intros H. unfold bind. rewrite H. reflexivity. Qed.

Lemma bind_pure {A B} (m : M A) (k : A -> M B) w a w' :
  m w = Run (Return a) w' [] -> bind m k w = k a w'.
Proof. intros H. unfold bind. rewrite H. simpl. apply run_eta. Qed.

Lemma final_bind {A B} (m : M A) (k : A -> M B) w :
  final (bind m k w)
  = match result (m w) with
    | Return a => final (k a (final (m w)))
    | _ => final (m w)
    end.
Proof. unfold bind. destruct (result (m w)); reflexivity. Qed.

Lemma os_system_run E c w :
  exists status, result (os_system E c w) = Return status
                 /\ trace (os_system E c w) = [Spawned c].
Proof.
  unfold os_system, bind, get_files, emit, set_files, ret; simpl.
  destruct (spawn E c (files w)) as [[[status out] fs']|]; simpl; eauto.
Qed.

(** ** Strings *)

Lemma uint_digits_inj d d' : uint_digits d = uint_digits d' -> d = d'.
Proof.
  revert d'; induction d; destruct d'; simpl; intros H;
    try discriminate; try reflexivity; f_equal; apply IHd; congruence.
Qed.

Lemma uint_digits_first d c rest :
  uint_digits d = c :: rest -> (48 <= c <= 57)%N.
Proof. destruct d; simpl; intros H; try discriminate; injection H as <- _; lia. Qed.

Lemma str_of_int_inj a b : str_of_int a = str_of_int b -> a = b.
Proof.
  unfold str_of_int. intros H.
  rewrite <- (DecimalZ.of_to a), <- (DecimalZ.of_to b).
  destruct (Z.to_int a) as [da|da], (Z.to_int b) as [db|db].
  - apply uint_digits_inj in H. congruence.
  - apply uint_digits_first in H. lia.
  - symmetry in H. apply uint_digits_first in H. lia.
  - injection H as H. apply uint_digits_inj in H. congruence.
Qed.

Lemma str_of_int_no_slash z rest : startswith (str_of_int z ++ DOT :: rest) [SLASH] = false.
Proof.
  unfold startswith. apply bool_decide_eq_false. intros [k Hk].
  unfold str_of_int in Hk.
  destruct (Z.to_int z) as [d|d]; simpl in Hk.
  - destruct (uint_digits d) as [|c r] eqn:Hd; simpl in Hk.
    + discriminate.
    + apply uint_digits_first in Hd. injection Hk as -> _. unfold SLASH in Hd. lia.
  - discriminate.
Qed.

(** Joining a folder with two relative names gives the same path only for
    the same name. *)
Lemma path_join_inj a b b' :
  startswith b [SLASH] = false -> startswith b' [SLASH] = false ->
  path_join a b = path_join a b' -> b = b'.
Proof.
  unfold path_join. intros -> ->.
  destruct (bool_decide (a = []) || endswith a [SLASH]); intros H.
  - eapply app_inv_head, H.
  - apply app_inv_head in H. congruence.
Qed.

Lemma segment_file_inj mp3_folder a b :
  path_join mp3_folder (str_of_int a ++ u ".mp3")
  = path_join mp3_folder (str_of_int b ++ u ".mp3") -> a = b.
Proof.
  intros H. apply path_join_inj in H; try apply str_of_int_no_slash.
  apply app_inv_tail in H. apply str_of_int_inj, H.
Qed.

(** ** The segmenter *)

Lemma interval_skipped_test s :
  interval_skipped s <->
  fge (start_time s) (end_time s) || flt (duration s) f0_5 = true.
Proof. unfold interval_skipped. rewrite orb_true_iff. reflexivity. Qed.

(** Dividing by 16000 gives the rounded quotient or overflows. *)
Lemma truediv_16000 a :
  truediv a 16000 = inr (quotient a 16000) \/ truediv a 16000 = inl OverflowError.
Proof.
  unfold truediv. change (16000 =? 0) with false. cbv iota.
  destruct (quotient a 16000); auto.
Qed.

Lemma segment_times_in_range s w :
  in_range s ->
  segment_times s w = Run (Return (start_time s, end_time s, duration s)) w [].
Proof.
  intros [Hstart Hend]. unfold segment_times.
  rewrite Hstart. cbn [of_result]. rewrite bind_ret_l.
  rewrite Hend. cbn [of_result]. rewrite bind_ret_l. reflexivity.
Qed.

Lemma segment_times_overflow s w :
  ~ in_range s -> segment_times s w = Run (Raise OverflowError) w [].
Proof.
  intros Hout. unfold segment_times.
  destruct (truediv_16000 (seg_start s)) as [Hstart|Hstart]; rewrite Hstart;
    cbn [of_result]; [rewrite bind_ret_l | reflexivity].
  destruct (truediv_16000 (seg_end s)) as [Hend|Hend]; rewrite Hend;
    cbn [of_result]; [|reflexivity].
  elim Hout. split; assumption.
Qed.

(** An interval beyond the range ends the loop where it stands. *)
Lemma split_loop_overflow E file_path mp3_folder total idx s rest w :
  ~ in_range s ->
  split_loop E file_path mp3_folder total idx (s :: rest) w = Run (Raise OverflowError) w [].
Proof.
  intros Hout. cbn [split_loop].
  apply bind_run_Raise, segment_times_overflow, Hout.
Qed.

Lemma split_loop_parts E file_path mp3_folder total segs :
  Forall in_range segs ->
  forall idx w,
    let r := split_loop E file_path mp3_folder total idx segs w in
    result r = Return tt /\
    exists parts : list (list event),
      trace r = concat parts /\
      length parts = length segs /\
      forall (i : nat) s, segs !! i = Some s ->
        (interval_skipped s ->
           parts !! i = Some [Printed (MsgSkipped (idx + Z.of_nat i + 1))]) /\
        (~ interval_skipped s ->
           parts !! i =
             Some [Printed (MsgCutting (idx + Z.of_nat i + 1) total);
                   Spawned (FfmpegCut file_path (start_time s) (duration s)
                              (path_join mp3_folder
                                 (str_of_int (idx + Z.of_nat i + 1) ++ u ".mp3")))]).
Proof.
  induction 1 as [|seg rest Hseg _ IH]; intros idx w; cbn zeta.
  - split; [reflexivity|]. exists []. repeat split; try reflexivity.
    all: rewrite lookup_nil in H; discriminate.
  - cbn [split_loop].
    rewrite (bind_pure (segment_times seg) _ w _ w (segment_times_in_range seg w Hseg)).
    cbv beta iota zeta.
    set (body := if fge (start_time seg) (end_time seg) || flt (duration seg) f0_5
                 then _ else _).
    assert (Hbody : result (body w) = Return tt /\
              ((interval_skipped seg /\ trace (body w) = [Printed (MsgSkipped (idx + 1))]) \/
               (~ interval_skipped seg /\ trace (body w) =
                  [Printed (MsgCutting (idx + 1) total);
                   Spawned (FfmpegCut file_path (start_time seg) (duration seg)
                              (path_join mp3_folder (str_of_int (idx + 1) ++ u ".mp3")))]))).
    { subst body. pose proof (interval_skipped_test seg) as Hs.
      destruct (fge (start_time seg) (end_time seg) || flt (duration seg) f0_5).
      - split; [reflexivity|]. left. split; [tauto | reflexivity].
      - rewrite (bind_Return (print _) _ w tt eq_refl).
        cbn [print emit result final trace].
        destruct (os_system_run E (FfmpegCut file_path (start_time seg) (duration seg)
                     (path_join mp3_folder (str_of_int (idx + 1) ++ u ".mp3"))) w)
          as (status & Hres & Htr).
        rewrite (bind_Return _ _ _ _ Hres). cbn [ret result final trace].
        rewrite Htr. split; [reflexivity|]. right. split; [|reflexivity].
        intros H. apply Hs in H. discriminate. }
    destruct Hbody as [Hres Htr].
    rewrite (bind_Return _ _ _ _ Hres). cbn [result final trace].
    destruct (IH (idx + 1) (final (body w))) as (Hr & parts & Hparts & Hlen & Hall).
    split; [exact Hr|].
    exists (trace (body w) :: parts). split; [|split].
    + cbn [concat]. rewrite Hparts. reflexivity.
    + cbn [length]. rewrite Hlen. reflexivity.
    + intros [|i] s Hi.
      * cbn in Hi. injection Hi as <-. replace (idx + Z.of_nat 0 + 1) with (idx + 1) by lia.
        cbn [lookup list_lookup]. destruct Htr as [[Hs ->]|[Hs ->]]; split; intros; tauto || reflexivity.
      * cbn in Hi. specialize (Hall i s Hi).
        replace (idx + Z.of_nat (S i) + 1) with (idx + 1 + Z.of_nat i + 1) by lia.
        exact Hall.
Qed.

(** C2, as the code has it.  When the sample positions of the detected
    intervals, divided by 16000, are all within the range of binary64,
    every interval contributes its own stretch of the run of the loop of
    [split_audio], in detection order: an interval whose start time is not
    before its end time, or that lasts less than 0.5 s, is only logged as
    skipped (no cut command, so no segment file); every other interval
    starts the cut command exactly once, with its start time and duration.
    The loop then runs to its end. *)
Theorem split_loop_one_cut_per_kept_interval E file_path mp3_folder segs w :
  Forall in_range segs ->
  let total := Z.of_nat (length segs) in
  let r := split_loop E file_path mp3_folder total 0 segs w in
  result r = Return tt /\
  exists parts : list (list event),
    trace r = concat parts /\
    length parts = length segs /\
    forall (i : nat) (s : segment), segs !! i = Some s ->
      (interval_skipped s ->
         parts !! i = Some [Printed (MsgSkipped (Z.of_nat i + 1))]) /\
      (~ interval_skipped s ->
         exists dst,
           parts !! i = Some [Printed (MsgCutting (Z.of_nat i + 1) total);
                              Spawned (FfmpegCut file_path (start_time s) (duration s) dst)]).
Proof.
  intros Hrange total r.
  destruct (split_loop_parts E file_path mp3_folder total segs Hrange 0 w)
    as (Hres & parts & Htrace & Hlen & Hall).
  split; [exact Hres|]. exists parts. repeat split; try assumption.
  - intros Hs. apply (Hall i s H) in Hs. exact Hs.
  - intros Hs. apply (Hall i s H) in Hs. eexists. exact Hs.
Qed.

Lemma elem_of_concat {A} (x : A) (ls : list (list A)) :
  x ∈ concat ls <-> exists (i : nat) l, ls !! i = Some l /\ x ∈ l.
Proof.
  induction ls as [|l ls IH]; simpl.
  - split; [intros H; inversion H | intros (i & l & H & _); rewrite lookup_nil in H; discriminate].
  - rewrite elem_of_app, IH. split.
    + intros [H|(i & l' & H & Hx)]; [exists 0%nat, l; auto | exists (S i), l'; auto].
    + intros ([|i] & l' & H & Hx); simpl in H; [injection H as ->; auto | right; eauto].
Qed.

Lemma interval_skipped_dec s : interval_skipped s \/ ~ interval_skipped s.
Proof.
  rewrite interval_skipped_test.
  destruct (fge (start_time s) (end_time s) || flt (duration s) f0_5); auto.
Qed.

(** C8, as the code has it.  When the sample positions of the detected
    intervals, divided by 16000, are all within the range of binary64, the
    cut command of a retained interval at 0-based detection position [i]
    writes the file "<i+1>.mp3" of the MP3 folder; every cut command of
    the run is the one of such an interval; the file numbered for a
    skipped interval is never written; and different positions have
    different file names.  So skipped intervals leave gaps in the numbering
    and later segments keep their detection ordinal. *)
Theorem segment_files_named_by_detection_ordinal E file_path mp3_folder segs w :
  Forall in_range segs ->
  let total := Z.of_nat (length segs) in
  let r := split_loop E file_path mp3_folder total 0 segs w in
  let segment_file (i : nat) :=
    path_join mp3_folder (str_of_int (Z.of_nat i + 1) ++ u ".mp3") in
  (forall (i : nat) s, segs !! i = Some s -> ~ interval_skipped s ->
     Spawned (FfmpegCut file_path (start_time s) (duration s) (segment_file i))
       ∈ trace r) /\
  (forall src ss t dst, Spawned (FfmpegCut src ss t dst) ∈ trace r ->
     exists (i : nat) s, segs !! i = Some s /\ ~ interval_skipped s /\
       dst = segment_file i /\ src = file_path /\
       ss = start_time s /\ t = duration s) /\
  (forall (i : nat) s, segs !! i = Some s -> interval_skipped s ->
     forall src ss t, Spawned (FfmpegCut src ss t (segment_file i)) ∉ trace r) /\
  (forall i j : nat, segment_file i = segment_file j -> i = j).
Proof.
  intros Hrange total r segment_file.
  destruct (split_loop_parts E file_path mp3_folder total segs Hrange 0 w)
    as (_ & parts & Htrace & Hlen & Hall).
  fold r in Htrace.
  assert (Hinj : forall i j : nat, segment_file i = segment_file j -> i = j).
  { intros i j H. apply segment_file_inj in H. lia. }
  assert (Hfrom : forall src ss t dst, Spawned (FfmpegCut src ss t dst) ∈ trace r ->
     exists (i : nat) s, segs !! i = Some s /\ ~ interval_skipped s /\
       dst = segment_file i /\ src = file_path /\
       ss = start_time s /\ t = duration s).
  { intros src ss t dst Hin. rewrite Htrace in Hin.
    apply elem_of_concat in Hin as (i & part & Hpart & Hin).
    assert (Hi : (i < length segs)%nat).
    { rewrite <- Hlen. eapply lookup_lt_Some, Hpart. }
    destruct (lookup_lt_is_Some_2 segs i Hi) as [s Hs].
    destruct (Hall i s Hs) as [Hskip Hkeep].
    destruct (interval_skipped_dec s) as [Hd|Hd].
    - rewrite (Hskip Hd) in Hpart. injection Hpart as <-.
      apply list_elem_of_singleton in Hin. discriminate.
    - rewrite (Hkeep Hd) in Hpart. injection Hpart as <-.
      apply elem_of_cons in Hin as [Hin|Hin]; [discriminate|].
      apply list_elem_of_singleton in Hin. injection Hin as -> -> -> ->.
      exists i, s. repeat split; assumption || reflexivity. }
  repeat split.
  - intros i s Hs Hkeep. rewrite Htrace. apply elem_of_concat.
    destruct (Hall i s Hs) as [_ H]. specialize (H Hkeep).
    eexists i, _. split; [exact H|].
    apply elem_of_cons; right. apply list_elem_of_singleton.
    unfold segment_file. reflexivity.
  - exact Hfrom.
  - intros i s Hs Hskip src ss t Hin.
    apply Hfrom in Hin as (j & s' & Hs' & Hkeep & Hname & _).
    apply Hinj in Hname as ->. congruence.
  - exact Hinj.
Qed.

(** C10, as the code has it.  For an interval whose start sample is
    negative and whose two sample positions, divided by 16000, are within
    the range of binary64, lines 273-275 compute the start time 0 (the
    clamp), the end time [end / 16000] and a duration that is this end
    time itself; the test of line 276 lets the interval through exactly
    when that end time is at least 0.5 and greater than 0. *)
Theorem negative_start_is_clamped (s : segment) :
  seg_start s < 0 ->
  in_range s ->
  (forall w, segment_times s w
             = Run (Return (fzero, quotient (seg_end s) 16000, quotient (seg_end s) 16000))
                   w []) /\
  start_time s = fzero /\
  duration s = quotient (seg_end s) 16000 /\
  (fge (start_time s) (end_time s) || flt (duration s) f0_5
   = negb (fle f0_5 (quotient (seg_end s) 16000) && flt fzero (quotient (seg_end s) 16000))) /\
  (~ interval_skipped s <->
   fle f0_5 (quotient (seg_end s) 16000) = true /\ flt fzero (quotient (seg_end s) 16000) = true).
Proof.
  intros Hneg Hrange.
  assert (Hstart : start_time s = fzero).
  { unfold start_time. apply max0_negative.
    pose proof (quotient_signed (seg_start s) 16000) as H.
    replace (seg_start s <? 0) with true in H by (symmetry; apply Z.ltb_lt, Hneg).
    apply H; lia. }
  assert (Hdur : duration s = quotient (seg_end s) 16000).
  { unfold duration. rewrite Hstart. apply fsub_fzero. }
  assert (Htest : fge (start_time s) (end_time s) || flt (duration s) f0_5
   = negb (fle f0_5 (quotient (seg_end s) 16000) && flt fzero (quotient (seg_end s) 16000))).
  { rewrite Hdur, Hstart. unfold end_time, fge. fold (fle (quotient (seg_end s) 16000) fzero).
    pose proof (quotient_not_nan (seg_end s) 16000 ltac:(lia)) as Hn.
    rewrite <- (not_fle_flt (quotient (seg_end s) 16000) fzero Hn) by discriminate.
    rewrite <- (not_flt_fle (quotient (seg_end s) 16000) f0_5 Hn) by discriminate.
    rewrite <- negb_orb, negb_involutive. apply orb_comm. }
  split.
  { intros w. rewrite (segment_times_in_range s w Hrange), Hstart, Hdur. reflexivity. }
  split; [exact Hstart|]. split; [exact Hdur|]. split; [exact Htest|].
  rewrite interval_skipped_test, Htest. split.
  - intros Hkeep.
    destruct (fle f0_5 _); [|elim Hkeep; reflexivity].
    destruct (flt fzero _); [auto | elim Hkeep; reflexivity].
  - intros [H1 H2]. rewrite H1, H2. simpl. discriminate.
Qed.

(** ** The converter *)

Lemma rpartition_Some c s h r :
  rpartition c s = Some (h, r) -> s = h ++ c :: r /\ c ∉ r.
Proof.
  revert h r; induction s as [|x t IH]; intros h r; simpl; [discriminate|].
  destruct (rpartition c t) as [[h' r']|] eqn:Ht.
  - intros [= <- <-]. destruct (IH h' r' eq_refl) as [-> Hr]. auto.
  - destruct (N.eqb_spec x c) as [->|]; [|discriminate].
    intros [= <- <-]. split; [reflexivity|].
    clear IH. revert Ht. induction t as [|y t IHt]; simpl; intros Ht.
    + apply not_elem_of_nil.
    + destruct (rpartition c t) as [[]|]; [discriminate|].
      destruct (N.eqb_spec y c); [discriminate|].
      apply not_elem_of_cons. auto.
Qed.

Lemma rpartition_None c s : rpartition c s = None -> c ∉ s.
Proof.
  induction s as [|y t IHt]; simpl; intros Ht.
  - apply not_elem_of_nil.
  - destruct (rpartition c t) as [[]|]; [discriminate|].
    destruct (N.eqb_spec y c); [discriminate|].
    apply not_elem_of_cons. auto.
Qed.

Lemma endswith_lower_iff p :
  endswith (lower p) (u ".mp3") = true <-> has_mp3_extension p.
Proof.
  unfold endswith, has_mp3_extension. rewrite bool_decide_eq_true. split.
  - intros [k Hk]. unfold lower in Hk.
    apply fmap_app_inv in Hk as (stem & ext & _ & Hext & ->).
    exists stem, ext. auto.
  - intros (stem & ext & -> & Hext). unfold lower in *.
    rewrite fmap_app, Hext. eexists. reflexivity.
Qed.

Lemma convert_to_mp3_already E file_path w :
  endswith (lower file_path) (u ".mp3") = true ->
  convert_to_mp3 E file_path w
  = Run (Return file_path) w [Printed (MsgAlreadyMp3 file_path)].
Proof. intros H. unfold convert_to_mp3. rewrite H. reflexivity. Qed.

(** What [convert_to_mp3] does with a path that is not yet an MP3. *)
Lemma convert_to_mp3_encode E file_path w :
  endswith (lower file_path) (u ".mp3") = false ->
  let output_mp3 := item0 (rsplit1 DOT file_path) ++ u ".mp3" in
  let r := convert_to_mp3 E file_path w in
  (result r = Return output_mp3 /\
   trace r = [Printed (MsgConverting file_path output_mp3);
              Spawned (FfmpegEncode file_path output_mp3)])
  \/
  (result r = SysExit 1 /\
   trace r = [Printed (MsgConverting file_path output_mp3);
              Spawned (FfmpegEncode file_path output_mp3);
              Printed (MsgConvertFailed output_mp3)]).
Proof.
  intros H output_mp3 r. subst r. unfold convert_to_mp3. rewrite H.
  fold output_mp3.
  unfold bind, print, emit, os_system, get_files, set_files, path_exists, ret, sys_exit; simpl.
  destruct (spawn E (FfmpegEncode file_path output_mp3) (files w)) as [[[st out] fs']|];
    simpl.
  - destruct (bool_decide (is_Some (fs' !! output_mp3))); simpl; auto.
  - destruct (bool_decide (is_Some (files w !! output_mp3))); simpl; auto.
Qed.

(** C3. A path that already ends in ".mp3" (in any case) is returned as it
    is: the state is unchanged and the run consists of one console line, so
    the encoder is not started.  Whatever path a call of the converter
    returns, a second call on that path returns it unchanged in the same
    way. *)
Theorem convert_to_mp3_idempotent E file_path w :
  endswith (lower file_path) (u ".mp3") = true ->
  convert_to_mp3 E file_path w
    = Run (Return file_path) w [Printed (MsgAlreadyMp3 file_path)] /\
  List.filter is_encoder_run (trace (convert_to_mp3 E file_path w)) = [] /\
  forall p w0 out,
    result (convert_to_mp3 E p w0) = Return out ->
    forall w1,
      convert_to_mp3 E out w1 = Run (Return out) w1 [Printed (MsgAlreadyMp3 out)].
Proof.
  intros H. rewrite (convert_to_mp3_already E file_path w H).
  split; [reflexivity|]. split; [reflexivity|].
  intros p w0 out Hout w1. apply convert_to_mp3_already.
  destruct (endswith (lower p) (u ".mp3")) eqn:Hp.
  - rewrite (convert_to_mp3_already E p w0 Hp) in Hout. simpl in Hout. congruence.
  - destruct (convert_to_mp3_encode E p w0 Hp) as [[Hr _]|[Hr _]];
      rewrite Hr in Hout; [|discriminate].
    injection Hout as <-. apply endswith_lower_iff.
    eexists _, (u ".mp3"). split; reflexivity.
Qed.

(** C9, as the code has it.  The check is case-insensitive: a path whose
    last four characters are ".mp3" in any letter case is returned
    unchanged and the encoder is not started.  Any other path is encoded,
    once, into the output path made of the part of the input before its
    last dot followed by ".mp3"; when the input has no dot at all, ".mp3"
    is appended to the whole input.  That output path is returned when it
    exists afterwards, otherwise the process exits with status 1. *)
Theorem convert_to_mp3_extension_check E file_path w :
  let r := convert_to_mp3 E file_path w in
  (has_mp3_extension file_path ->
     r = Run (Return file_path) w [Printed (MsgAlreadyMp3 file_path)]) /\
  (~ has_mp3_extension file_path ->
     exists output_mp3,
       ((exists stem ext, file_path = stem ++ DOT :: ext /\ (DOT ∉ ext) /\
                          output_mp3 = stem ++ u ".mp3")
        \/ ((DOT ∉ file_path) /\ output_mp3 = file_path ++ u ".mp3")) /\
       List.filter is_encoder_run (trace r) = [Spawned (FfmpegEncode file_path output_mp3)] /\
       (result r = Return output_mp3 \/ result r = SysExit 1)).
Proof.
  intros r. split.
  - intros H. apply convert_to_mp3_already, endswith_lower_iff, H.
  - intros H.
    assert (Hp : endswith (lower file_path) (u ".mp3") = false).
    { destruct (endswith (lower file_path) (u ".mp3")) eqn:Hp; [|reflexivity].
      elim H. apply endswith_lower_iff, Hp. }
    exists (item0 (rsplit1 DOT file_path) ++ u ".mp3"). split; [|split].
    + unfold rsplit1. destruct (rpartition DOT file_path) as [[h t]|] eqn:Hrp.
      * left. apply rpartition_Some in Hrp as [-> Ht]. exists h, t. auto.
      * right. apply rpartition_None in Hrp. auto.
    + destruct (convert_to_mp3_encode E file_path w Hp) as [[_ Ht]|[_ Ht]];
        subst r; rewrite Ht; reflexivity.
    + destruct (convert_to_mp3_encode E file_path w Hp) as [[Hr _]|[Hr _]]; auto.
Qed.

(** ** Text cleaning *)

Lemma lstrip_suffix s : lstrip s `suffix_of` s.
Proof.
  induction s as [|c t IH]; simpl; [done|].
  destruct (is_space c); [|done]. by apply suffix_cons_r.
Qed.

Lemma elem_of_lstrip x s : x ∈ lstrip s -> x ∈ s.
Proof. intros H. destruct (lstrip_suffix s) as [k ->]. apply elem_of_app; auto. Qed.

Lemma elem_of_strip x s : x ∈ strip s -> x ∈ s.
Proof.
  unfold strip, rstrip. rewrite elem_of_reverse. intros H.
  apply elem_of_lstrip in H. rewrite elem_of_reverse in H.
  apply elem_of_lstrip, H.
Qed.

Lemma rstrip_snoc_space l c : is_space c = true -> rstrip (l ++ [c]) = rstrip l.
Proof. intros Hc. unfold rstrip. rewrite reverse_app. simpl. rewrite Hc. reflexivity. Qed.

Lemma strip_snoc_space l c : is_space c = true -> strip (l ++ [c]) = strip l.
Proof.
  intros Hc. induction l as [|x t IH].
  - unfold strip. simpl. rewrite Hc. reflexivity.
  - unfold strip in *. rewrite <- app_comm_cons. cbn [lstrip].
    destruct (is_space x) eqn:Hx; [exact IH|].
    rewrite app_comm_cons. apply rstrip_snoc_space, Hc.
Qed.


Lemma readlines_no_LF s :
  LF ∉ s -> readlines s = match s with [] => [] | _ => [s] end.
Proof.
  induction s as [|c t IH]; intros H; simpl; [reflexivity|].
  apply not_elem_of_cons in H as [Hc Ht].
  destruct (N.eqb_spec c LF) as [->|_]; [done|].
  rewrite (IH Ht). destruct t; reflexivity.
Qed.



Lemma universal_newlines_id s : CR ∉ s -> universal_newlines s = s.
Proof.
  induction s as [|c t IH]; intros H; simpl; [reflexivity|].
  apply not_elem_of_cons in H as [Hc Ht].
  destruct (N.eqb_spec c CR) as [->|_]; [done|]. rewrite (IH Ht). reflexivity.
Qed.

Lemma universal_newlines_cons c t :
  universal_newlines (c :: t)
  = if (c =? CR)%N then
      match t with
      | d :: t' => if (d =? LF)%N then LF :: universal_newlines t'
                   else LF :: universal_newlines t
      | [] => [LF]
      end
    else c :: universal_newlines t.
Proof. reflexivity. Qed.

Lemma universal_newlines_no_CR s : CR ∉ universal_newlines s.
Proof.
  remember (length s) as n eqn:Hn. revert s Hn.
  induction n as [n IH] using lt_wf_ind. intros s Hn.
  destruct s as [|c t]; [apply not_elem_of_nil|].
  rewrite universal_newlines_cons.
  destruct (N.eqb_spec c CR) as [->|Hc].
  - destruct t as [|d t'].
    + apply not_elem_of_cons. split; [done | apply not_elem_of_nil].
    + destruct (d =? LF)%N; apply not_elem_of_cons; (split; [done|]).
      * apply (IH (length t')); [subst n; simpl; lia | reflexivity].
      * apply (IH (length (d :: t'))); [subst n; simpl; lia | reflexivity].
  - apply not_elem_of_cons. split; [congruence|].
    apply (IH (length t)); [subst n; simpl; lia | reflexivity].
Qed.


(** A line of [readlines] is made of characters of the text and has a line
    feed at its end at most. *)
Lemma readlines_lines s l :
  l ∈ readlines s ->
  (forall x, x ∈ l -> x ∈ s) /\
  (LF ∉ l \/ exists body, l = body ++ [LF] /\ LF ∉ body).
Proof.
  revert l; induction s as [|c t IH]; intros l; simpl.
  - intros H. inversion H.
  - destruct (N.eqb_spec c LF) as [->|Hc].
    + intros [->|H]%elem_of_cons.
      * split; [intros x Hx; apply elem_of_cons; left;
                apply list_elem_of_singleton in Hx; exact Hx|].
        right. exists []. split; [reflexivity | apply not_elem_of_nil].
      * destruct (IH l H) as [H1 H2]. split; [|exact H2].
        intros x Hx. apply elem_of_cons; auto.
    + destruct (readlines t) as [|l0 ls] eqn:Hr.
      * intros ->%list_elem_of_singleton. split; [intros x Hx; apply elem_of_cons;
          left; apply list_elem_of_singleton in Hx; exact Hx|].
        left. apply not_elem_of_cons. split; [congruence | apply not_elem_of_nil].
      * intros [->|H]%elem_of_cons.
        -- destruct (IH l0 ltac:(apply elem_of_cons; auto)) as [H1 H2]. split.
           ++ intros x [->|Hx]%elem_of_cons; apply elem_of_cons; auto.
           ++ destruct H2 as [H2|(body & -> & H2)].
              ** left. apply not_elem_of_cons. split; [congruence | exact H2].
              ** right. exists (c :: body). split; [reflexivity|].
                 apply not_elem_of_cons. split; [congruence | exact H2].
        -- destruct (IH l ltac:(apply elem_of_cons; auto)) as [H1 H2]. split; [|exact H2].
           intros x Hx. apply elem_of_cons; auto.
Qed.

Lemma elem_of_str_join x sep parts :
  x ∈ str_join sep parts -> x ∈ sep \/ exists p, p ∈ parts /\ x ∈ p.
Proof.
  induction parts as [|p rest IH]; simpl.
  - intros H. inversion H.
  - destruct rest as [|q rest'].
    + intros H. right. exists p. split; [apply elem_of_cons; auto | exact H].
    + rewrite !elem_of_app. intros [H|[H|H]].
      * right. exists p. split; [apply elem_of_cons; auto | exact H].
      * auto.
      * destruct (IH H) as [|(p' & Hp' & Hx)]; [auto|].
        right. exists p'. split; [apply elem_of_cons; auto | exact Hx].
Qed.

(** The text [remove_newlines_from_text] computes from the raw content. *)
Lemma cleaned_text_no_line_break raw :
  let cleaned := str_join [SPACE] (strip <$> readlines (universal_newlines raw)) in
  (LF ∉ cleaned) /\ (CR ∉ cleaned).
Proof.
  intros cleaned.
  assert (H : forall x, x ∈ cleaned -> x <> LF /\ x <> CR).
  { intros x Hx. apply elem_of_str_join in Hx as [Hx|(p & Hp & Hx)].
    - apply list_elem_of_singleton in Hx as ->. split; discriminate.
    - apply list_elem_of_fmap in Hp as (l & -> & Hl).
      apply readlines_lines in Hl as [Hsub Hend]. split.
      + intros ->. destruct Hend as [Hend|(body & -> & Hend)].
        * apply Hend, elem_of_strip, Hx.
        * rewrite strip_snoc_space in Hx by reflexivity.
          apply Hend, elem_of_strip, Hx.
      + intros ->. apply (universal_newlines_no_CR raw), Hsub, elem_of_strip, Hx. }
  split; intros Hin; apply H in Hin as [? ?]; congruence.
Qed.

Lemma write_newlines_id linesep s : LF ∉ s -> write_newlines linesep s = s.
Proof.
  unfold write_newlines. induction s as [|c t IH]; intros H; simpl; [reflexivity|].
  apply not_elem_of_cons in H as [Hc Ht].
  destruct (N.eqb_spec c LF) as [->|_]; [done|]. rewrite (IH Ht). reflexivity.
Qed.

Lemma remove_newlines_from_text_run E text_file raw w :
  files w !! text_file = Some (File raw) ->
  let cleaned := str_join [SPACE] (strip <$> readlines (universal_newlines raw)) in
  remove_newlines_from_text E text_file w
  = Run (Return tt)
        (World (<[text_file := File cleaned]> (files w)) (vad_config w))
        [Wrote text_file cleaned; Printed (MsgNewlinesRemoved text_file)].
Proof.
  intros Hf cleaned.
  unfold remove_newlines_from_text, read_text, write_text, bind, get_files, set_files,
    print, emit, ret, raise; simpl.
  rewrite Hf; simpl. rewrite Hf; simpl.
  fold cleaned. rewrite (write_newlines_id _ cleaned) by apply cleaned_text_no_line_break.
  reflexivity.
Qed.


(** ** The configuration loader *)

(** C7. When the configuration file exists but cannot be read (it is a
    directory, or [open] refuses it) or its text is not JSON, [load_config]
    logs the error, sets [vad_config] to the defaults and returns normally,
    leaving the files as they were.  The defaults are the five parameters
    500, 700, 18, 10 and 0.6 (the binary64 value nearest to 6/10). *)
Theorem load_config_defaults_on_failure E w nd :
  files w !! resource_path E CONFIG_FILE = Some nd ->
  (forall text, nd = File text -> json_load E text = None) ->
  (exists e,
     load_config E w
     = Run (Return tt) (World (files w) DEFAULT_CONFIG)
           [Printed (MsgConfigLoadError e); Printed (MsgCurrentVadConfig DEFAULT_CONFIG)]) /\
  DEFAULT_CONFIG
  = JDict [ (u "min_speech_duration_ms", JInt 500);
            (u "min_silence_duration_ms", JInt 700);
            (u "max_speech_duration_s", JInt 18);
            (u "speech_pad_ms", JInt 10);
            (u "threshold", JFloat (quotient 6 10)) ].
Proof.
  intros Hnd Hbad. split; [|reflexivity].
  unfold load_config, try_except, read_text, path_exists, bind, get_files,
    set_vad_config, get_vad_config, print, emit, ret, raise; simpl.
  destruct nd as [|text|]; repeat (rewrite Hnd; simpl).
  - eexists. reflexivity.
  - rewrite (Hbad text eq_refl); simpl. eexists. reflexivity.
  - eexists. reflexivity.
Qed.

(** ** The transcriber *)

Lemma transcribe_one_missing E text_folder file w :
  files w !! (file ++ u ".txt") = None ->
  transcribe_one E text_folder file w
  = Run (Return tt) w [Printed (MsgTxtMissing (file ++ u ".txt"))].
Proof.
  intros H. unfold transcribe_one.
  rewrite (bind_pure (path_exists _) _ w false w)
    by (unfold path_exists; rewrite (bind_pure get_files _ w (files w) w eq_refl), H;
        reflexivity).
  reflexivity.
Qed.

(** A move onto a path that is no directory, with the directory of that
    path in place. *)
Lemma shutil_move_onto src dst nd w :
  files w !! src = Some nd ->
  files w !! dst <> Some Dir ->
  dirname dst = [] \/ files w !! dirname dst = Some Dir ->
  shutil_move src dst w
  = Run (Return tt) (World (<[dst := nd]> (delete src (files w))) (vad_config w))
        [Moved src dst].
Proof.
  intros Hsrc Hdst Hparent. unfold shutil_move.
  rewrite (bind_pure get_files _ w (files w) w eq_refl), Hsrc.
  assert (Hready : (if bool_decide (dirname dst = []) then Some Dir
                    else files w !! dirname dst) = Some Dir).
  { destruct (bool_decide (dirname dst = [])) eqn:Hd; [reflexivity|].
    destruct Hparent as [Hp|Hp]; [|exact Hp].
    apply bool_decide_eq_false_1 in Hd. contradiction. }
  destruct (files w !! dst) as [[| |]|]; [elim Hdst; reflexivity | | |];
    rewrite Hready; reflexivity.
Qed.

(** The same move when that directory is missing. *)
Lemma shutil_move_no_directory src dst nd w :
  files w !! src = Some nd ->
  files w !! dst = None ->
  dirname dst <> [] ->
  files w !! dirname dst = None ->
  shutil_move src dst w = Run (Raise (FileNotFoundError dst)) w [].
Proof.
  intros Hsrc Hdst Hname Hparent. unfold shutil_move.
  rewrite (bind_pure get_files _ w (files w) w eq_refl), Hsrc, Hdst.
  rewrite (bool_decide_eq_false_2 _ Hname), Hparent. reflexivity.
Qed.

Lemma transcribe_one_present E text_folder file raw w :
  let txt_file := file ++ u ".txt" in
  let new_location := path_join text_folder (basename txt_file) in
  let cleaned := str_join [SPACE] (strip <$> readlines (universal_newlines raw)) in
  files w !! txt_file = Some (File raw) ->
  files w !! new_location <> Some Dir ->
  dirname new_location = [] \/ files w !! dirname new_location = Some Dir ->
  transcribe_one E text_folder file w
  = Run (Return tt)
        (World (<[new_location := File cleaned]>
                  (delete txt_file (<[txt_file := File cleaned]> (files w))))
               (vad_config w))
        [Wrote txt_file cleaned; Printed (MsgNewlinesRemoved txt_file);
         Moved txt_file new_location;
         Printed (MsgTranscribed (basename file) new_location)].
Proof.
  intros txt_file new_location cleaned H Hdst Hparent.
  unfold transcribe_one. fold txt_file. fold new_location.
  rewrite (bind_pure (path_exists txt_file) _ w true w)
    by (unfold path_exists; rewrite (bind_pure get_files _ w (files w) w eq_refl), H;
        reflexivity).
  pose proof (remove_newlines_from_text_run E txt_file raw w H) as Hrun.
  cbn zeta in Hrun. fold cleaned in Hrun.
  rewrite (bind_run_Return _ _ w tt _ _ Hrun).
  set (w1 := World (<[txt_file := File cleaned]> (files w)) (vad_config w)).
  assert (Hmove : shutil_move txt_file new_location w1
                  = Run (Return tt)
                        (World (<[new_location := File cleaned]>
                                  (delete txt_file (files w1))) (vad_config w1))
                        [Moved txt_file new_location]).
  { apply shutil_move_onto; cbn [w1 files].
    - apply lookup_insert_eq.
    - destruct (decide (new_location = txt_file)) as [->|Hne].
      + rewrite lookup_insert_eq. discriminate.
      + rewrite lookup_insert_ne by congruence. exact Hdst.
    - destruct Hparent as [Hp|Hp]; [left; exact Hp | right].
      rewrite lookup_insert_ne; [exact Hp|].
      intros Heq. rewrite <- Heq, H in Hp. discriminate. }
  rewrite (bind_run_Return _ _ w1 tt _ _ Hmove). reflexivity.
Qed.

(** A transcript that is there but is no readable text file ends the loop
    where it stands. *)
Lemma transcribe_loop_unreadable E text_folder f rest w :
  let txt_file := f ++ u ".txt" in
  files w !! txt_file = Some Dir \/ files w !! txt_file = Some Unreadable ->
  exists e, transcribe_loop E text_folder (f :: rest) w = Run (Raise e) w [] /\
            (e = IsADirectoryError txt_file \/ e = PermissionError txt_file).
Proof.
  intros txt_file Hbad.
  assert (Hread : exists e, read_text txt_file w = Run (Raise e) w [] /\
                            (e = IsADirectoryError txt_file \/ e = PermissionError txt_file)).
  { unfold read_text. rewrite (bind_pure get_files _ w (files w) w eq_refl).
    destruct Hbad as [Hbad|Hbad]; rewrite Hbad; eexists; split; eauto. }
  destruct Hread as (e & Hread & He). exists e. split; [|exact He].
  cbn [transcribe_loop]. apply bind_run_Raise.
  unfold transcribe_one. fold txt_file.
  rewrite (bind_pure (path_exists txt_file) _ w true w).
  - apply bind_run_Raise. unfold remove_newlines_from_text.
    apply bind_run_Raise, Hread.
  - unfold path_exists. rewrite (bind_pure get_files _ w (files w) w eq_refl).
    destruct Hbad as [Hbad|Hbad]; rewrite Hbad; reflexivity.
Qed.

(** So does a destination whose directory is missing: the transcript is
    cleaned in place and stays there. *)
Lemma transcribe_loop_no_directory E text_folder f rest raw w :
  let txt_file := f ++ u ".txt" in
  let new_location := path_join text_folder (basename txt_file) in
  let cleaned := str_join [SPACE] (strip <$> readlines (universal_newlines raw)) in
  files w !! txt_file = Some (File raw) ->
  files w !! new_location = None ->
  dirname new_location <> [] ->
  files w !! dirname new_location = None ->
  transcribe_loop E text_folder (f :: rest) w
  = Run (Raise (FileNotFoundError new_location))
        (World (<[txt_file := File cleaned]> (files w)) (vad_config w))
        [Wrote txt_file cleaned; Printed (MsgNewlinesRemoved txt_file)].
Proof.
  intros txt_file new_location cleaned H Hdst Hname Hparent.
  cbn [transcribe_loop]. apply bind_run_Raise.
  unfold transcribe_one. fold txt_file. fold new_location.
  rewrite (bind_pure (path_exists txt_file) _ w true w)
    by (unfold path_exists; rewrite (bind_pure get_files _ w (files w) w eq_refl), H;
        reflexivity).
  pose proof (remove_newlines_from_text_run E txt_file raw w H) as Hrun.
  cbn zeta in Hrun. fold cleaned in Hrun.
  rewrite (bind_run_Return _ _ w tt _ _ Hrun).
  set (w1 := World (<[txt_file := File cleaned]> (files w)) (vad_config w)).
  assert (Hne : forall p, files w !! p = None -> p <> txt_file)
    by (intros p Hp ->; rewrite H in Hp; discriminate).
  rewrite (bind_run_Raise _ _ w1 (FileNotFoundError new_location) w1 []).
  - rewrite app_nil_r. reflexivity.
  - apply (shutil_move_no_directory _ _ (File cleaned)); cbn [w1 files].
    + apply lookup_insert_eq.
    + rewrite lookup_insert_ne by (intros Heq; exact (Hne _ Hdst (eq_sym Heq))).
      exact Hdst.
    + exact Hname.
    + rewrite lookup_insert_ne by (intros Heq; exact (Hne _ Hparent (eq_sym Heq))).
      exact Hparent.
Qed.

(** *** The folders of the pipeline *)

Lemma rpartition_last c h r : c ∉ r -> rpartition c (h ++ c :: r) = Some (h, r).
Proof.
  intros Hr.
  assert (Hnone : rpartition c r = None).
  { destruct (rpartition c r) as [[h' r']|] eqn:H; [|reflexivity].
    apply rpartition_Some in H as [-> _]. elim Hr.
    apply elem_of_app. right. apply elem_of_cons. auto. }
  induction h as [|x h IH]; simpl.
  - rewrite Hnone, N.eqb_refl. reflexivity.
  - rewrite IH. reflexivity.
Qed.

Lemma rpartition_absent c s : c ∉ s -> rpartition c s = None.
Proof.
  intros Hs. destruct (rpartition c s) as [[h r]|] eqn:H; [|reflexivity].
  apply rpartition_Some in H as [-> _]. elim Hs.
  apply elem_of_app. right. apply elem_of_cons. auto.
Qed.

(** What [path_join d] puts in front of a relative name: [d] as a directory
    prefix, empty or ending in a slash. *)
Lemma path_join_relative d n :
  startswith n [SLASH] = false -> path_join d n = path_join d [] ++ n.
Proof.
  intros Hn. unfold path_join. rewrite Hn.
  replace (startswith [] [SLASH]) with false by reflexivity.
  destruct (bool_decide (d = []) || endswith d [SLASH]).
  - rewrite app_nil_r. reflexivity.
  - rewrite <- app_assoc. reflexivity.
Qed.

Lemma path_join_empty_shape d : path_join d [] = [] \/ exists k, path_join d [] = k ++ [SLASH].
Proof.
  unfold path_join. replace (startswith [] [SLASH]) with false by reflexivity.
  destruct (decide (d = [])) as [->|Hd]; [left; reflexivity|].
  right. rewrite bool_decide_eq_false_2 by exact Hd. simpl.
  unfold endswith. destruct (decide ([SLASH] `suffix_of` d)) as [[k ->]|Hs].
  - rewrite bool_decide_eq_true_2 by (eexists; reflexivity).
    rewrite app_nil_r. eauto.
  - rewrite bool_decide_eq_false_2 by exact Hs. eauto.
Qed.

Lemma no_slash_relative n : SLASH ∉ n -> startswith n [SLASH] = false.
Proof.
  intros Hn. apply bool_decide_eq_false. intros [k ->]. apply Hn, elem_of_cons. auto.
Qed.

(** A directory prefix followed by a name without slash splits in one way. *)
Lemma prefix_name_unique p1 n1 p2 n2 :
  (p1 = [] \/ exists k, p1 = k ++ [SLASH]) ->
  (p2 = [] \/ exists k, p2 = k ++ [SLASH]) ->
  SLASH ∉ n1 -> SLASH ∉ n2 ->
  p1 ++ n1 = p2 ++ n2 -> p1 = p2 /\ n1 = n2.
Proof.
  intros H1 H2 Hn1 Hn2 Heq.
  assert (Hpart : forall p n, (p = [] \/ exists k, p = k ++ [SLASH]) -> SLASH ∉ n ->
            rpartition SLASH (p ++ n)
            = match p with [] => None | _ => Some (removelast p, n) end).
  { intros p n [->|[k ->]] Hn.
    - apply rpartition_absent, Hn.
    - rewrite <- app_assoc. simpl. rewrite (rpartition_last SLASH k n Hn).
      rewrite removelast_last. destruct k; reflexivity. }
  pose proof (f_equal (rpartition SLASH) Heq) as Hr.
  rewrite (Hpart p1 n1 H1 Hn1), (Hpart p2 n2 H2 Hn2) in Hr.
  destruct H1 as [->|[k1 ->]], H2 as [->|[k2 ->]].
  - auto.
  - destruct k2; discriminate Hr.
  - destruct k1; discriminate Hr.
  - rewrite !removelast_last in Hr.
    assert (Some (k1, n1) = Some (k2, n2)) as [= -> ->]; [|auto].
    destruct k1, k2; exact Hr.
Qed.

Lemma basename_prefix_name p n :
  (p = [] \/ exists k, p = k ++ [SLASH]) -> SLASH ∉ n -> basename (p ++ n) = n.
Proof.
  intros [->|[k ->]] Hn; unfold basename, rfind.
  - simpl. rewrite (rpartition_absent SLASH n Hn). reflexivity.
  - rewrite <- app_assoc. simpl. rewrite (rpartition_last SLASH k n Hn).
    replace (Z.to_nat (Z.of_nat (length k) + 1)) with (length (k ++ [SLASH]))
      by (rewrite length_app; simpl; lia).
    change (k ++ SLASH :: n) with (k ++ [SLASH] ++ n). rewrite app_assoc.
    apply drop_app_length.
Qed.

(** The conditions of the loop theorem, met by the file list that
    [transcribe_audio] builds from a directory listing (distinct names
    without slash) whenever the two folders are different directories; the
    folders ".../MP3" and ".../TEXT" of [split_audio] are. *)
Lemma listed_files_do_not_collide mp3_folder text_folder names :
  path_join text_folder [] <> path_join mp3_folder [] ->
  NoDup names ->
  (forall n, n ∈ names -> SLASH ∉ n) ->
  let audio_files :=
    sorted (path_join mp3_folder <$> List.filter (fun f => endswith f (u ".mp3")) names) in
  let txt (f : pystr) := f ++ u ".txt" in
  let new_location (f : pystr) := path_join text_folder (basename (txt f)) in
  NoDup audio_files /\
  (forall f g, f ∈ audio_files -> g ∈ audio_files -> new_location f <> txt g) /\
  (forall f g, f ∈ audio_files -> g ∈ audio_files ->
     new_location f = new_location g -> f = g).
Proof.
  intros Hfolders Hnodup Hnames audio_files txt new_location.
  assert (Htxt_slash : forall n, SLASH ∉ n -> SLASH ∉ n ++ u ".txt").
  { intros n Hn H. apply elem_of_app in H as [H|H]; [auto | absurd_member H]. }
  assert (Hshape : forall f, f ∈ audio_files ->
            exists n, n ∈ names /\ f = path_join mp3_folder [] ++ n /\
                      txt f = path_join mp3_folder [] ++ (n ++ u ".txt") /\
                      new_location f = path_join text_folder [] ++ (n ++ u ".txt")).
  { intros f Hf. unfold audio_files, sorted in Hf. rewrite merge_sort_Permutation in Hf.
    apply list_elem_of_fmap in Hf as (n & -> & Hn).
    apply list_elem_of_In, filter_In in Hn as [Hn _]. apply list_elem_of_In in Hn.
    pose proof (Hnames n Hn) as Hslash.
    exists n. split; [exact Hn|].
    rewrite (path_join_relative mp3_folder n (no_slash_relative n Hslash)).
    split; [reflexivity|]. unfold new_location, txt. rewrite <- app_assoc.
    split; [reflexivity|].
    rewrite (basename_prefix_name _ _ (path_join_empty_shape mp3_folder) (Htxt_slash n Hslash)).
    apply path_join_relative, no_slash_relative, Htxt_slash, Hslash. }
  split; [|split].
  - unfold audio_files, sorted. rewrite merge_sort_Permutation.
    apply NoDup_fmap_2_strong.
    + intros a b Ha Hb Heq.
      apply list_elem_of_In, filter_In in Ha as [Ha _]. apply list_elem_of_In in Ha.
      apply list_elem_of_In, filter_In in Hb as [Hb _]. apply list_elem_of_In in Hb.
      rewrite (path_join_relative mp3_folder a), (path_join_relative mp3_folder b) in Heq
        by (apply no_slash_relative, Hnames; assumption).
      eapply app_inv_head, Heq.
    + apply NoDup_ListNoDup, List.NoDup_filter, NoDup_ListNoDup, Hnodup.
  - intros f g Hf Hg Heq.
    destruct (Hshape f Hf) as (n & Hn & _ & _ & Hnew).
    destruct (Hshape g Hg) as (m & Hm & _ & Htxt & _).
    rewrite Hnew, Htxt in Heq.
    apply prefix_name_unique in Heq as [Heq _];
      auto using path_join_empty_shape.
  - intros f g Hf Hg Heq.
    destruct (Hshape f Hf) as (n & Hn & -> & _ & Hnew).
    destruct (Hshape g Hg) as (m & Hm & -> & _ & Hnew').
    rewrite Hnew, Hnew' in Heq. apply app_inv_head, app_inv_tail in Heq. congruence.
Qed.

Lemma split_audio_folders_differ output_folder :
  path_join (path_join output_folder (u "TEXT")) []
  <> path_join (path_join output_folder (u "MP3")) [].
Proof.
  assert (Hrel : forall name, startswith name [SLASH] = false -> SLASH ∉ name ->
            last name <> Some SLASH -> name <> [] ->
            path_join (path_join output_folder name) []
            = path_join output_folder [] ++ name ++ [SLASH]).
  { intros name Hn Hslash Hlast Hne.
    rewrite (path_join_relative output_folder name Hn).
    unfold path_join at 1. replace (startswith [] [SLASH]) with false by reflexivity.
    rewrite bool_decide_eq_false_2 by (intros H; apply app_eq_nil in H as [_ H]; auto).
    unfold endswith. rewrite bool_decide_eq_false_2.
    - simpl. rewrite <- app_assoc. reflexivity.
    - intros [k Hk]. apply (f_equal last) in Hk.
      rewrite last_snoc, last_app in Hk.
      destruct (last name) as [c|] eqn:Hl; [congruence|].
      apply last_None in Hl. auto. }
  rewrite (Hrel (u "TEXT")), (Hrel (u "MP3"));
    try reflexivity; try (intros H; absurd_member H); try discriminate.
  intros H. apply app_inv_head in H. discriminate H.
Qed.

Lemma basename_no_slash p : SLASH ∉ basename p.
Proof.
  unfold basename, rfind. destruct (rpartition SLASH p) as [[h r]|] eqn:Hp.
  - apply rpartition_Some in Hp as [-> Hr].
    replace (Z.to_nat (Z.of_nat (length h) + 1)) with (length (h ++ [SLASH]))
      by (rewrite length_app; simpl; lia).
    change (h ++ SLASH :: r) with (h ++ [SLASH] ++ r). rewrite app_assoc, drop_app_length.
    exact Hr.
  - apply rpartition_None in Hp. exact Hp.
Qed.

(** The directory of a name joined to a folder is that folder, when the
    folder is spelled without a trailing slash. *)
Lemma dirname_path_join folder n :
  folder <> [] -> last folder <> Some SLASH -> SLASH ∉ n ->
  dirname (path_join folder n) = folder.
Proof.
  intros Hne Hlast Hn.
  destruct (exists_last Hne) as (body & c & ->).
  rewrite last_snoc in Hlast.
  assert (Hc : (c =? SLASH)%N = false) by (apply N.eqb_neq; congruence).
  assert (Hjoin : path_join (body ++ [c]) n = (body ++ [c]) ++ SLASH :: n).
  { unfold path_join. rewrite (no_slash_relative n Hn).
    rewrite bool_decide_eq_false_2 by (intros H; apply app_eq_nil in H as [_ H]; discriminate).
    unfold endswith. rewrite bool_decide_eq_false_2; [reflexivity|].
    intros [k Hk]. apply app_inj_tail in Hk as [_ Hk]. congruence. }
  rewrite Hjoin. unfold dirname, rfind.
  rewrite (rpartition_last SLASH (body ++ [c]) n Hn).
  replace (Z.to_nat (Z.of_nat (length (body ++ [c])) + 1))
    with (length ((body ++ [c]) ++ [SLASH])) by (rewrite !length_app; simpl; lia).
  change ((body ++ [c]) ++ SLASH :: n) with ((body ++ [c]) ++ [SLASH] ++ n).
  rewrite app_assoc, take_app_length.
  rewrite !forallb_app. cbn [forallb]. rewrite Hc, andb_false_r. cbn [andb].
  unfold rstrip_slashes. rewrite !reverse_app.
  change (reverse [SLASH]) with [SLASH]. change (reverse [c]) with [c].
  cbn [app lstrip_slashes]. rewrite N.eqb_refl, Hc.
  change (c :: reverse body) with ([c] ++ reverse body).
  rewrite reverse_app, reverse_involutive. reflexivity.
Qed.

(** The loop on files that are ready for it: every transcript that is
    present is a readable text file, no directory sits at its destination,
    and the directory of that destination exists. *)
Lemma transcribe_loop_run E text_folder audio_files :
  let txt (f : pystr) := f ++ u ".txt" in
  let new_location (f : pystr) := path_join text_folder (basename (txt f)) in
  forall w,
  NoDup audio_files ->
  (forall f g, f ∈ audio_files -> g ∈ audio_files -> new_location f <> txt g) ->
  (forall f g, f ∈ audio_files -> g ∈ audio_files ->
     new_location f = new_location g -> f = g) ->
  (forall f, f ∈ audio_files ->
     files w !! txt f = None \/ exists raw, files w !! txt f = Some (File raw)) ->
  (forall f, f ∈ audio_files ->
     files w !! new_location f <> Some Dir /\
     (dirname (new_location f) = [] \/
      files w !! dirname (new_location f) = Some Dir)) ->
  let r := transcribe_loop E text_folder audio_files w in
  result r = Return tt /\
  (forall p, (forall g, g ∈ audio_files -> p <> txt g /\ p <> new_location g) ->
     files (final r) !! p = files w !! p) /\
  exists parts : list (list event),
    trace r = concat parts /\
    length parts = length audio_files /\
    forall (i : nat) f, audio_files !! i = Some f ->
      (files w !! txt f = None ->
         parts !! i = Some [Printed (MsgTxtMissing (txt f))] /\
         files (final r) !! txt f = None) /\
      (forall raw, files w !! txt f = Some (File raw) ->
         let cleaned := str_join [SPACE] (strip <$> readlines (universal_newlines raw)) in
         parts !! i = Some [Wrote (txt f) cleaned; Printed (MsgNewlinesRemoved (txt f));
                            Moved (txt f) (new_location f);
                            Printed (MsgTranscribed (basename f) (new_location f))] /\
         files (final r) !! new_location f = Some (File cleaned) /\
         files (final r) !! txt f = None).
Proof.
  intros txt new_location.
  induction audio_files as [|f rest IH]; intros w Hnodup Hpending Hdistinct Hfiles Hready r.
  - split; [reflexivity|]. split; [reflexivity|]. exists []. repeat split; try reflexivity.
    all: rewrite lookup_nil in H; discriminate.
  - apply NoDup_cons in Hnodup as [Hf Hnodup].
    assert (Hin : forall g, g ∈ rest -> g ∈ f :: rest) by (intros; apply elem_of_cons; auto).
    assert (Hf0 : f ∈ f :: rest) by (apply elem_of_cons; auto).
    assert (Htxt : forall g, g ∈ rest -> txt f <> txt g).
    { intros g Hg Heq. apply app_inv_tail in Heq. subst g. auto. }
    destruct (Hready f Hf0) as [Hdst Hparent].
    assert (Hstep : exists w1 part,
              transcribe_one E text_folder f w = Run (Return tt) w1 part /\
              (forall p, p <> txt f -> p <> new_location f ->
                 files w1 !! p = files w !! p) /\
              (files w !! txt f = None ->
                 part = [Printed (MsgTxtMissing (txt f))] /\ files w1 !! txt f = None) /\
              (forall raw, files w !! txt f = Some (File raw) ->
                 let cleaned := str_join [SPACE] (strip <$> readlines (universal_newlines raw)) in
                 part = [Wrote (txt f) cleaned; Printed (MsgNewlinesRemoved (txt f));
                         Moved (txt f) (new_location f);
                         Printed (MsgTranscribed (basename f) (new_location f))] /\
                 files w1 !! new_location f = Some (File cleaned) /\
                 files w1 !! txt f = None)).
    { destruct (Hfiles f Hf0) as [Hnone|[raw Hraw]].
      - eexists _, _. split; [apply transcribe_one_missing, Hnone|].
        split; [reflexivity|].
        split; [intros _; split; [reflexivity | exact Hnone]|].
        intros raw Hraw. rewrite Hnone in Hraw. discriminate.
      - eexists _, _.
        split; [apply (transcribe_one_present E text_folder f raw w Hraw Hdst Hparent)|].
        cbn [files]. split; [|split].
        + intros p Hp1 Hp2.
          rewrite lookup_insert_ne by (intros Heq; apply Hp2; symmetry; exact Heq).
          rewrite lookup_delete_ne by (intros Heq; apply Hp1; symmetry; exact Heq).
          rewrite lookup_insert_ne by (intros Heq; apply Hp1; symmetry; exact Heq).
          reflexivity.
        + intros Hnone. rewrite Hraw in Hnone. discriminate.
        + intros raw' Hraw'. rewrite Hraw in Hraw'. injection Hraw' as <-.
          cbn zeta. split; [reflexivity|]. split.
          * apply lookup_insert_eq.
          * rewrite lookup_insert_ne by (apply Hpending; auto). apply lookup_delete_eq. }
    destruct Hstep as (w1 & part & Hrun & Hframe1 & Hmiss & Hpres).
    assert (Hkeep_txt : forall g, g ∈ rest -> txt f <> txt g /\ txt f <> new_location g).
    { intros g Hg. split; [apply Htxt, Hg|]. intros Heq. apply (Hpending g f); auto. }
    assert (Hkeep_new : forall g, g ∈ rest ->
              new_location f <> txt g /\ new_location f <> new_location g).
    { intros g Hg. split; [apply Hpending; auto|].
      intros Heq. apply Hdistinct in Heq; auto. subst g. auto. }
    assert (Hsame : forall g, g ∈ rest -> files w1 !! txt g = files w !! txt g).
    { intros g Hg. apply Hframe1.
      - intros Heq. apply (Htxt g Hg). symmetry. exact Heq.
      - intros Heq. apply (Hpending f g); auto. }
    assert (Hnot_dir : forall p, files w !! p = Some Dir ->
              p <> txt f /\ p <> new_location f).
    { intros p Hp. split; intros ->; [|contradiction].
      destruct (Hfiles f Hf0) as [Hnone|[raw Hraw]]; congruence. }
    destruct (IH w1 Hnodup) as (Hres & Hframe & parts & Htrace & Hlen & Hall).
    { intros g h Hg Hh. apply Hpending; auto. }
    { intros g h Hg Hh. apply Hdistinct; auto. }
    { intros g Hg. rewrite (Hsame g Hg). apply Hfiles; auto. }
    { intros g Hg. destruct (Hready g (Hin g Hg)) as [Hd Hp].
      destruct (Hkeep_new g Hg) as [Hn1 Hn2]. split.
      - rewrite Hframe1; [exact Hd | | congruence].
        intros Heq. apply (Hpending g f); auto.
      - destruct Hp as [Hp|Hp]; [left; exact Hp | right].
        destruct (Hnot_dir _ Hp) as [H1 H2]. rewrite Hframe1; assumption. }
    assert (Hr : r = Run (Return tt)
                       (final (transcribe_loop E text_folder rest w1))
                       (part ++ trace (transcribe_loop E text_folder rest w1))).
    { subst r. cbn [transcribe_loop].
      rewrite (bind_run_Return _ _ w tt w1 part Hrun), Hres. reflexivity. }
    rewrite Hr. cbn [result final trace]. split; [reflexivity|]. split.
    { intros p Hp. destruct (Hp f Hf0) as [Hp1 Hp2].
      rewrite Hframe by (intros g Hg; apply Hp, Hin, Hg).
      apply Hframe1; assumption. }
    exists (part :: parts). split; [cbn [concat]; rewrite Htrace; reflexivity|].
    split; [cbn [length]; rewrite Hlen; reflexivity|].
    intros [|i] g Hg; cbn in Hg.
    + injection Hg as <-. cbn [lookup list_lookup]. split.
      * intros Hnone. destruct (Hmiss Hnone) as [-> Hw1]. split; [reflexivity|].
        rewrite (Hframe (txt f) Hkeep_txt). exact Hw1.
      * intros raw Hraw. destruct (Hpres raw Hraw) as (-> & Hnew & Hgone).
        cbn zeta. split; [reflexivity|]. split.
        -- rewrite (Hframe (new_location f) Hkeep_new). exact Hnew.
        -- rewrite (Hframe (txt f) Hkeep_txt). exact Hgone.
    + assert (Hgin : g ∈ rest) by (eapply list_elem_of_lookup_2, Hg).
      destruct (Hall i g Hg) as [Hm Hp]. rewrite (Hsame g Hgin) in Hm, Hp.
      cbn [lookup list_lookup]. split; assumption.
Qed.

(** C5, as the code has it.  The loop over the segment files, run on the
    files the transcription binary left, when the destination folder
    exists, no directory sits at a destination, every transcript that is
    present is a readable text file, and the destinations are distinct and
    none of them is a pending transcript (as [listed_files_do_not_collide]
    shows for the pipeline): the loop runs to its end and every segment
    file contributes its own stretch of the run.  A segment file whose
    ".txt" sibling is missing is logged as failed and nothing else is done
    for it; one whose sibling exists is cleaned in place and moved: at the
    end its cleaned text is at the destination and the sibling is gone. *)
Theorem transcribe_loop_skips_missing_and_moves_present E text_folder audio_files w :
  let txt (f : pystr) := f ++ u ".txt" in
  let new_location (f : pystr) := path_join text_folder (basename (txt f)) in
  NoDup audio_files ->
  (forall f g, f ∈ audio_files -> g ∈ audio_files -> new_location f <> txt g) ->
  (forall f g, f ∈ audio_files -> g ∈ audio_files ->
     new_location f = new_location g -> f = g) ->
  (forall f, f ∈ audio_files ->
     files w !! txt f = None \/ exists raw, files w !! txt f = Some (File raw)) ->
  text_folder <> [] ->
  last text_folder <> Some SLASH ->
  files w !! text_folder = Some Dir ->
  (forall f, f ∈ audio_files -> files w !! new_location f <> Some Dir) ->
  let r := transcribe_loop E text_folder audio_files w in
  result r = Return tt /\
  exists parts : list (list event),
    trace r = concat parts /\
    length parts = length audio_files /\
    forall (i : nat) f, audio_files !! i = Some f ->
      (files w !! txt f = None ->
         parts !! i = Some [Printed (MsgTxtMissing (txt f))] /\
         files (final r) !! txt f = None) /\
      (forall raw, files w !! txt f = Some (File raw) ->
         let cleaned := str_join [SPACE] (strip <$> readlines (universal_newlines raw)) in
         parts !! i = Some [Wrote (txt f) cleaned; Printed (MsgNewlinesRemoved (txt f));
                            Moved (txt f) (new_location f);
                            Printed (MsgTranscribed (basename f) (new_location f))] /\
         files (final r) !! new_location f = Some (File cleaned) /\
         files (final r) !! txt f = None).
Proof.
  intros txt new_location Hnodup Hpending Hdistinct Hfiles Hne Hlast Hfolder Hdst r.
  destruct (transcribe_loop_run E text_folder audio_files w Hnodup Hpending Hdistinct Hfiles)
    as (Hres & _ & Hparts).
  - intros f Hf. split; [apply Hdst, Hf|]. right.
    unfold new_location.
    rewrite (dirname_path_join text_folder _ Hne Hlast (basename_no_slash _)).
    exact Hfolder.
  - split; [exact Hres | exact Hparts].
Qed.

(** ** The installer *)

Lemma installer_like_ret {A} (a : A) : installer_like (ret a).
Proof. intros w. split; [constructor | discriminate]. Qed.

Lemma installer_like_raise {A} e : installer_like (@raise A e).
Proof. intros w. split; [constructor | discriminate]. Qed.

Lemma installer_like_sys_exit_1 {A} : installer_like (@sys_exit A 1).
Proof. intros w. split; [constructor | intros c [= <-]; reflexivity]. Qed.

Lemma installer_like_emit e : is_audio_event e = false -> installer_like (emit e).
Proof. intros H w. split; [repeat constructor; exact H | discriminate]. Qed.

Lemma installer_like_print m : installer_like (print m).
Proof. apply installer_like_emit. reflexivity. Qed.

Lemma installer_like_get_files : installer_like get_files.
Proof. intros w. split; [constructor | discriminate]. Qed.

Lemma installer_like_set_files fs : installer_like (set_files fs).
Proof. intros w. split; [constructor | discriminate]. Qed.

Lemma installer_like_bind {A B} (m : M A) (k : A -> M B) :
  installer_like m -> (forall a, installer_like (k a)) -> installer_like (bind m k).
Proof.
  intros Hm Hk w. destruct (Hm w) as [Ht Hc]. unfold bind.
  destruct (result (m w)) as [a|c|e] eqn:Hr; simpl.
  - destruct (Hk a (final (m w))) as [Ht' Hc']. split; [|exact Hc'].
    apply Forall_app. auto.
  - split; [exact Ht|]. intros c' [= <-]. auto.
  - split; [exact Ht | discriminate].
Qed.

Lemma installer_like_try_except {A} catches (m : M A) h :
  installer_like m -> (forall e, installer_like (h e)) ->
  installer_like (try_except catches m h).
Proof.
  intros Hm Hh w. destruct (Hm w) as [Ht Hc]. unfold try_except.
  destruct (result (m w)) as [a|c|e] eqn:Hr; simpl.
  - rewrite Hr. split; [exact Ht | discriminate].
  - rewrite Hr. split; [exact Ht|]. intros c' [= <-]. auto.
  - destruct (catches e); simpl.
    + destruct (Hh e (final (m w))) as [Ht' Hc']. split; [|exact Hc'].
      apply Forall_app. auto.
    + rewrite Hr. split; [exact Ht | discriminate].
Qed.

Lemma installer_like_if {A} (b : bool) (m1 m2 : M A) :
  installer_like m1 -> installer_like m2 -> installer_like (if b then m1 else m2).
Proof. destruct b; auto. Qed.

#[local] Hint Resolve installer_like_ret installer_like_raise installer_like_sys_exit_1
  installer_like_print installer_like_get_files installer_like_set_files
  installer_like_if : installer.
#[local] Hint Extern 2 (installer_like (bind _ _)) =>
  apply installer_like_bind; [|intros ?] : installer.
#[local] Hint Extern 2 (installer_like (try_except _ _ _)) =>
  apply installer_like_try_except; [|intros ?] : installer.
#[local] Hint Extern 2 (installer_like (emit _)) =>
  apply installer_like_emit; reflexivity : installer.
#[local] Hint Extern 3 (installer_like (match ?x with _ => _ end)) =>
  destruct x : installer.

Lemma installer_like_subprocess_run E shell c :
  is_audio_event (Spawned c) = false -> installer_like (subprocess_run E shell c).
Proof.
  intros H. unfold subprocess_run.
  apply installer_like_bind; [auto with installer | intros fs].
  apply installer_like_bind; [apply installer_like_emit, H | intros _].
  destruct (spawn E c fs) as [[[status out] fs']|]; auto 6 with installer.
Qed.

Lemma installer_like_path_exists p : installer_like (path_exists p).
Proof. unfold path_exists. auto with installer. Qed.

Lemma installer_like_path_isdir p : installer_like (path_isdir p).
Proof. unfold path_isdir. auto with installer. Qed.

Lemma installer_like_makedirs p : installer_like (makedirs p).
Proof. unfold makedirs. auto 6 with installer. Qed.

Lemma installer_like_copy2 src dst : installer_like (copy2 src dst).
Proof. unfold copy2. auto 6 with installer. Qed.

Lemma installer_like_copytree src dst : installer_like (copytree src dst).
Proof. unfold copytree. auto 6 with installer. Qed.

#[local] Hint Resolve installer_like_path_exists installer_like_path_isdir
  installer_like_makedirs installer_like_copy2 installer_like_copytree : installer.
#[local] Hint Extern 1 (installer_like (subprocess_run _ _ _)) =>
  apply installer_like_subprocess_run; reflexivity : installer.
#[local] Hint Extern 1 (installer_like (main_callback _ _)) =>
  apply installer_like_print : installer.

Lemma installer_like_copy_prebundled_files E :
  installer_like (copy_prebundled_files E main_callback).
Proof.
  unfold copy_prebundled_files, copy_prebundled. auto 12 with installer.
Qed.

Lemma installer_like_installation_process E :
  installer_like (installation_process E main_callback).
Proof.
  pose proof (installer_like_copy_prebundled_files E) as Hcopy.
  unfold installation_process, check_and_install_system_dependencies,
    download_and_build_whisper, check_whisper_cli.
  auto 20 with installer.
Qed.

(** ** The entry point *)

Lemma default_file_not_marker cwd : path_join cwd (u "Tvoice.mp3") <> marker.
Proof.
  unfold path_join.
  replace (startswith (u "Tvoice.mp3") [SLASH]) with false by (symmetry; vm_compute; reflexivity).
  destruct (bool_decide (cwd = []) || endswith cwd [SLASH]); intros H;
    apply (f_equal last) in H; rewrite last_app in H; vm_compute in H; discriminate.
Qed.

(** The first-run branch of [choose_file], case by case. *)
Lemma choose_file_first_run E w :
  filepath_given E = false ->
  files w !! marker = None ->
  let ri := installation_process E main_callback w in
  let rc := choose_file E w in
  let file_path := path_join (getcwd E) (u "Tvoice.mp3") in
  (* the installation or the write of the marker fails *)
  ((forall a, result rc <> Return a) /\ exit_status (result rc) = 1 /\
   trace rc = Printed MsgFirstRun :: trace ri /\
   ((forall ok, result ri <> Return ok) \/ ~ writable (files (final ri)) marker))
  \/
  (* the marker is written *)
  ((exists ok, result ri = Return ok) /\ writable (files (final ri)) marker /\
   files (final rc) = <[marker := File (u "installed")]> (files (final ri)) /\
   ((files (final ri) !! file_path = None /\ result rc = SysExit 1 /\
     trace rc = Printed MsgFirstRun :: trace ri
                ++ [Wrote marker (u "installed"); Printed MsgDefaultMissing])
    \/
    (is_Some (files (final ri) !! file_path) /\ result rc = Return file_path /\
     trace rc = Printed MsgFirstRun :: trace ri ++ [Wrote marker (u "installed")]))).
Proof.
  intros Hgiven Hmarker ri rc file_path.
  destruct (installer_like_installation_process E w) as [_ Hexit]. fold ri in Hexit.
  subst rc. unfold choose_file. rewrite Hgiven.
  rewrite (bind_Return (path_exists marker) _ w false)
    by (unfold path_exists, bind, get_files, ret; simpl; rewrite Hmarker; reflexivity).
  replace (final (path_exists marker w)) with w by reflexivity.
  replace (trace (path_exists marker w)) with (@nil event) by reflexivity.
  cbn [negb result final trace app].
  rewrite (bind_Return (print MsgFirstRun) _ w tt eq_refl).
  cbn [print emit result final trace app].
  destruct (result ri) as [ok|c|e] eqn:Hri.
  2:{ left. rewrite (bind_SysExit (installation_process E main_callback) _ w c Hri). cbn [result final trace exit_status].
      rewrite (Hexit c eq_refl).
      split; [intros a; discriminate|]. split; [reflexivity|]. split; [reflexivity|].
      left. intros ok. discriminate. }
  2:{ left. rewrite (bind_Raise (installation_process E main_callback) _ w e Hri). cbn [result final trace exit_status].
      split; [intros a; discriminate|]. split; [reflexivity|]. split; [reflexivity|].
      left. intros ok. discriminate. }
  rewrite (bind_Return (installation_process E main_callback) _ w ok Hri). fold ri. cbn [result final trace].
  replace (write_newlines (os_linesep E) (u "installed")) with (u "installed")
    by reflexivity.
  assert (Hnm : marker <> file_path).
  { intros H. symmetry in H. revert H. apply default_file_not_marker. }
  destruct (files (final ri) !! marker) as [[|data|]|] eqn:Hm.
  - left.
    assert (Hw : write_text marker (u "installed") (final ri)
                 = Run (Raise (IsADirectoryError marker)) (final ri) []).
    { unfold write_text, bind, get_files, raise; simpl. rewrite Hm. reflexivity. }
    rewrite (bind_Raise _ _ (final ri) _ ltac:(rewrite Hw; reflexivity)), Hw.
    cbn [result final trace exit_status]. rewrite app_nil_r.
    split; [intros a; discriminate|]. split; [reflexivity|]. split; [reflexivity|].
    right. intros [H|[data H]]; rewrite Hm in H; discriminate.
  - right.
    assert (Hw : write_text marker (u "installed") (final ri)
                 = Run (Return tt)
                       (World (<[marker := File (u "installed")]> (files (final ri)))
                              (vad_config (final ri)))
                       [Wrote marker (u "installed")]).
    { unfold write_text, bind, get_files, set_files, emit; simpl. rewrite Hm. reflexivity. }
    rewrite (bind_Return _ _ (final ri) tt ltac:(rewrite Hw; reflexivity)), Hw.
    cbn [result final trace].
    split; [eauto|]. split; [right; eauto|].
    unfold path_exists, bind, get_files, ret, print, emit, sys_exit; simpl.
    rewrite lookup_insert_ne by exact Hnm.
    unfold file_path.
    destruct (files (final ri) !! path_join (getcwd E) (u "Tvoice.mp3")) as [nd|] eqn:Hd;
      simpl.
    + split; [reflexivity|]. right. split; [eauto|]. split; reflexivity.
    + split; [reflexivity|]. left. split; [reflexivity|]. split; reflexivity.
  - left.
    assert (Hw : write_text marker (u "installed") (final ri)
                 = Run (Raise (PermissionError marker)) (final ri) []).
    { unfold write_text, bind, get_files, raise; simpl. rewrite Hm. reflexivity. }
    rewrite (bind_Raise _ _ (final ri) _ ltac:(rewrite Hw; reflexivity)), Hw.
    cbn [result final trace exit_status]. rewrite app_nil_r.
    split; [intros a; discriminate|]. split; [reflexivity|]. split; [reflexivity|].
    right. intros [H|[data H]]; rewrite Hm in H; discriminate.
  - right.
    assert (Hw : write_text marker (u "installed") (final ri)
                 = Run (Return tt)
                       (World (<[marker := File (u "installed")]> (files (final ri)))
                              (vad_config (final ri)))
                       [Wrote marker (u "installed")]).
    { unfold write_text, bind, get_files, set_files, emit; simpl. rewrite Hm. reflexivity. }
    rewrite (bind_Return _ _ (final ri) tt ltac:(rewrite Hw; reflexivity)), Hw.
    cbn [result final trace].
    split; [eauto|]. split; [left; exact Hm|].
    unfold path_exists, bind, get_files, ret, print, emit, sys_exit; simpl.
    rewrite lookup_insert_ne by exact Hnm.
    unfold file_path.
    destruct (files (final ri) !! path_join (getcwd E) (u "Tvoice.mp3")) as [nd|] eqn:Hd;
      simpl.
    + split; [reflexivity|]. right. split; [eauto|]. split; reflexivity.
    + split; [reflexivity|]. left. split; [reflexivity|]. split; reflexivity.
Qed.

Lemma main_trace_when_choice_fails E w :
  (forall a, result (choose_file E w) <> Return a) ->
  result (main E w) = match result (choose_file E w) with
                      | Return _ => Return tt
                      | SysExit c => SysExit c
                      | Raise e => Raise e
                      end /\
  final (main E w) = final (choose_file E w) /\
  trace (main E w) = trace (choose_file E w).
Proof.
  intros H. unfold main, bind.
  destruct (result (choose_file E w)) as [a|c|e]; [elim (H a); reflexivity | |];
    repeat split.
Qed.

(** C6. No usable file argument, no marker file, and no "Tvoice.mp3" in the
    working directory once the installer has run: the process ends with
    status 1 and nothing of conversion, segmentation or transcription has
    been started; the run is the installer alone, or the installer followed
    by the write of the marker and the message about the missing file.
    When the installer has completed and the marker can be written, the
    exit is the explicit [sys.exit(1)] that follows the write of the
    marker, and the marker file is in place. *)
Theorem first_run_without_default_file_exits E w :
  filepath_given E = false ->
  files w !! marker = None ->
  let ri := installation_process E main_callback w in
  files (final ri) !! path_join (getcwd E) (u "Tvoice.mp3") = None ->
  let r := main E w in
  exit_status (result r) = 1 /\
  Forall (fun e => is_audio_event e = false) (trace r) /\
  (trace r = Printed MsgFirstRun :: trace ri \/
   trace r = Printed MsgFirstRun :: trace ri
             ++ [Wrote marker (u "installed"); Printed MsgDefaultMissing]) /\
  ((exists ok, result ri = Return ok) -> writable (files (final ri)) marker ->
     result r = SysExit 1 /\
     trace r = Printed MsgFirstRun :: trace ri
               ++ [Wrote marker (u "installed"); Printed MsgDefaultMissing] /\
     files (final r) !! marker = Some (File (u "installed"))).
Proof.
  intros Hgiven Hmarker ri Hdefault r. subst ri r.
  destruct (installer_like_installation_process E w) as [Hquiet _].
  destruct (choose_file_first_run E w Hgiven Hmarker)
    as [(Hnot & Hstatus & Htrace & Hwhy)
       |(Hok & Hwr & Hfiles & [(_ & Hres & Htrace)|(Hsome & _ & _)])].
  - destruct (main_trace_when_choice_fails E w Hnot) as (Hr & Hf & Ht).
    split; [|split; [|split]].
    + rewrite Hr. destruct (result (choose_file E w)); exact Hstatus.
    + rewrite Ht, Htrace. constructor; [reflexivity | exact Hquiet].
    + left. rewrite Ht. exact Htrace.
    + intros Hok Hwr. destruct Hwhy as [Hwhy|Hwhy]; [|contradiction].
      destruct Hok as [ok Hok]. elim (Hwhy ok Hok).
  - assert (Hnot : forall a, result (choose_file E w) <> Return a)
      by (intros a; rewrite Hres; discriminate).
    destruct (main_trace_when_choice_fails E w Hnot) as (Hr & Hf & Ht).
    rewrite Hres in Hr.
    split; [rewrite Hr; reflexivity|]. split; [|split].
    + rewrite Ht, Htrace. constructor; [reflexivity|].
      apply Forall_app. split; [exact Hquiet | repeat constructor].
    + right. rewrite Ht. exact Htrace.
    + intros _ _. split; [exact Hr|]. split; [rewrite Ht; exact Htrace|].
      rewrite Hf, Hfiles. apply lookup_insert_eq.
  - rewrite Hdefault in Hsome. destruct Hsome as [? ?]. discriminate.
Qed.

(** C1, as the code has it.  When no usable file argument is given and the
    marker file is absent, the run begins with the installer, which starts
    nothing of the audio pipeline.  When the installer completes and the
    marker can be written, the marker file is written right after the
    installer, before anything else happens.  When the installation or the
    write of the marker fails, the run consists of the first-run notice and
    the installer alone: the process ends with status 1 and nothing of the
    audio pipeline is started. *)
Theorem first_run_installs_before_audio E w :
  filepath_given E = false ->
  files w !! marker = None ->
  let ri := installation_process E main_callback w in
  let r := main E w in
  Forall (fun e => is_audio_event e = false) (trace ri) /\
  ((exists rest,
      trace r = Printed MsgFirstRun :: trace ri ++ Wrote marker (u "installed") :: rest)
   \/ (trace r = Printed MsgFirstRun :: trace ri /\ exit_status (result r) = 1)) /\
  ((exists ok, result ri = Return ok) -> writable (files (final ri)) marker ->
     exists rest,
       trace r = Printed MsgFirstRun :: trace ri ++ Wrote marker (u "installed") :: rest) /\
  ((forall ok, result ri <> Return ok) \/ ~ writable (files (final ri)) marker ->
     (forall a, result r <> Return a) /\
     exit_status (result r) = 1 /\
     trace r = Printed MsgFirstRun :: trace ri /\
     Forall (fun e => is_audio_event e = false) (trace r)).
Proof.
  intros Hgiven Hmarker ri r. subst ri r.
  destruct (installer_like_installation_process E w) as [Hquiet _].
  split; [exact Hquiet|].
  destruct (choose_file_first_run E w Hgiven Hmarker)
    as [(Hnot & Hstatus & Htrace & Hwhy)
       |(Hok & Hwr & Hfiles & [(_ & Hres & Htrace)|(Hsome & Hres & Htrace)])].
  - destruct (main_trace_when_choice_fails E w Hnot) as (Hr & Hf & Ht).
    assert (Hone : exit_status (result (main E w)) = 1).
    { rewrite Hr. destruct (result (choose_file E w)); exact Hstatus. }
    split; [|split].
    + right. split; [rewrite Ht; exact Htrace | exact Hone].
    + intros [ok Hok'] Hwr. destruct Hwhy as [Hwhy|Hwhy]; [|contradiction].
      elim (Hwhy ok Hok').
    + intros _. split.
      { intros a Ha. rewrite Hr in Ha.
        destruct (result (choose_file E w)) as [p| |]; [elim (Hnot p eq_refl) | |];
          discriminate Ha. }
      split; [exact Hone|]. split; [rewrite Ht; exact Htrace|].
      rewrite Ht, Htrace. constructor; [reflexivity | exact Hquiet].
  - assert (Hnot : forall a, result (choose_file E w) <> Return a)
      by (intros a; rewrite Hres; discriminate).
    destruct (main_trace_when_choice_fails E w Hnot) as (Hr & Hf & Ht).
    assert (Hex : exists rest,
       trace (main E w)
       = Printed MsgFirstRun :: trace (installation_process E main_callback w)
         ++ Wrote marker (u "installed") :: rest).
    { exists [Printed MsgDefaultMissing]. rewrite Ht. exact Htrace. }
    split; [left; exact Hex|]. split; [intros _ _; exact Hex|].
    intros [Hfail|Hfail]; [|contradiction].
    destruct Hok as [ok Hok]. elim (Hfail ok Hok).
  - assert (Hex : exists rest,
       trace (main E w)
       = Printed MsgFirstRun :: trace (installation_process E main_callback w)
         ++ Wrote marker (u "installed") :: rest).
    { eexists. unfold main. rewrite (bind_Return _ _ w _ Hres).
      cbn [trace]. rewrite Htrace. rewrite <- app_comm_cons, <- app_assoc. reflexivity. }
    split; [left; exact Hex|]. split; [intros _ _; exact Hex|].
    intros [Hfail|Hfail]; [|contradiction].
    destruct Hok as [ok Hok]. elim (Hfail ok Hok).
Qed.

(** ** Concrete runs *)

(** C1, as stated, fails: started with a file argument while the marker is
    absent, the program processes audio without running the installer and
    without writing the marker. *)
Lemma file_argument_skips_installation :
  let E := demo_env (Some (u "talk.wav")) [Segment 0 8000] in
  let r := main E (initial_world ∅) in
  files (initial_world ∅) !! marker = None /\
  filepath_given E = true /\
  existsb is_audio_event (trace r) = true /\
  existsb is_install_event (trace r) = false /\
  existsb is_marker_write (trace r) = false /\
  files (final r) !! marker = None.
Proof. vm_compute. repeat split. Qed.

(** A first run on a machine with the binary built and "Tvoice.mp3" in
    place, and a first run on a system the installer does not support. *)
Lemma first_run_installs_before_audio_witness :
  let E := demo_env None [Segment 0 8000] in
  let w := initial_world (<[path_join (getcwd E) (u "Tvoice.mp3") := File []]> demo_built) in
  let E' := {| sys_meipass := None; getcwd := u "/Users/user";
               platform_system := u "Darwin"; platform_machine := u "arm64";
               geteuid := 501; os_linesep := [LF];
               args_filepath := None; stdin_line := None;
               spawn := demo_spawn; json_load := fun _ => None;
               os_listdir := demo_listdir; silero_vad := fun _ _ _ => Some [] |} in
  let w' := initial_world {[ path_join (getcwd E') (u "Tvoice.mp3") := File [] ]} in
  (filepath_given E = false /\
   files w !! marker = None /\
   exists rest,
     trace (main E w)
     = Printed MsgFirstRun :: trace (installation_process E main_callback w)
       ++ Wrote marker (u "installed") :: rest) /\
  (filepath_given E' = false /\
   files w' !! marker = None /\
   result (installation_process E' main_callback w') = SysExit 1 /\
   exit_status (result (main E' w')) = 1 /\
   trace (main E' w')
   = Printed MsgFirstRun :: trace (installation_process E' main_callback w') /\
   Forall (fun e => is_audio_event e = false) (trace (main E' w'))).
Proof.
  intros E w E' w'. split.
  - split; [reflexivity|]. split; [vm_compute; reflexivity|].
    apply (first_run_installs_before_audio E w).
    + reflexivity.
    + vm_compute. reflexivity.
    + eexists. vm_compute. reflexivity.
    + left. vm_compute. reflexivity.
  - assert (Hinst : result (installation_process E' main_callback w') = SysExit 1)
      by (vm_compute; reflexivity).
    split; [reflexivity|]. split; [vm_compute; reflexivity|]. split; [exact Hinst|].
    destruct (first_run_installs_before_audio E' w') as (_ & _ & _ & Hfail).
    + reflexivity.
    + vm_compute. reflexivity.
    + destruct Hfail as (_ & Hstatus & Htrace & Hquiet).
      * left. intros ok Hok. rewrite Hinst in Hok. discriminate Hok.
      * split; [exact Hstatus|]. split; [exact Htrace | exact Hquiet].
Defined.

(** "Talk.MP3" is returned as it is. *)
Lemma convert_to_mp3_idempotent_witness :
  let E := demo_env None [] in
  let w := initial_world ∅ in
  endswith (lower (u "Talk.MP3")) (u ".mp3") = true /\
  convert_to_mp3 E (u "Talk.MP3") w
  = Run (Return (u "Talk.MP3")) w [Printed (MsgAlreadyMp3 (u "Talk.MP3"))].
Proof.
  cbv zeta. split; [vm_compute; reflexivity|].
  apply (convert_to_mp3_idempotent (demo_env None []) (u "Talk.MP3") (initial_world ∅)).
  vm_compute. reflexivity.
Defined.


(** Two segment files, the transcript of the second one missing. *)
Lemma transcribe_loop_witness :
  let E := demo_env None [] in
  let audio_files := [u "m/1.mp3"; u "m/2.mp3"] in
  let w := initial_world {[ u "t" := Dir; u "m/1.mp3.txt" := File demo_transcript ]} in
  let r := transcribe_loop E (u "t") audio_files w in
  NoDup audio_files /\
  files w !! u "t" = Some Dir /\
  files w !! u "m/1.mp3.txt" = Some (File demo_transcript) /\
  files w !! u "m/2.mp3.txt" = None /\
  result r = Return tt /\
  files (final r) !! u "t/1.mp3.txt" = Some (File (u "hello world")) /\
  files (final r) !! u "m/1.mp3.txt" = None /\
  Printed (MsgTxtMissing (u "m/2.mp3.txt")) ∈ trace r.
Proof.
  cbv zeta.
  assert (Hnodup : NoDup [u "m/1.mp3"; u "m/2.mp3"]).
  { apply NoDup_cons. split; [intros H; absurd_member H|].
    apply NoDup_cons. split; [intros H; absurd_member H | apply NoDup_nil_2]. }
  split; [exact Hnodup|]. split; [vm_compute; reflexivity|].
  split; [vm_compute; reflexivity|]. split; [vm_compute; reflexivity|].
  destruct (transcribe_loop_skips_missing_and_moves_present
              (demo_env None []) (u "t") [u "m/1.mp3"; u "m/2.mp3"]
              (initial_world {[ u "t" := Dir; u "m/1.mp3.txt" := File demo_transcript ]})
              Hnodup)
    as (Hres & parts & Htrace & _ & Hall).
  - intros f g Hf Hg Heq.
    apply elem_of_cons in Hf as [->|Hf]; [|apply list_elem_of_singleton in Hf as ->];
      (apply elem_of_cons in Hg as [->|Hg]; [|apply list_elem_of_singleton in Hg as ->]);
      vm_compute in Heq; discriminate Heq.
  - intros f g Hf Hg Heq.
    apply elem_of_cons in Hf as [->|Hf]; [|apply list_elem_of_singleton in Hf as ->];
      (apply elem_of_cons in Hg as [->|Hg]; [|apply list_elem_of_singleton in Hg as ->]);
      try reflexivity; vm_compute in Heq; discriminate Heq.
  - intros f Hf.
    apply elem_of_cons in Hf as [->|Hf]; [|apply list_elem_of_singleton in Hf as ->].
    + right. exists demo_transcript. vm_compute. reflexivity.
    + left. vm_compute. reflexivity.
  - discriminate.
  - vm_compute. discriminate.
  - vm_compute. reflexivity.
  - intros f Hf.
    apply elem_of_cons in Hf as [->|Hf]; [|apply list_elem_of_singleton in Hf as ->];
      vm_compute; discriminate.
  - split; [exact Hres|].
    destruct (Hall 0%nat (u "m/1.mp3") eq_refl) as [_ H1].
    destruct (H1 demo_transcript ltac:(vm_compute; reflexivity)) as (_ & Hnew & Hgone).
    destruct (Hall 1%nat (u "m/2.mp3") eq_refl) as [H2 _].
    destruct (H2 ltac:(vm_compute; reflexivity)) as [Hpart _].
    split; [exact Hnew|]. split; [exact Hgone|].
    rewrite Htrace. apply elem_of_concat. eexists 1%nat, _. split; [exact Hpart|].
    apply list_elem_of_singleton. reflexivity.
Defined.

(** C5, as stated, fails: a text output that exists is not always cleaned
    and moved, and a failure on one file can end the batch.  With an
    unreadable first transcript the loop stops at once, and the second
    segment file, whose transcript is in order, is neither cleaned nor
    moved; without the destination folder the first transcript is cleaned
    in place, the move raises and the second file is not looked at. *)
Lemma unreadable_transcript_ends_the_batch :
  let E := demo_env None [] in
  let audio_files := [u "m/1.mp3"; u "m/2.mp3"] in
  let w := initial_world {[ u "t" := Dir; u "m/1.mp3.txt" := Unreadable;
                            u "m/2.mp3.txt" := File demo_transcript ]} in
  let w' := initial_world {[ u "m/1.mp3.txt" := File demo_transcript;
                             u "m/2.mp3.txt" := File demo_transcript ]} in
  let r := transcribe_loop E (u "t") audio_files w in
  let r' := transcribe_loop E (u "t") audio_files w' in
  r = Run (Raise (PermissionError (u "m/1.mp3.txt"))) w [] /\
  result r' = Raise (FileNotFoundError (u "t/1.mp3.txt")) /\
  trace r' = [Wrote (u "m/1.mp3.txt") (u "hello world");
              Printed (MsgNewlinesRemoved (u "m/1.mp3.txt"))] /\
  files (final r') !! u "m/1.mp3.txt" = Some (File (u "hello world")) /\
  files (final r') !! u "m/2.mp3.txt" = Some (File demo_transcript) /\
  files (final r') !! u "t/2.mp3.txt" = None.
Proof. cbv zeta. repeat split; vm_compute; reflexivity. Qed.

(** A first run with the binary built and no "Tvoice.mp3". *)
Lemma first_run_without_default_file_witness :
  let E := demo_env None [] in
  let w := initial_world demo_built in
  filepath_given E = false /\
  files w !! marker = None /\
  files (final (installation_process E main_callback w))
    !! path_join (getcwd E) (u "Tvoice.mp3") = None /\
  result (main E w) = SysExit 1 /\
  files (final (main E w)) !! marker = Some (File (u "installed")).
Proof.
  cbv zeta.
  split; [reflexivity|]. split; [vm_compute; reflexivity|]. split; [vm_compute; reflexivity|].
  destruct (first_run_without_default_file_exits (demo_env None []) (initial_world demo_built))
    as (_ & _ & _ & H).
  - reflexivity.
  - vm_compute. reflexivity.
  - vm_compute. reflexivity.
  - destruct H as (Hres & _ & Hmarker).
    + eexists. vm_compute. reflexivity.
    + left. vm_compute. reflexivity.
    + split; assumption.
Defined.

(** A configuration file whose text is not JSON. *)
Lemma load_config_defaults_witness :
  let E := demo_env None [] in
  let w := initial_world {[ resource_path E CONFIG_FILE := File (u "{min_speech") ]} in
  files w !! resource_path E CONFIG_FILE = Some (File (u "{min_speech")) /\
  json_load E (u "{min_speech") = None /\
  result (load_config E w) = Return tt /\
  vad_config (final (load_config E w)) = DEFAULT_CONFIG.
Proof.
  cbv zeta.
  assert (H : files (initial_world
                {[ resource_path (demo_env None []) CONFIG_FILE := File (u "{min_speech") ]})
              !! resource_path (demo_env None []) CONFIG_FILE
              = Some (File (u "{min_speech")))
    by apply lookup_singleton_eq.
  split; [exact H|]. split; [reflexivity|].
  destruct (load_config_defaults_on_failure (demo_env None []) _ _ H) as [[e He] _].
  - intros text _. reflexivity.
  - rewrite He. split; reflexivity.
Defined.

(** C9, as stated, fails: a path without any dot has no "part after the
    last dot" to replace; the converter appends ".mp3" to the whole path. *)
Lemma dotless_path_gets_extension_appended :
  let E := demo_env None [] in
  let r := convert_to_mp3 E (u "recording") (initial_world ∅) in
  endswith (lower (u "recording")) (u ".mp3") = false /\
  (forall stem ext, u "recording" <> stem ++ DOT :: ext) /\
  result r = Return (u "recording.mp3") /\
  trace r = [Printed (MsgConverting (u "recording") (u "recording.mp3"));
             Spawned (FfmpegEncode (u "recording") (u "recording.mp3"))].
Proof.
  cbv zeta. split; [vm_compute; reflexivity|]. split.
  - intros stem ext H.
    assert (Hin : DOT ∈ u "recording")
      by (rewrite H; apply elem_of_app; right; apply elem_of_cons; left; reflexivity).
    absurd_member Hin.
  - vm_compute. split; reflexivity.
Qed.

(** The interval (-160, 12000): 0.75 s from time 0, not 0.76 s. *)
Lemma negative_start_is_clamped_witness :
  let s := Segment (-160) 12000 in
  seg_start s < 0 /\
  in_range s /\
  segment_times s (initial_world ∅)
  = Run (Return (fzero, quotient 12000 16000, quotient 12000 16000)) (initial_world ∅) [] /\
  start_time s = fzero /\
  duration s = quotient 12000 16000 /\
  duration s <> quotient (12000 - -160) 16000 /\
  ~ interval_skipped s.
Proof.
  cbv zeta.
  assert (Hrange : in_range (Segment (-160) 12000)) by (split; vm_compute; reflexivity).
  destruct (negative_start_is_clamped (Segment (-160) 12000)) as (H0 & H1 & H2 & _ & H3).
  - simpl. lia.
  - exact Hrange.
  - split; [simpl; lia|]. split; [exact Hrange|]. split; [exact (H0 (initial_world ∅))|].
    split; [exact H1|]. split; [exact H2|].
    split; [rewrite H2; vm_compute; discriminate|].
    apply H3. vm_compute. split; reflexivity.
Defined.

(** C10, as stated, fails: for a negative start position beyond the range
    of binary64 the division of line 273 raises before anything is clamped,
    and the interval is not retained although its end time, 1.0, is at
    least 0.5 and greater than 0. *)
Lemma huge_negative_start_is_not_clamped :
  let s := Segment (- (10 ^ 400)) 16000 in
  let r := split_loop (demo_env None []) (u "talk.mp3") (u "out/MP3") 1 0 [s]
             (initial_world ∅) in
  (seg_start s <? 0) = true /\
  fle f0_5 (quotient (seg_end s) 16000) = true /\
  flt fzero (quotient (seg_end s) 16000) = true /\
  r = Run (Raise OverflowError) (initial_world ∅) [].
Proof. cbv zeta. repeat split; vm_compute; reflexivity. Qed.

(** A kept interval followed by a skipped one. *)
Lemma split_loop_one_cut_witness :
  let E := demo_env None [] in
  let segs := [Segment 0 8000; Segment 0 4000] in
  let r := split_loop E (u "talk.mp3") (u "out/MP3") 2 0 segs (initial_world ∅) in
  ~ interval_skipped (Segment 0 8000) /\
  interval_skipped (Segment 0 4000) /\
  exists dst,
    trace r = [Printed (MsgCutting 1 2);
               Spawned (FfmpegCut (u "talk.mp3") fzero f0_5 dst);
               Printed (MsgSkipped 2)].
Proof.
  cbv zeta.
  assert (Hkeep : ~ interval_skipped (Segment 0 8000))
    by (intros [H|H]; vm_compute in H; discriminate H).
  assert (Hskip : interval_skipped (Segment 0 4000))
    by (right; vm_compute; reflexivity).
  split; [exact Hkeep|]. split; [exact Hskip|].
  assert (Hrange : Forall in_range [Segment 0 8000; Segment 0 4000])
    by (repeat (apply List.Forall_cons; [split; vm_compute; reflexivity|]);
        apply List.Forall_nil).
  destruct (split_loop_one_cut_per_kept_interval (demo_env None []) (u "talk.mp3")
              (u "out/MP3") [Segment 0 8000; Segment 0 4000] (initial_world ∅) Hrange)
    as (_ & parts & Htrace & Hlen & Hall).
  destruct (Hall 0%nat _ eq_refl) as [_ H0]. destruct (H0 Hkeep) as [dst Hp0].
  destruct (Hall 1%nat _ eq_refl) as [H1 _]. specialize (H1 Hskip).
  destruct parts as [|p0 [|p1 [|p2 parts]]]; try discriminate Hlen.
  cbn in Hp0, H1. injection Hp0 as ->. injection H1 as ->.
  exists dst. exact Htrace.
Defined.

(** C2, as stated, fails: an interval whose end position is beyond the
    range of binary64 makes the division of line 274 raise, and the
    interval after it, which passes the test of line 276, gets no cut
    command. *)
Lemma overflowing_interval_stops_the_cuts :
  let segs := [Segment 0 (10 ^ 400); Segment 0 16000] in
  let r := split_loop (demo_env None []) (u "talk.mp3") (u "out/MP3") 2 0 segs
             (initial_world ∅) in
  (fge (start_time (Segment 0 16000)) (end_time (Segment 0 16000))
   || flt (duration (Segment 0 16000)) f0_5 = false) /\
  r = Run (Raise OverflowError) (initial_world ∅) [].
Proof. cbv zeta. split; vm_compute; reflexivity. Qed.

(** A skipped interval followed by a kept one: "2.mp3" is cut, "1.mp3" never. *)
Lemma segment_files_named_witness :
  let E := demo_env None [] in
  let segs := [Segment 0 4000; Segment 0 8000] in
  let r := split_loop E (u "talk.mp3") (u "out/MP3") 2 0 segs (initial_world ∅) in
  interval_skipped (Segment 0 4000) /\
  ~ interval_skipped (Segment 0 8000) /\
  Spawned (FfmpegCut (u "talk.mp3") fzero f0_5 (u "out/MP3/2.mp3")) ∈ trace r /\
  (forall src ss t, Spawned (FfmpegCut src ss t (u "out/MP3/1.mp3")) ∉ trace r).
Proof.
  cbv zeta.
  assert (Hkeep : ~ interval_skipped (Segment 0 8000))
    by (intros [H|H]; vm_compute in H; discriminate H).
  assert (Hskip : interval_skipped (Segment 0 4000))
    by (right; vm_compute; reflexivity).
  split; [exact Hskip|]. split; [exact Hkeep|].
  assert (Hrange : Forall in_range [Segment 0 4000; Segment 0 8000])
    by (repeat (apply List.Forall_cons; [split; vm_compute; reflexivity|]);
        apply List.Forall_nil).
  destruct (segment_files_named_by_detection_ordinal (demo_env None []) (u "talk.mp3")
              (u "out/MP3") [Segment 0 4000; Segment 0 8000] (initial_world ∅) Hrange)
    as (Hcut & _ & Hgap & _).
  split.
  - exact (Hcut 1%nat _ eq_refl Hkeep).
  - exact (Hgap 0%nat _ eq_refl Hskip).
Defined.

(** C8, as stated, fails: after an interval whose start position is beyond
    the range of binary64 the loop is over, and the retained interval at
    position 1 never gets its file "2.mp3". *)
Lemma file_of_a_later_interval_is_never_cut :
  let segs := [Segment (16000 * 2 ^ 1024) (16000 * 2 ^ 1024 + 16000); Segment 0 16000] in
  let r := split_loop (demo_env None []) (u "talk.mp3") (u "out/MP3") 2 0 segs
             (initial_world ∅) in
  (fge (start_time (Segment 0 16000)) (end_time (Segment 0 16000))
   || flt (duration (Segment 0 16000)) f0_5 = false) /\
  result r = Raise OverflowError /\
  existsb is_cut (trace r) = false.
Proof. cbv zeta. repeat split; vm_compute; reflexivity. Qed.

(** "Talk.Mp3" is left alone; "dir.v1/talk.wav" is encoded into "dir.v1/talk.mp3". *)
Lemma convert_to_mp3_extension_check_witness :
  let E := demo_env None [] in
  let w := initial_world ∅ in
  has_mp3_extension (u "Talk.Mp3") /\
  convert_to_mp3 E (u "Talk.Mp3") w
    = Run (Return (u "Talk.Mp3")) w [Printed (MsgAlreadyMp3 (u "Talk.Mp3"))] /\
  ~ has_mp3_extension (u "dir.v1/talk.wav") /\
  exists output_mp3,
    ((exists stem ext, u "dir.v1/talk.wav" = stem ++ DOT :: ext /\ (DOT ∉ ext) /\
                       output_mp3 = stem ++ u ".mp3")
     \/ ((DOT ∉ u "dir.v1/talk.wav") /\ output_mp3 = u "dir.v1/talk.wav" ++ u ".mp3")) /\
    output_mp3 = u "dir.v1/talk.mp3".
Proof.
  cbv zeta.
  assert (Hyes : has_mp3_extension (u "Talk.Mp3"))
    by (exists (u "Talk"), (u ".Mp3"); split; reflexivity).
  assert (Hno : ~ has_mp3_extension (u "dir.v1/talk.wav"))
    by (intros H; apply endswith_lower_iff in H; vm_compute in H; discriminate H).
  split; [exact Hyes|].
  split; [exact (proj1 (convert_to_mp3_extension_check (demo_env None []) (u "Talk.Mp3")
                          (initial_world ∅)) Hyes)|].
  split; [exact Hno|].
  destruct (proj2 (convert_to_mp3_extension_check (demo_env None []) (u "dir.v1/talk.wav")
                     (initial_world ∅)) Hno) as (out & Hshape & Henc & _).
  exists out. split; [exact Hshape|].
  vm_compute in Henc. injection Henc as <-. reflexivity.
Defined.

(** ** The scenarios of the specification *)

(** Intervals (0, 8000) and (24000, 40000) of "talk.wav" give "1.mp3" and
    "2.mp3", transcribed into "split_audio/talk/TEXT". *)
Example scenario_two_intervals :
  let E := demo_env (Some (u "talk.wav")) [Segment 0 8000; Segment 24000 40000] in
  let r := script E (initial_world ∅) in
  result r = Return tt /\
  files (final r) !! u "split_audio/talk/TEXT/1.mp3.txt" = Some (File (u "hello world")) /\
  files (final r) !! u "split_audio/talk/TEXT/2.mp3.txt" = Some (File (u "hello world")) /\
  files (final r) !! u "split_audio/talk/MP3/2.mp3" = Some (File []).
Proof. vm_compute. repeat split. Qed.

(** The interval (0, 4000) lasts 0.25 s: it is skipped and nothing is cut. *)
Example scenario_short_interval :
  let E := demo_env (Some (u "talk.wav")) [Segment 0 4000] in
  let r := script E (initial_world ∅) in
  result r = Return tt /\
  Printed (MsgSkipped 1) ∈ trace r /\
  existsb (fun e => match e with Spawned (FfmpegCut _ _ _ _) => true | _ => false end)
          (trace r) = false.
Proof.
  vm_compute. split; [reflexivity|]. split; [|reflexivity].
  repeat first [apply list_elem_of_here | apply list_elem_of_further].
Qed.

(** Binary64 rounding at the threshold: the interval (1, 8001) spans 8000
    samples, yet its computed duration is the float just below 0.5 and the
    interval is skipped, while (0, 8000) is kept. *)
Example duration_is_rounded :
  duration (Segment 1 8001) = S754_finite false 9007199254740991 (-54) /\
  interval_skipped (Segment 1 8001) /\
  ~ interval_skipped (Segment 0 8000).
Proof.
  split; [vm_compute; reflexivity|]. split.
  - right. vm_compute. reflexivity.
  - intros [H|H]; vm_compute in H; discriminate H.
Qed.

(** * Further properties of the script *)

(** ** Runs, step by step *)

Lemma try_except_run_Return {A} catches (m : M A) h w a w' t :
  m w = Run (Return a) w' t -> try_except catches m h w = Run (Return a) w' t.
Proof. intros H. unfold try_except. rewrite H. reflexivity. Qed.

Lemma try_except_run_SysExit {A} catches (m : M A) h w c w' t :
  m w = Run (SysExit c) w' t -> try_except catches m h w = Run (SysExit c) w' t.
Proof. intros H. unfold try_except. rewrite H. reflexivity. Qed.

Lemma try_except_run_Raise {A} catches (m : M A) h w e w' t :
  m w = Run (Raise e) w' t -> catches e = true ->
  try_except catches m h w = Run (result (h e w')) (final (h e w')) (t ++ trace (h e w')).
Proof. intros H Hc. unfold try_except. rewrite H. simpl. rewrite Hc. reflexivity. Qed.

Lemma try_except_run_uncaught {A} catches (m : M A) h w e w' t :
  m w = Run (Raise e) w' t -> catches e = false ->
  try_except catches m h w = Run (Raise e) w' t.
Proof. intros H Hc. unfold try_except. rewrite H. simpl. rewrite Hc. reflexivity. Qed.

Lemma path_exists_run p w :
  path_exists p w = Run (Return (bool_decide (is_Some (files w !! p)))) w [].
Proof. reflexivity. Qed.

Lemma subprocess_run_ok E shell c w out fs' :
  spawn E c (files w) = Some (0, out, fs') ->
  subprocess_run E shell c w = Run (Return tt) (World fs' (vad_config w)) [Spawned c].
Proof.
  intros H. unfold subprocess_run, bind, get_files, emit, set_files, ret; simpl.
  rewrite H. reflexivity.
Qed.

Lemma subprocess_run_failed E shell c w status out fs' :
  spawn E c (files w) = Some (status, out, fs') -> status <> 0 ->
  subprocess_run E shell c w
  = Run (Raise (CalledProcessError c status)) (World fs' (vad_config w)) [Spawned c].
Proof.
  intros H Hs. unfold subprocess_run, bind, get_files, emit, set_files, ret, raise; simpl.
  rewrite H; simpl. destruct (Z.eqb_spec status 0); [contradiction | reflexivity].
Qed.

Lemma subprocess_run_not_started E c w :
  spawn E c (files w) = None ->
  subprocess_run E false c w = Run (Raise (FileNotFoundError [])) w [Spawned c].
Proof.
  intros H. unfold subprocess_run, bind, get_files, emit, raise; simpl.
  rewrite H. reflexivity.
Qed.

Lemma os_system_status E c w :
  os_system E c w
  = match spawn E c (files w) with
    | Some (status, _, fs') => Run (Return status) (World fs' (vad_config w)) [Spawned c]
    | None => Run (Return 32512) w [Spawned c]
    end.
Proof.
  unfold os_system, bind, get_files, emit, set_files, ret; simpl.
  destruct (spawn E c (files w)) as [[[status out] fs']|]; reflexivity.
Qed.

(** ** The entry point, beyond the first run *)

(** X1. A non-empty file argument is handed to the pipeline as it is: the
    marker is not looked at, nothing is installed, and the path is not
    checked for existence (unlike a path typed at the prompt). *)
Theorem main_with_file_argument E w p :
  args_filepath E = Some p -> p <> [] ->
  choose_file E w = Run (Return p) w [] /\
  main E w = process_audio E p w.
Proof.
  intros Harg Hp.
  assert (Hgiven : filepath_given E = true).
  { unfold filepath_given. rewrite Harg. destruct p; [contradiction | reflexivity]. }
  assert (Hchoose : choose_file E = ret p).
  { unfold choose_file. rewrite Hgiven, Harg. reflexivity. }
  split.
  - rewrite Hchoose. reflexivity.
  - unfold main. rewrite Hchoose. apply bind_ret_l.
Qed.

(** A missing file given as argument reaches the encoder. *)
Lemma main_with_file_argument_witness :
  let E := demo_env (Some (u "absent.wav")) [] in
  let w := initial_world ∅ in
  args_filepath E = Some (u "absent.wav") /\
  files w !! u "absent.wav" = None /\
  main E w = process_audio E (u "absent.wav") w /\
  Spawned (FfmpegEncode (u "absent.wav") (u "absent.mp3")) ∈ trace (main E w).
Proof.
  cbv zeta. split; [reflexivity|]. split; [vm_compute; reflexivity|].
  destruct (main_with_file_argument (demo_env (Some (u "absent.wav")) [])
              (initial_world ∅) (u "absent.wav") eq_refl) as [_ H].
  - discriminate.
  - split; [exact H|]. rewrite H. vm_compute.
    repeat first [apply list_elem_of_here | apply list_elem_of_further].
Defined.

Lemma choose_file_installed E w :
  filepath_given E = false ->
  is_Some (files w !! marker) ->
  choose_file E w
  = match stdin_line E with
    | None => Run (Raise EOFError) w [Prompted]
    | Some line =>
        if bool_decide (is_Some (files w !! strip line))
        then Run (Return (strip line)) w [Prompted]
        else Run (SysExit 1) w [Prompted; Printed MsgInputMissing]
    end.
Proof.
  intros Hgiven Hmarker. unfold choose_file. rewrite Hgiven.
  rewrite (bind_Return (path_exists marker) _ w true)
    by (rewrite path_exists_run; simpl; rewrite bool_decide_eq_true_2 by exact Hmarker;
        reflexivity).
  rewrite path_exists_run. cbn [negb result final trace app].
  rewrite (bind_Return (emit Prompted) _ w tt eq_refl).
  cbn [emit result final trace].
  destruct (stdin_line E) as [line|]; [|reflexivity].
  rewrite (bind_Return (path_exists (strip line)) _ w _ eq_refl).
  rewrite path_exists_run. cbn [result final trace].
  destruct (bool_decide (is_Some (files w !! strip line))); reflexivity.
Qed.

(** X2. With the marker present and no usable argument the program prompts
    and never installs: at end of input it fails with [EOFError]; a typed
    path is stripped of surrounding white space; when nothing exists at
    the stripped path the process exits with status 1 having touched
    nothing, otherwise the pipeline runs on the stripped path. *)
Theorem main_prompts_when_installed E w :
  filepath_given E = false ->
  is_Some (files w !! marker) ->
  match stdin_line E with
  | None => main E w = Run (Raise EOFError) w [Prompted]
  | Some line =>
      let p := strip line in
      (files w !! p = None ->
         main E w = Run (SysExit 1) w [Prompted; Printed MsgInputMissing]) /\
      (is_Some (files w !! p) ->
         result (main E w) = result (process_audio E p w) /\
         final (main E w) = final (process_audio E p w) /\
         trace (main E w) = Prompted :: trace (process_audio E p w))
  end.
Proof.
  intros Hgiven Hmarker.
  pose proof (choose_file_installed E w Hgiven Hmarker) as Hc.
  unfold main. destruct (stdin_line E) as [line|].
  - cbn zeta. split.
    + intros Hnone. rewrite Hnone in Hc. simpl in Hc.
      rewrite (bind_SysExit _ _ w 1) by (rewrite Hc; reflexivity). rewrite Hc. reflexivity.
    + intros [nd' Hsome]. rewrite Hsome in Hc. simpl in Hc.
      rewrite (bind_Return _ _ w (strip line)) by (rewrite Hc; reflexivity). rewrite Hc.
      repeat split.
  - rewrite (bind_Raise _ _ w EOFError) by (rewrite Hc; reflexivity). rewrite Hc. reflexivity.
Qed.

(** A typed path with blanks around it. *)
Lemma main_prompts_when_installed_witness :
  let E := {| sys_meipass := None; getcwd := u "/home/user"; platform_system := u "Linux";
              platform_machine := u "x86_64"; geteuid := 1000; os_linesep := [LF];
              args_filepath := Some []; stdin_line := Some (u "  nothing.wav ");
              spawn := demo_spawn; json_load := fun _ => None;
              os_listdir := demo_listdir; silero_vad := fun _ _ _ => Some [] |} in
  let w := initial_world {[ marker := File (u "installed") ]} in
  filepath_given E = false /\
  is_Some (files w !! marker) /\
  strip (u "  nothing.wav ") = u "nothing.wav" /\
  main E w = Run (SysExit 1) w [Prompted; Printed MsgInputMissing].
Proof.
  cbv zeta. split; [reflexivity|].
  assert (Hm : is_Some (files (initial_world {[ marker := File (u "installed") ]}) !! marker))
    by (eexists; apply lookup_singleton_eq).
  split; [exact Hm|]. split; [vm_compute; reflexivity|].
  match goal with |- main ?E ?w = _ =>
    pose proof (main_prompts_when_installed E w eq_refl Hm) as H end.
  cbn [stdin_line] in H. apply H. vm_compute. reflexivity.
Defined.

(** ** The installer, case by case *)

Lemma check_and_install_unsupported E w :
  platform_system E <> u "Linux" ->
  check_and_install_system_dependencies E main_callback w
  = Run (SysExit 1) w [Printed MsgUnsupportedOS].
Proof.
  intros Hos. unfold check_and_install_system_dependencies.
  rewrite bool_decide_eq_false_2 by exact Hos. reflexivity.
Qed.

Lemma check_and_install_ok E w out1 fs1 out2 fs2 :
  platform_system E = u "Linux" ->
  let sudo := negb (geteuid E =? 0) in
  spawn E (AptUpdate sudo) (files w) = Some (0, out1, fs1) ->
  spawn E (AptInstall sudo) fs1 = Some (0, out2, fs2) ->
  check_and_install_system_dependencies E main_callback w
  = Run (Return tt) (World fs2 (vad_config w))
        [Printed (MsgProgress PSystemPackages 0);
         Spawned (AptUpdate sudo); Spawned (AptInstall sudo)].
Proof.
  intros Hos sudo Hupdate Hinstall. unfold check_and_install_system_dependencies.
  rewrite bool_decide_eq_true_2 by exact Hos. fold sudo.
  rewrite (bind_run_Return (main_callback PSystemPackages 0) _ w tt w _ eq_refl).
  rewrite (bind_run_Return (subprocess_run E true (AptUpdate sudo)) _ w tt _ _
             (subprocess_run_ok E true _ w out1 fs1 Hupdate)).
  rewrite (subprocess_run_ok E true (AptInstall sudo) (World fs1 (vad_config w)) out2 fs2 Hinstall).
  reflexivity.
Qed.

Lemma check_and_install_update_failed E w status out1 fs1 :
  platform_system E = u "Linux" ->
  let sudo := negb (geteuid E =? 0) in
  spawn E (AptUpdate sudo) (files w) = Some (status, out1, fs1) ->
  status <> 0 ->
  check_and_install_system_dependencies E main_callback w
  = Run (Raise (CalledProcessError (AptUpdate sudo) status)) (World fs1 (vad_config w))
        [Printed (MsgProgress PSystemPackages 0); Spawned (AptUpdate sudo)].
Proof.
  intros Hos sudo Hupdate Hstatus. unfold check_and_install_system_dependencies.
  rewrite bool_decide_eq_true_2 by exact Hos. fold sudo.
  rewrite (bind_run_Return (main_callback PSystemPackages 0) _ w tt w _ eq_refl).
  rewrite (bind_run_Raise (subprocess_run E true (AptUpdate sudo)) _ w _ _ _
             (subprocess_run_failed E true _ w status out1 fs1 Hupdate Hstatus)).
  reflexivity.
Qed.

(** X3. On a system other than Linux the installer prints the message
    about the unsupported system and leaves through [sys.exit(1)]: no
    command is started, no file is touched, and the [except Exception]
    clause of [installation_process] does not see the exit. *)
Theorem installation_on_unsupported_system E w :
  platform_system E <> u "Linux" ->
  installation_process E main_callback w
  = Run (SysExit 1) w
        [Printed (MsgProgress PCheckingSystem 0);
         Printed (MsgProgress (POsArch (platform_system E) (platform_machine E)) 5);
         Printed MsgUnsupportedOS].
Proof.
  intros Hos. unfold installation_process.
  apply try_except_run_SysExit.
  rewrite (bind_run_Return (main_callback PCheckingSystem 0) _ w tt w _ eq_refl).
  rewrite (bind_run_Return (main_callback (POsArch _ _) 5) _ w tt w _ eq_refl).
  rewrite (bind_run_SysExit (check_and_install_system_dependencies E main_callback) _ w _ _ _
             (check_and_install_unsupported E w Hos)).
  reflexivity.
Qed.

Lemma installation_on_unsupported_system_witness :
  let E := {| sys_meipass := None; getcwd := u "/Users/user";
              platform_system := u "Darwin"; platform_machine := u "arm64";
              geteuid := 501; os_linesep := [LF];
              args_filepath := None; stdin_line := None;
              spawn := demo_spawn; json_load := fun _ => None;
              os_listdir := demo_listdir; silero_vad := fun _ _ _ => Some [] |} in
  installation_process E main_callback (initial_world ∅)
  = Run (SysExit 1) (initial_world ∅)
        [Printed (MsgProgress PCheckingSystem 0);
         Printed (MsgProgress (POsArch (u "Darwin") (u "arm64")) 5);
         Printed MsgUnsupportedOS].
Proof.
  intros E. apply (installation_on_unsupported_system E (initial_world ∅)).
  intros H. vm_compute in H. discriminate H.
Defined.

(** X4. On Linux, when both package commands succeed and the transcription
    binary is there afterwards, the installer starts exactly these two
    commands, with [sudo] exactly when the effective user is not root,
    clones and builds nothing, and returns [True]. *)
Theorem installation_with_binary_present E w out1 fs1 out2 fs2 :
  platform_system E = u "Linux" ->
  let sudo := negb (geteuid E =? 0) in
  spawn E (AptUpdate sudo) (files w) = Some (0, out1, fs1) ->
  spawn E (AptInstall sudo) fs1 = Some (0, out2, fs2) ->
  is_Some (fs2 !! WHISPER_CLI E) ->
  installation_process E main_callback w
  = Run (Return true) (World fs2 (vad_config w))
        [Printed (MsgProgress PCheckingSystem 0);
         Printed (MsgProgress (POsArch (platform_system E) (platform_machine E)) 5);
         Printed (MsgProgress PSystemPackages 0);
         Spawned (AptUpdate sudo);
         Spawned (AptInstall sudo);
         Printed (MsgProgress PWhisperPresent 70);
         Printed (MsgProgress PInstallDone 100)].
Proof.
  intros Hos sudo Hupdate Hinstall Hcli. unfold installation_process.
  apply try_except_run_Return.
  rewrite (bind_run_Return (main_callback PCheckingSystem 0) _ w tt w _ eq_refl).
  rewrite (bind_run_Return (main_callback (POsArch _ _) 5) _ w tt w _ eq_refl).
  rewrite (bind_run_Return (check_and_install_system_dependencies E main_callback) _ w tt _ _
             (check_and_install_ok E w out1 fs1 out2 fs2 Hos Hupdate Hinstall)).
  unfold check_whisper_cli.
  rewrite (bind_run_Return (path_exists (WHISPER_CLI E)) _ (World fs2 (vad_config w)) true
             (World fs2 (vad_config w)) []).
  2:{ rewrite path_exists_run. cbn [files]. rewrite bool_decide_eq_true_2 by exact Hcli.
      reflexivity. }
  reflexivity.
Qed.

(** On the machine where the binary is built. *)
Lemma installation_with_binary_present_witness :
  let E := demo_env None [] in
  let w := initial_world demo_built in
  platform_system E = u "Linux" /\
  is_Some (demo_built !! WHISPER_CLI E) /\
  result (installation_process E main_callback w) = Return true /\
  List.filter is_spawn (trace (installation_process E main_callback w))
  = [Spawned (AptUpdate true); Spawned (AptInstall true)].
Proof.
  cbv zeta. split; [reflexivity|].
  assert (Hcli : is_Some (demo_built !! WHISPER_CLI (demo_env None [])))
    by (eexists; apply lookup_singleton_eq).
  split; [exact Hcli|].
  rewrite (installation_with_binary_present (demo_env None []) (initial_world demo_built)
             [] demo_built [] demo_built eq_refl eq_refl eq_refl Hcli).
  split; reflexivity.
Defined.

(** X5. When the package index update ends with a non-zero status the
    installer stops there: the install command is not started, the error
    is reported through the callback with the value 100, and the
    [CalledProcessError] is raised again. *)
Theorem installation_stops_when_update_fails E w status out1 fs1 :
  platform_system E = u "Linux" ->
  let sudo := negb (geteuid E =? 0) in
  spawn E (AptUpdate sudo) (files w) = Some (status, out1, fs1) ->
  status <> 0 ->
  let e := CalledProcessError (AptUpdate sudo) status in
  installation_process E main_callback w
  = Run (Raise e) (World fs1 (vad_config w))
        [Printed (MsgProgress PCheckingSystem 0);
         Printed (MsgProgress (POsArch (platform_system E) (platform_machine E)) 5);
         Printed (MsgProgress PSystemPackages 0);
         Spawned (AptUpdate sudo);
         Printed (MsgProgress (PError e) 100)].
Proof.
  intros Hos sudo Hupdate Hstatus e. unfold installation_process.
  match goal with |- try_except _ ?body _ _ = _ =>
    assert (Hbody : body w
              = Run (Raise e) (World fs1 (vad_config w))
                    [Printed (MsgProgress PCheckingSystem 0);
                     Printed (MsgProgress (POsArch (platform_system E) (platform_machine E)) 5);
                     Printed (MsgProgress PSystemPackages 0);
                     Spawned (AptUpdate sudo)])
  end.
  { rewrite (bind_run_Return (main_callback PCheckingSystem 0) _ w tt w _ eq_refl).
    rewrite (bind_run_Return (main_callback (POsArch _ _) 5) _ w tt w _ eq_refl).
    rewrite (bind_run_Raise (check_and_install_system_dependencies E main_callback) _ w _ _ _
               (check_and_install_update_failed E w status out1 fs1 Hos Hupdate Hstatus)).
    reflexivity. }
  rewrite (try_except_run_Raise _ _ _ _ _ _ _ Hbody eq_refl). reflexivity.
Qed.

Lemma installation_stops_when_update_fails_witness :
  let w := initial_world ∅ in
  platform_system failing_update_env = u "Linux" /\
  spawn failing_update_env (AptUpdate false) (files w) = Some (100, [], ∅) /\
  result (installation_process failing_update_env main_callback w)
  = Raise (CalledProcessError (AptUpdate false) 100) /\
  existsb (fun e => match e with Spawned (AptInstall _) => true | _ => false end)
    (trace (installation_process failing_update_env main_callback w)) = false.
Proof.
  cbv zeta. split; [reflexivity|]. split; [reflexivity|].
  rewrite (installation_stops_when_update_fails failing_update_env (initial_world ∅)
             100 [] ∅ eq_refl eq_refl); [|discriminate].
  split; reflexivity.
Defined.

Lemma bind_Return_inv {A B} (m : M A) (k : A -> M B) w b :
  result (bind m k w) = Return b ->
  exists a, result (m w) = Return a /\
            result (k a (final (m w))) = Return b /\
            final (bind m k w) = final (k a (final (m w))) /\
            trace (bind m k w) = trace (m w) ++ trace (k a (final (m w))).
Proof.
  unfold bind. destruct (result (m w)) as [a|c|e]; simpl; try discriminate.
  intros H. exists a. auto.
Qed.

Lemma never_exits_ret {A} (a : A) : never_exits (ret a).
Proof. intros w c. discriminate. Qed.

Lemma never_exits_raise {A} e : never_exits (@raise A e).
Proof. intros w c. discriminate. Qed.

Lemma never_exits_emit e : never_exits (emit e).
Proof. intros w c. discriminate. Qed.

Lemma never_exits_print m : never_exits (print m).
Proof. intros w c. discriminate. Qed.

Lemma never_exits_get_files : never_exits get_files.
Proof. intros w c. discriminate. Qed.

Lemma never_exits_set_files fs : never_exits (set_files fs).
Proof. intros w c. discriminate. Qed.

Lemma never_exits_bind {A B} (m : M A) (k : A -> M B) :
  never_exits m -> (forall a, never_exits (k a)) -> never_exits (bind m k).
Proof.
  intros Hm Hk w c. unfold bind.
  destruct (result (m w)) as [a|c'|e] eqn:Hr; simpl.
  - apply Hk.
  - elim (Hm w c' Hr).
  - discriminate.
Qed.

Lemma never_exits_try_except {A} catches (m : M A) h :
  never_exits m -> (forall e, never_exits (h e)) -> never_exits (try_except catches m h).
Proof.
  intros Hm Hh w c. unfold try_except.
  destruct (result (m w)) as [a|c'|e] eqn:Hr; simpl.
  - rewrite Hr. discriminate.
  - elim (Hm w c' Hr).
  - destruct (catches e); simpl; [apply Hh | rewrite Hr; discriminate].
Qed.

Lemma never_exits_if {A} (b : bool) (m1 m2 : M A) :
  never_exits m1 -> never_exits m2 -> never_exits (if b then m1 else m2).
Proof. destruct b; auto. Qed.

#[local] Hint Resolve never_exits_ret never_exits_raise never_exits_emit never_exits_print
  never_exits_get_files never_exits_set_files never_exits_if : noexit.
#[local] Hint Extern 2 (never_exits (bind _ _)) =>
  apply never_exits_bind; [|intros ?] : noexit.
#[local] Hint Extern 2 (never_exits (try_except _ _ _)) =>
  apply never_exits_try_except; [|intros ?] : noexit.
#[local] Hint Extern 3 (never_exits (match ?x with _ => _ end)) => destruct x : noexit.
#[local] Hint Extern 1 (never_exits (main_callback _ _)) =>
  apply never_exits_print : noexit.

Lemma never_exits_subprocess_run E shell c : never_exits (subprocess_run E shell c).
Proof.
  unfold subprocess_run.
  apply never_exits_bind; [auto with noexit | intros fs].
  apply never_exits_bind; [auto with noexit | intros _].
  destruct (spawn E c fs) as [[[status out] fs']|]; auto 6 with noexit.
Qed.

Lemma never_exits_copy_prebundled_files E :
  never_exits (copy_prebundled_files E main_callback).
Proof.
  unfold copy_prebundled_files, copy_prebundled, makedirs, copy2, copytree,
    path_exists, path_isdir.
  auto 14 with noexit.
Qed.

Lemma never_exits_download_and_build_whisper E :
  never_exits (download_and_build_whisper E main_callback).
Proof.
  pose proof (never_exits_copy_prebundled_files E) as Hcopy.
  pose proof (never_exits_subprocess_run E) as Hrun.
  unfold download_and_build_whisper, path_exists.
  auto 20 with noexit.
Qed.

(** X6. The ways an installation can end.  If [installation_process]
    returns, it returns [True] and its last report is "done" at 100.  If it
    raises, the exception was reported through the callback with the value
    100 just before.  It leaves through [sys.exit] only with status 1 and
    only on a system other than Linux: on Linux every failure is an
    exception. *)
Theorem installation_outcomes E w :
  let r := installation_process E main_callback w in
  (forall b, result r = Return b ->
     b = true /\ last (trace r) = Some (Printed (MsgProgress PInstallDone 100))) /\
  (forall e, result r = Raise e ->
     last (trace r) = Some (Printed (MsgProgress (PError e) 100))) /\
  (forall c, result r = SysExit c -> c = 1 /\ platform_system E <> u "Linux").
Proof.
  intros r. subst r.
  destruct (installer_like_installation_process E w) as [_ Hone].
  unfold installation_process in *.
  set (body := bind (main_callback PCheckingSystem 0) _) in *.
  assert (Hbody : forall b, result (body w) = Return b ->
            b = true /\ last (trace (body w)) = Some (Printed (MsgProgress PInstallDone 100))).
  { intros b Hb. subst body.
    apply bind_Return_inv in Hb as (? & _ & Hb & _ & ->).
    apply bind_Return_inv in Hb as (? & _ & Hb & _ & ->).
    apply bind_Return_inv in Hb as (? & _ & Hb & _ & ->).
    apply bind_Return_inv in Hb as (? & _ & Hb & _ & ->).
    apply bind_Return_inv in Hb as (? & _ & Hb & _ & ->).
    apply bind_Return_inv in Hb as (? & _ & Hb & _ & ->).
    cbn in Hb. injection Hb as <-. split; [reflexivity|].
    rewrite !app_assoc. cbn [main_callback print emit ret trace].
    rewrite app_nil_r. apply last_snoc. }
  assert (Hlinux : platform_system E = u "Linux" -> forall c, result (body w) <> SysExit c).
  { intros Hlinux. subst body.
    pose proof (never_exits_download_and_build_whisper E) as Hd.
    pose proof (never_exits_subprocess_run E) as Hrun.
    assert (Hne : never_exits (check_and_install_system_dependencies E main_callback)).
    { unfold check_and_install_system_dependencies.
      rewrite bool_decide_eq_true_2 by exact Hlinux. auto 10 with noexit. }
    assert (Hne' : never_exits (check_whisper_cli E)).
    { unfold check_whisper_cli, path_exists. auto with noexit. }
    apply never_exits_bind; [auto with noexit | intros _].
    apply never_exits_bind; [auto with noexit | intros _].
    apply never_exits_bind; [exact Hne | intros _].
    apply never_exits_bind; [exact Hne' | intros present].
    apply never_exits_bind; [|intros _; auto 6 with noexit].
    destruct present; simpl; auto 6 with noexit. }
  destruct (body w) as [res fin tr] eqn:Hb. cbn [result trace] in Hbody, Hlinux.
  destruct res as [b|c|e].
  - rewrite (try_except_run_Return _ _ _ _ _ _ _ Hb) in *. cbn [result trace].
    split; [|split]; [|discriminate|discriminate].
    intros b' [= <-]. apply Hbody. reflexivity.
  - rewrite (try_except_run_SysExit _ _ _ _ _ _ _ Hb) in *. cbn [result trace] in *.
    split; [discriminate|]. split; [discriminate|].
    intros c' [= <-]. split; [apply Hone; reflexivity|].
    intros Hl. exact (Hlinux Hl c eq_refl).
  - rewrite (try_except_run_Raise _ _ _ _ _ _ _ Hb eq_refl) in *.
    cbn [main_callback print emit raise bind result final trace].
    split; [discriminate|]. split; [|discriminate].
    intros e' [= <-]. rewrite app_nil_r. apply last_snoc.
Qed.

(** ** The bundled files and the build *)

Lemma bind_trace_prefix {A B} (m : M A) (k : A -> M B) w :
  exists rest, trace (bind m k w) = trace (m w) ++ rest.
Proof.
  unfold bind. destruct (result (m w)); simpl.
  - eexists. reflexivity.
  - exists []. rewrite app_nil_r. reflexivity.
  - exists []. rewrite app_nil_r. reflexivity.
Qed.

Lemma path_isdir_run p w :
  path_isdir p w
  = Run (Return (match files w !! p with Some Dir => true | _ => false end)) w [].
Proof. reflexivity. Qed.

Lemma makedirs_existing p w :
  files w !! p = Some Dir -> makedirs p w = Run (Return tt) w [].
Proof.
  intros H. unfold makedirs.
  rewrite (bind_pure get_files _ w (files w) w eq_refl), H. reflexivity.
Qed.

Lemma copy_prebundled_present src dest dir_copied dir_present file_copied file_present w :
  is_Some (files w !! dest) ->
  copy_prebundled main_callback src dest dir_copied dir_present file_copied file_present w
  = Run (Return tt) w
      [Printed (MsgProgress (match files w !! src with
                             | Some Dir => dir_present
                             | _ => file_present
                             end) 30)].
Proof.
  intros H. unfold copy_prebundled.
  rewrite (bind_pure (path_isdir src) _ w _ w (path_isdir_run src w)).
  rewrite (bind_pure (path_exists dest) _ w _ w (path_exists_run dest w)).
  rewrite (bool_decide_eq_true_2 _ H). cbn [negb].
  destruct (files w !! src) as [[| |]|]; reflexivity.
Qed.

(** X7. Bundled model files never replace what is already installed: when
    the models directory and both destinations exist,
    [copy_prebundled_files] copies nothing and leaves every file as it
    is, whatever the bundle holds; it only reports, for each of the two,
    that it is already there, as a directory or as a file according to
    what the bundle holds. *)
Theorem copy_prebundled_files_keeps_existing E w :
  let models_dir := resource_path E (u "whisper.cpp/models") in
  let bundled name := files w !! resource_path E (u "resources/" ++ name) in
  files w !! models_dir = Some Dir ->
  is_Some (files w !! path_join models_dir (u "ggml-large-v3-turbo-encoder.mlmodelc")) ->
  is_Some (files w !! path_join models_dir (u "ggml-large-v3-turbo.bin")) ->
  copy_prebundled_files E main_callback w
  = Run (Return tt) w
      [Printed (MsgProgress
                  (match bundled (u "ggml-large-v3-turbo-encoder.mlmodelc") with
                   | Some Dir => PEncoderDirPresent
                   | _ => PEncoderFilePresent
                   end) 30);
       Printed (MsgProgress
                  (match bundled (u "ggml-large-v3-turbo.bin") with
                   | Some Dir => PModelDirPresent
                   | _ => PModelFilePresent
                   end) 30)].
Proof.
  intros models_dir bundled Hdir Henc Hmodel. subst bundled. cbv beta.
  unfold copy_prebundled_files. fold models_dir.
  rewrite (bind_pure (makedirs models_dir) _ w tt w (makedirs_existing _ _ Hdir)).
  rewrite (bind_run_Return _ _ w tt w _ (copy_prebundled_present _ _ _ _ _ _ w Henc)).
  rewrite (copy_prebundled_present _ _ _ _ _ _ w Hmodel).
  reflexivity.
Qed.

Lemma copy_prebundled_files_keeps_existing_witness :
  let E := demo_env None [] in
  let models_dir := resource_path E (u "whisper.cpp/models") in
  let fs : gmap pystr node :=
    <[models_dir := Dir]>
      (<[path_join models_dir (u "ggml-large-v3-turbo-encoder.mlmodelc") := Dir]>
         (<[path_join models_dir (u "ggml-large-v3-turbo.bin") := File (u "old")]>
            {[ resource_path E (u "resources/ggml-large-v3-turbo.bin") := File (u "new") ]})) in
  fs !! models_dir = Some Dir /\
  final (copy_prebundled_files E main_callback (initial_world fs)) = initial_world fs /\
  fs !! path_join models_dir (u "ggml-large-v3-turbo.bin") = Some (File (u "old")).
Proof.
  cbv zeta. split; [vm_compute; reflexivity|]. split; [|vm_compute; reflexivity].
  match goal with |- final (copy_prebundled_files ?E _ ?w) = _ =>
    rewrite (copy_prebundled_files_keeps_existing E w) end.
  - reflexivity.
  - vm_compute. reflexivity.
  - eexists. vm_compute. reflexivity.
  - eexists. vm_compute. reflexivity.
Defined.

(** X8. Only a clone that ran and failed falls back to the bundled files.
    When the repository is not there and [git] ends with a non-zero
    status, the failure is reported and the bundled files are copied
    before anything else.  When [git] cannot be started at all, the
    [FileNotFoundError] is not a [CalledProcessError]: it leaves
    [download_and_build_whisper] at once, nothing is copied and nothing is
    built. *)
Theorem clone_failure_falls_back_missing_git_does_not E w :
  files w !! resource_path E (u "whisper.cpp") = None ->
  let r := download_and_build_whisper E main_callback w in
  (forall status out fs1,
     spawn E GitClone (files w) = Some (status, out, fs1) -> status <> 0 ->
     let e := CalledProcessError GitClone status in
     exists rest,
       trace r = [Printed (MsgProgress PCloning 10); Spawned GitClone;
                  Printed (MsgProgress (PCloneFailed e) 10);
                  Printed (MsgProgress PUsingBundled 10)]
                 ++ trace (copy_prebundled_files E main_callback (World fs1 (vad_config w)))
                 ++ rest) /\
  (spawn E GitClone (files w) = None ->
     r = Run (Raise (FileNotFoundError [])) w
             [Printed (MsgProgress PCloning 10); Spawned GitClone]).
Proof.
  intros Htarget r. subst r. unfold download_and_build_whisper.
  rewrite (bind_pure (path_exists _) _ w false w)
    by (rewrite path_exists_run, Htarget; reflexivity).
  cbn [negb].
  split.
  - intros status out fs1 Hspawn Hstatus.
    pose (e := CalledProcessError GitClone status).
    match goal with |- context [bind ?m ?k w] =>
      destruct (bind_trace_prefix m k w) as [rest ->];
      assert (Hclone : trace (m w)
                = [Printed (MsgProgress PCloning 10); Spawned GitClone;
                   Printed (MsgProgress (PCloneFailed e) 10);
                   Printed (MsgProgress PUsingBundled 10)]
                  ++ trace (copy_prebundled_files E main_callback
                              (World fs1 (vad_config w)))) end.
    { rewrite (bind_run_Return (main_callback PCloning 10) _ w tt w _ eq_refl).
      rewrite (try_except_run_Raise _ _ _ _ _ _ _
                 (subprocess_run_failed E false GitClone w status out fs1 Hspawn Hstatus)
                 eq_refl).
      rewrite (bind_run_Return (main_callback (PCloneFailed e) 10) _
                 (World fs1 (vad_config w)) tt (World fs1 (vad_config w)) _ eq_refl).
      rewrite (bind_run_Return (main_callback PUsingBundled 10) _
                 (World fs1 (vad_config w)) tt (World fs1 (vad_config w)) _ eq_refl).
      reflexivity. }
    exists rest. rewrite Hclone, <- !app_assoc. reflexivity.
  - intros Hspawn.
    apply bind_run_Raise.
    rewrite (bind_run_Return (main_callback PCloning 10) _ w tt w _ eq_refl).
    rewrite (try_except_run_uncaught _ _ _ _ _ _ _
               (subprocess_run_not_started E GitClone w Hspawn) eq_refl).
    reflexivity.
Qed.

Lemma clone_failure_falls_back_missing_git_does_not_witness :
  let E := {| sys_meipass := None; getcwd := u "/home/user";
              platform_system := u "Linux"; platform_machine := u "x86_64";
              geteuid := 0; os_linesep := [LF];
              args_filepath := None; stdin_line := None;
              spawn := fun c fs => match c with
                                   | GitClone => None
                                   | _ => Some (0, [], fs)
                                   end;
              json_load := fun _ => None; os_listdir := demo_listdir;
              silero_vad := fun _ _ _ => Some [] |} in
  download_and_build_whisper E main_callback (initial_world ∅)
  = Run (Raise (FileNotFoundError [])) (initial_world ∅)
        [Printed (MsgProgress PCloning 10); Spawned GitClone].
Proof.
  intros E.
  refine (proj2 (clone_failure_falls_back_missing_git_does_not E (initial_world ∅) _) _);
    reflexivity.
Defined.

(** ** What a part of the script never does *)

Section NeverEmits.
Variable P : event -> bool.

Lemma never_emits_ret {A} (a : A) : never_emits P (ret a).
Proof. intros w. constructor. Qed.

Lemma never_emits_raise {A} e : never_emits P (@raise A e).
Proof. intros w. constructor. Qed.

Lemma never_emits_sys_exit {A} c : never_emits P (@sys_exit A c).
Proof. intros w. constructor. Qed.

Lemma never_emits_get_files : never_emits P get_files.
Proof. intros w. constructor. Qed.

Lemma never_emits_set_files fs : never_emits P (set_files fs).
Proof. intros w. constructor. Qed.

Lemma never_emits_get_vad_config : never_emits P get_vad_config.
Proof. intros w. constructor. Qed.

Lemma never_emits_emit e : P e = false -> never_emits P (emit e).
Proof. intros H w. repeat constructor. exact H. Qed.

Lemma never_emits_bind {A B} (m : M A) (k : A -> M B) :
  never_emits P m -> (forall a, never_emits P (k a)) -> never_emits P (bind m k).
Proof.
  intros Hm Hk w. unfold bind. specialize (Hm w).
  destruct (result (m w)) as [a|c|e]; simpl; try exact Hm.
  apply Forall_app. split; [exact Hm | apply Hk].
Qed.

Lemma never_emits_try_except {A} catches (m : M A) h :
  never_emits P m -> (forall e, never_emits P (h e)) ->
  never_emits P (try_except catches m h).
Proof.
  intros Hm Hh w. unfold try_except. specialize (Hm w).
  destruct (result (m w)) as [a|c|e]; try exact Hm.
  destruct (catches e); [|exact Hm]. simpl.
  apply Forall_app. split; [exact Hm | apply Hh].
Qed.

Lemma never_emits_if {A} (b : bool) (m1 m2 : M A) :
  never_emits P m1 -> never_emits P m2 -> never_emits P (if b then m1 else m2).
Proof. destruct b; auto. Qed.

Lemma never_emits_dict_get cfg k dflt : never_emits P (dict_get cfg k dflt).
Proof. destruct cfg; intros w; constructor. Qed.

End NeverEmits.

#[local] Hint Resolve never_emits_ret never_emits_raise never_emits_sys_exit
  never_emits_get_files never_emits_set_files never_emits_get_vad_config
  never_emits_if never_emits_dict_get : quiet.
#[local] Hint Extern 2 (never_emits _ (bind _ _)) =>
  apply never_emits_bind; [|intros ?] : quiet.
#[local] Hint Extern 2 (never_emits _ (try_except _ _ _)) =>
  apply never_emits_try_except; [|intros ?] : quiet.
#[local] Hint Extern 2 (never_emits _ (emit _)) =>
  apply never_emits_emit; reflexivity : quiet.
#[local] Hint Extern 2 (never_emits _ (print _)) =>
  apply never_emits_emit; reflexivity : quiet.
#[local] Hint Extern 2 (never_emits _ (main_callback _ _)) =>
  apply never_emits_emit; reflexivity : quiet.
#[local] Hint Extern 3 (never_emits _ (match ?x with _ => _ end)) => destruct x : quiet.

Lemma never_emits_os_system P E c :
  P (Spawned c) = false -> never_emits P (os_system E c).
Proof.
  intros H. unfold os_system.
  apply never_emits_bind; [auto with quiet | intros fs].
  apply never_emits_bind; [apply never_emits_emit, H | intros _].
  destruct (spawn E c fs) as [[[status out] fs']|]; auto 6 with quiet.
Qed.

Lemma never_emits_subprocess_run P E shell c :
  P (Spawned c) = false -> never_emits P (subprocess_run E shell c).
Proof.
  intros H. unfold subprocess_run.
  apply never_emits_bind; [auto with quiet | intros fs].
  apply never_emits_bind; [apply never_emits_emit, H | intros _].
  destruct (spawn E c fs) as [[[status out] fs']|]; auto 6 with quiet.
Qed.

Lemma never_emits_popen_lines P E c :
  P (Spawned c) = false -> never_emits P (popen_lines E c).
Proof.
  intros H. unfold popen_lines.
  apply never_emits_bind; [auto with quiet | intros fs].
  apply never_emits_bind; [apply never_emits_emit, H | intros _].
  destruct (spawn E c fs) as [[[status out] fs']|]; auto 6 with quiet.
Qed.

Lemma never_emits_path_exists P p : never_emits P (path_exists p).
Proof. unfold path_exists. auto with quiet. Qed.

Lemma never_emits_makedirs P p : P (MadeDir p) = false -> never_emits P (makedirs p).
Proof.
  intros H. unfold makedirs.
  apply never_emits_bind; [auto with quiet | intros fs].
  destruct (fs !! p) as [[| |]|]; auto with quiet.
  apply never_emits_bind; [auto with quiet | intros _]. apply never_emits_emit, H.
Qed.

Lemma never_emits_filter_nil P {A} (m : M A) w :
  never_emits P m -> List.filter P (trace (m w)) = [].
Proof.
  intros H. specialize (H w). induction H as [|e l He _ IH]; simpl; [reflexivity|].
  rewrite He. exact IH.
Qed.

Lemma never_emits_existsb P {A} (m : M A) w :
  never_emits P m -> existsb P (trace (m w)) = false.
Proof.
  intros H. specialize (H w). induction H as [|e l He _ IH]; simpl; [reflexivity|].
  rewrite He. exact IH.
Qed.

(** ** Who reads the configuration *)

Section ConfigInsensitive.
Variables c c' : json.

Lemma config_insensitive_ret {A} (a : A) : config_insensitive c c' (ret a).
Proof. intros fs. split; reflexivity. Qed.

Lemma config_insensitive_raise {A} e : config_insensitive c c' (@raise A e).
Proof. intros fs. split; reflexivity. Qed.

Lemma config_insensitive_sys_exit {A} n : config_insensitive c c' (@sys_exit A n).
Proof. intros fs. split; reflexivity. Qed.

Lemma config_insensitive_emit e : config_insensitive c c' (emit e).
Proof. intros fs. split; reflexivity. Qed.

Lemma config_insensitive_print m : config_insensitive c c' (print m).
Proof. intros fs. split; reflexivity. Qed.

Lemma config_insensitive_get_files : config_insensitive c c' get_files.
Proof. intros fs. split; reflexivity. Qed.

Lemma config_insensitive_set_files fs' : config_insensitive c c' (set_files fs').
Proof. intros fs. split; reflexivity. Qed.

Lemma config_insensitive_bind {A B} (m : M A) (k : A -> M B) :
  config_insensitive c c' m -> (forall a, config_insensitive c c' (k a)) ->
  config_insensitive c c' (bind m k).
Proof.
  intros Hm Hk fs. destruct (Hm fs) as [Hm1 Hm2]. unfold bind. rewrite Hm1.
  destruct (m (World fs c)) as [res [fs1 c1] tr]. cbn in Hm2. subst c1. cbn.
  destruct res as [a| |]; cbn; [|split; reflexivity ..].
  destruct (Hk a fs1) as [Hk1 Hk2]. rewrite Hk1. cbn. split; [reflexivity | exact Hk2].
Qed.

Lemma config_insensitive_try_except {A} catches (m : M A) h :
  config_insensitive c c' m -> (forall e, config_insensitive c c' (h e)) ->
  config_insensitive c c' (try_except catches m h).
Proof.
  intros Hm Hh fs. destruct (Hm fs) as [Hm1 Hm2]. unfold try_except. rewrite Hm1.
  destruct (m (World fs c)) as [res [fs1 c1] tr]. cbn in Hm2. subst c1. cbn.
  destruct res as [a| |e]; cbn; [split; reflexivity ..|].
  destruct (catches e); [|split; reflexivity].
  destruct (Hh e fs1) as [Hh1 Hh2]. rewrite Hh1. cbn. split; [reflexivity | exact Hh2].
Qed.

Lemma config_insensitive_if {A} (b : bool) (m1 m2 : M A) :
  config_insensitive c c' m1 -> config_insensitive c c' m2 ->
  config_insensitive c c' (if b then m1 else m2).
Proof. destruct b; auto. Qed.

End ConfigInsensitive.

#[local] Hint Resolve config_insensitive_ret config_insensitive_raise
  config_insensitive_sys_exit config_insensitive_emit config_insensitive_print
  config_insensitive_get_files config_insensitive_set_files config_insensitive_if : cfg.
#[local] Hint Extern 2 (config_insensitive _ _ (bind _ _)) =>
  apply config_insensitive_bind; [|intros ?] : cfg.
#[local] Hint Extern 2 (config_insensitive _ _ (try_except _ _ _)) =>
  apply config_insensitive_try_except; [|intros ?] : cfg.
#[local] Hint Extern 1 (config_insensitive _ _ (main_callback _ _)) =>
  apply config_insensitive_print : cfg.
#[local] Hint Extern 3 (config_insensitive _ _ (match ?x with _ => _ end)) =>
  destruct x : cfg.

Lemma ignores_config_insensitive {A} (m : M A) :
  (forall c c', config_insensitive c c' m) -> ignores_config m.
Proof. intros H fs c c'. apply H. Qed.

Section ConfigInsensitiveScript.
Variables (E : Env) (c c' : json).

Lemma config_insensitive_os_system cmd : config_insensitive c c' (os_system E cmd).
Proof.
  unfold os_system.
  apply config_insensitive_bind; [auto with cfg | intros fs].
  apply config_insensitive_bind; [auto with cfg | intros _].
  destruct (spawn E cmd fs) as [[[status out] fs']|]; auto 6 with cfg.
Qed.

Lemma config_insensitive_subprocess_run shell cmd :
  config_insensitive c c' (subprocess_run E shell cmd).
Proof.
  unfold subprocess_run.
  apply config_insensitive_bind; [auto with cfg | intros fs].
  apply config_insensitive_bind; [auto with cfg | intros _].
  destruct (spawn E cmd fs) as [[[status out] fs']|]; auto 6 with cfg.
Qed.

Lemma config_insensitive_popen_lines cmd : config_insensitive c c' (popen_lines E cmd).
Proof.
  unfold popen_lines.
  apply config_insensitive_bind; [auto with cfg | intros fs].
  apply config_insensitive_bind; [auto with cfg | intros _].
  destruct (spawn E cmd fs) as [[[status out] fs']|]; auto 6 with cfg.
Qed.

Lemma config_insensitive_path_exists p : config_insensitive c c' (path_exists p).
Proof. intros fs. split; reflexivity. Qed.

Lemma config_insensitive_path_isdir p : config_insensitive c c' (path_isdir p).
Proof. intros fs. split; reflexivity. Qed.

Lemma config_insensitive_makedirs p : config_insensitive c c' (makedirs p).
Proof.
  unfold makedirs. apply config_insensitive_bind; [auto with cfg | intros fs].
  destruct (fs !! p) as [[| |]|]; auto 6 with cfg.
Qed.

Lemma config_insensitive_read_text p : config_insensitive c c' (read_text p).
Proof.
  unfold read_text. apply config_insensitive_bind; [auto with cfg | intros fs].
  destruct (fs !! p) as [[| |]|]; auto 6 with cfg.
Qed.

Lemma config_insensitive_write_text p data : config_insensitive c c' (write_text p data).
Proof.
  unfold write_text. apply config_insensitive_bind; [auto with cfg | intros fs].
  destruct (fs !! p) as [[| |]|]; auto 6 with cfg.
Qed.

Lemma config_insensitive_copy2 src dst : config_insensitive c c' (copy2 src dst).
Proof.
  unfold copy2. apply config_insensitive_bind; [auto with cfg | intros fs].
  destruct (fs !! src) as [[| |]|]; auto 6 with cfg.
Qed.

Lemma config_insensitive_copytree src dst : config_insensitive c c' (copytree src dst).
Proof. intros fs. split; reflexivity. Qed.

Lemma config_insensitive_shutil_move src dst : config_insensitive c c' (shutil_move src dst).
Proof.
  unfold shutil_move. apply config_insensitive_bind; [auto with cfg | intros fs].
  destruct (fs !! src) as [nd|]; auto 6 with cfg.
Qed.

End ConfigInsensitiveScript.

#[local] Hint Resolve config_insensitive_os_system config_insensitive_subprocess_run
  config_insensitive_popen_lines config_insensitive_path_exists
  config_insensitive_path_isdir config_insensitive_makedirs config_insensitive_read_text
  config_insensitive_write_text config_insensitive_copy2 config_insensitive_copytree
  config_insensitive_shutil_move : cfg.

Section ConfigInsensitiveParts.
Variables (E : Env) (c c' : json).

Lemma config_insensitive_check_ffmpeg : config_insensitive c c' (check_ffmpeg E).
Proof. unfold check_ffmpeg. auto 8 with cfg. Qed.

Lemma config_insensitive_convert_to_mp3 p : config_insensitive c c' (convert_to_mp3 E p).
Proof. unfold convert_to_mp3. auto 12 with cfg. Qed.

Lemma config_insensitive_segment_times seg : config_insensitive c c' (segment_times seg).
Proof. unfold segment_times, of_result. auto 8 with cfg. Qed.

Lemma config_insensitive_split_loop file_path mp3_folder total segs :
  forall idx, config_insensitive c c' (split_loop E file_path mp3_folder total idx segs).
Proof.
  induction segs as [|seg rest IH]; intros idx; cbn [split_loop]; [auto with cfg|].
  apply config_insensitive_bind;
    [apply config_insensitive_segment_times | intros [[start_time end_time] duration]].
  apply config_insensitive_bind; [|intros _; apply IH].
  auto 8 with cfg.
Qed.

Lemma config_insensitive_remove_newlines_from_text p :
  config_insensitive c c' (remove_newlines_from_text E p).
Proof. unfold remove_newlines_from_text. auto 8 with cfg. Qed.

Lemma config_insensitive_transcribe_loop text_folder audio_files :
  config_insensitive c c' (transcribe_loop E text_folder audio_files).
Proof.
  pose proof config_insensitive_remove_newlines_from_text as Hclean.
  induction audio_files as [|file rest IH]; cbn [transcribe_loop]; [auto with cfg|].
  apply config_insensitive_bind; [|intros _; exact IH].
  unfold transcribe_one. auto 10 with cfg.
Qed.

Lemma config_insensitive_print_lines lines : config_insensitive c c' (print_lines lines).
Proof.
  induction lines as [|line rest IH]; cbn [print_lines]; [auto with cfg|].
  apply config_insensitive_bind; [auto with cfg | intros _; exact IH].
Qed.

Lemma config_insensitive_transcribe_audio mp3_folder text_folder :
  config_insensitive c c' (transcribe_audio E mp3_folder text_folder).
Proof.
  pose proof config_insensitive_print_lines as Hlines.
  pose proof config_insensitive_transcribe_loop as Hloop.
  unfold transcribe_audio.
  apply config_insensitive_bind; [auto with cfg | intros present].
  apply config_insensitive_if; [auto 6 with cfg|].
  apply config_insensitive_bind; [auto with cfg | intros fs].
  destruct (os_listdir E mp3_folder fs) as [names|]; auto 12 with cfg.
Qed.

Lemma config_insensitive_copy_prebundled_files :
  config_insensitive c c' (copy_prebundled_files E main_callback).
Proof. unfold copy_prebundled_files, copy_prebundled. auto 12 with cfg. Qed.

Lemma config_insensitive_installation_process :
  config_insensitive c c' (installation_process E main_callback).
Proof.
  pose proof config_insensitive_copy_prebundled_files as Hcopy.
  unfold installation_process, check_and_install_system_dependencies,
    download_and_build_whisper, check_whisper_cli.
  auto 20 with cfg.
Qed.

Lemma config_insensitive_choose_file : config_insensitive c c' (choose_file E).
Proof.
  pose proof config_insensitive_installation_process as Hinstall.
  unfold choose_file.
  apply config_insensitive_if; [auto with cfg|].
  apply config_insensitive_bind; [auto with cfg | intros installed].
  apply config_insensitive_if; [auto 12 with cfg|].
  apply config_insensitive_bind; [auto with cfg | intros _].
  destruct (stdin_line E) as [line|]; auto 8 with cfg.
Qed.

End ConfigInsensitiveParts.

(** X9. The configuration matters to the segmenter alone: choosing the
    file (the installer included), converting and transcribing do the same
    whatever [vad_config] holds, and hand it on unchanged. *)
Theorem only_split_audio_reads_the_config E :
  ignores_config (choose_file E) /\
  ignores_config (installation_process E main_callback) /\
  (forall file_path, ignores_config (convert_to_mp3 E file_path)) /\
  (forall mp3_folder text_folder,
     ignores_config (transcribe_audio E mp3_folder text_folder)).
Proof.
  split; [|split; [|split]]; intros; apply ignores_config_insensitive; intros c c'.
  - apply config_insensitive_choose_file.
  - apply config_insensitive_installation_process.
  - apply config_insensitive_convert_to_mp3.
  - apply config_insensitive_transcribe_audio.
Qed.

(** X10. The segmenter reads the configuration through five [.get] calls
    only: two configurations that give the same five values (each one its
    own or the fall-back 500, 700, 18, 10, 0.6), or that both have no
    [.get], lead [split_audio] to the same outcome, the same events and the
    same files; the configuration itself is handed on unchanged. *)
Theorem split_audio_reads_five_values E file_path fs c c' :
  vad_params c = vad_params c' ->
  split_audio E file_path (World fs c')
  = let r := split_audio E file_path (World fs c) in
    Run (result r) (World (files (final r)) c') (trace r).
Proof.
  intros Hparams.
  assert (H : config_insensitive c c' (split_audio E file_path)); [|exact (proj1 (H fs))].
  clear fs. unfold split_audio.
  pose proof (config_insensitive_check_ffmpeg E c c') as Hffmpeg.
  pose proof (config_insensitive_convert_to_mp3 E c c') as Hconvert.
  pose proof (config_insensitive_split_loop E c c') as Hloop.
  apply config_insensitive_bind; [exact Hffmpeg | intros _].
  apply config_insensitive_bind; [auto with cfg | intros _].
  apply config_insensitive_bind; [auto with cfg | intros _].
  apply config_insensitive_bind; [apply Hconvert | intros mp3].
  apply config_insensitive_bind; [auto with cfg | intros _].
  apply config_insensitive_bind; [auto with cfg | intros _].
  apply config_insensitive_bind; [auto with cfg | intros _].
  intros fs.
  rewrite (bind_pure get_vad_config _ (World fs c') c' (World fs c') eq_refl).
  rewrite (bind_pure get_vad_config _ (World fs c) c (World fs c) eq_refl).
  destruct c as [| | | | | |items]; destruct c' as [| | | | | |items'];
    try discriminate Hparams; try (split; reflexivity).
  injection Hparams as H1 H2 H3 H4 H5.
  cbn [dict_get]. rewrite !bind_ret_l, H1, H2, H3, H4, H5.
  match goal with |- ?m (World fs (JDict items')) = _ /\ _ =>
    assert (H : config_insensitive (JDict items) (JDict items') m); [|exact (H fs)] end.
  apply config_insensitive_bind; [auto with cfg | intros fs0].
  apply config_insensitive_bind; [auto with cfg | intros _].
  destruct (silero_vad E mp3 _ fs0) as [speech_timestamps|]; [|auto with cfg].
  apply config_insensitive_bind; [auto with cfg | intros _].
  apply config_insensitive_bind; [apply Hloop | intros _].
  auto with cfg.
Qed.

Lemma split_audio_reads_five_values_witness :
  let E := demo_env None [] in
  split_audio E (u "a.mp3") (World ∅ DEFAULT_CONFIG)
  = let r := split_audio E (u "a.mp3") (World ∅ (JDict [])) in
    Run (result r) (World (files (final r)) DEFAULT_CONFIG) (trace r).
Proof.
  intros E.
  apply (split_audio_reads_five_values E (u "a.mp3") ∅ (JDict []) DEFAULT_CONFIG).
  reflexivity.
Defined.

(** ** A configuration that is not a dict *)

#[local] Hint Extern 1 (never_emits _ (os_system _ _)) =>
  apply never_emits_os_system; reflexivity : quiet.
#[local] Hint Extern 1 (never_emits _ (subprocess_run _ _ _)) =>
  apply never_emits_subprocess_run; reflexivity : quiet.
#[local] Hint Extern 1 (never_emits _ (popen_lines _ _)) =>
  apply never_emits_popen_lines; reflexivity : quiet.
#[local] Hint Extern 1 (never_emits _ (makedirs _)) =>
  apply never_emits_makedirs; reflexivity : quiet.
#[local] Hint Resolve never_emits_path_exists : quiet.

Lemma never_emits_weaken (P Q : event -> bool) {A} (m : M A) :
  (forall e, P e = true -> Q e = true) -> never_emits Q m -> never_emits P m.
Proof.
  intros HPQ H w. eapply Forall_impl; [apply H|].
  intros e He. simpl in He. destruct (P e) eqn:HP; [|reflexivity].
  rewrite (HPQ e HP) in He. discriminate.
Qed.

Lemma never_emits_installer_like {A} (m : M A) :
  installer_like m -> never_emits is_audio_event m.
Proof. intros H w. apply H. Qed.

Lemma never_emits_vad_run_convert_to_mp3 E p : never_emits is_vad_run (convert_to_mp3 E p).
Proof. unfold convert_to_mp3. auto 12 with quiet. Qed.

Lemma never_emits_vad_run_check_ffmpeg E : never_emits is_vad_run (check_ffmpeg E).
Proof. unfold check_ffmpeg. auto 8 with quiet. Qed.

Lemma keeps_config_insensitive {A} (m : M A) :
  (forall c, config_insensitive c c m) -> keeps_config m.
Proof. intros H [fs c]. apply (H c fs). Qed.

Lemma blocked_bind {A B} (m : M A) (k : A -> M B) :
  blocked_without_dict m -> blocked_without_dict (bind m k).
Proof.
  intros Hm w Hw. destruct (Hm w Hw) as [Hres Htr]. unfold bind.
  destruct (result (m w)) as [a| |] eqn:Hr; cbn; [elim (Hres a eq_refl) | |];
    (split; [discriminate | exact Htr]).
Qed.

Lemma blocked_bind_after {A B} (m : M A) (k : A -> M B) :
  keeps_config m -> never_emits is_vad_run m ->
  (forall a, blocked_without_dict (k a)) -> blocked_without_dict (bind m k).
Proof.
  intros Hcfg Hquiet Hk w Hw. unfold bind. specialize (Hcfg w). specialize (Hquiet w).
  destruct (result (m w)) as [a| |]; cbn; [|split; [discriminate | exact Hquiet] ..].
  destruct (Hk a (final (m w))) as [Hres Htr]; [rewrite Hcfg; exact Hw|].
  split; [exact Hres | apply Forall_app; split; assumption].
Qed.

Lemma blocked_split_audio E file_path : blocked_without_dict (split_audio E file_path).
Proof.
  unfold split_audio.
  apply blocked_bind_after;
    [apply keeps_config_insensitive; intros; apply config_insensitive_check_ffmpeg
    |apply never_emits_vad_run_check_ffmpeg | intros _].
  apply blocked_bind_after;
    [apply keeps_config_insensitive; intros; apply config_insensitive_makedirs
    |auto with quiet | intros _].
  apply blocked_bind_after;
    [apply keeps_config_insensitive; intros; apply config_insensitive_makedirs
    |auto with quiet | intros _].
  apply blocked_bind_after;
    [apply keeps_config_insensitive; intros; apply config_insensitive_convert_to_mp3
    |apply never_emits_vad_run_convert_to_mp3 | intros mp3].
  do 3 (apply blocked_bind_after;
    [apply keeps_config_insensitive; intros; apply config_insensitive_print
    |auto with quiet | intros _]).
  intros w Hw.
  rewrite (bind_pure get_vad_config _ w (vad_config w) w eq_refl).
  destruct (vad_config w); try discriminate Hw; split; (discriminate || constructor).
Qed.

Lemma vad_params_None cfg : (forall items, cfg <> JDict items) -> vad_params cfg = None.
Proof. intros H. destruct cfg; try reflexivity. elim (H items eq_refl). Qed.

Lemma not_vad_run_trace (t : list event) :
  Forall (fun e => is_vad_run e = false) t -> forall fp params, VadRun fp params ∉ t.
Proof.
  intros H fp params Hin. rewrite Forall_forall in H. specialize (H _ Hin). discriminate.
Qed.

(** X11. [split_audio] takes for granted that [vad_config] is a dict.
    With any other value (a list, a number, a string, [null]) it cannot
    return: whatever happens before, the first [.get] raises, and the
    detector is never run. *)
Theorem split_audio_needs_a_dict E file_path w :
  (forall items, vad_config w <> JDict items) ->
  let r := split_audio E file_path w in
  (forall folders, result r <> Return folders) /\
  (forall fp params, VadRun fp params ∉ trace r).
Proof.
  intros Hcfg r.
  destruct (blocked_split_audio E file_path w (vad_params_None _ Hcfg)) as [Hres Htr].
  split; [exact Hres | apply not_vad_run_trace, Htr].
Qed.

Lemma split_audio_needs_a_dict_witness :
  let r := split_audio (demo_env None []) (u "a.mp3") (World ∅ (JList [])) in
  (forall folders, result r <> Return folders) /\
  (forall fp params, VadRun fp params ∉ trace r).
Proof.
  apply (split_audio_needs_a_dict (demo_env None []) (u "a.mp3") (World ∅ (JList []))).
  intros items. discriminate.
Defined.

Lemma read_text_file p text w :
  files w !! p = Some (File text) -> read_text p w = Run (Return text) w [].
Proof.
  intros H. unfold read_text.
  rewrite (bind_pure get_files _ w (files w) w eq_refl), H. reflexivity.
Qed.

Lemma load_config_parsed E w text cfg :
  files w !! resource_path E CONFIG_FILE = Some (File text) ->
  json_load E text = Some cfg ->
  load_config E w = Run (Return tt) (World (files w) cfg) [Printed (MsgCurrentVadConfig cfg)].
Proof.
  intros Hfile Hjson. unfold load_config.
  assert (Hload :
    (if bool_decide (is_Some (files w !! resource_path E CONFIG_FILE))
     then try_except any_exception
            (bind (read_text (resource_path E CONFIG_FILE))
               (fun text => match json_load E text with
                            | Some cfg => set_vad_config cfg
                            | None => raise JSONDecodeError
                            end))
            (fun e => bind (print (MsgConfigLoadError e))
                        (fun _ => set_vad_config DEFAULT_CONFIG))
     else set_vad_config DEFAULT_CONFIG) w
    = Run (Return tt) (World (files w) cfg) []).
  { rewrite bool_decide_eq_true_2 by (rewrite Hfile; eauto).
    apply try_except_run_Return.
    rewrite (bind_pure (read_text _) _ w text w (read_text_file _ _ _ Hfile)), Hjson.
    reflexivity. }
  rewrite (bind_pure (path_exists _) _ w _ w (path_exists_run _ w)).
  rewrite (bind_pure _ _ w tt (World (files w) cfg) Hload).
  reflexivity.
Qed.

Lemma never_emits_vad_run_write_text p data : never_emits is_vad_run (write_text p data).
Proof.
  unfold write_text. apply never_emits_bind; [auto with quiet | intros fs].
  destruct (fs !! p) as [[| |]|]; auto 6 with quiet.
Qed.

Lemma never_emits_vad_run_choose_file E : never_emits is_vad_run (choose_file E).
Proof.
  assert (Hinstall : never_emits is_vad_run (installation_process E main_callback)).
  { apply (never_emits_weaken is_vad_run is_audio_event).
    - intros [] H; try discriminate H; reflexivity.
    - apply never_emits_installer_like, installer_like_installation_process. }
  pose proof never_emits_vad_run_write_text as Hwrite.
  unfold choose_file.
  apply never_emits_if; [auto with quiet|].
  apply never_emits_bind; [auto with quiet | intros installed].
  apply never_emits_if; [auto 12 with quiet|].
  apply never_emits_bind; [auto with quiet | intros _].
  destruct (stdin_line E) as [line|]; auto 8 with quiet.
Qed.

Lemma blocked_main E : blocked_without_dict (main E).
Proof.
  unfold main.
  apply blocked_bind_after;
    [apply keeps_config_insensitive; intros; apply config_insensitive_choose_file
    |apply never_emits_vad_run_choose_file | intros file_path].
  unfold process_audio.
  apply blocked_bind_after;
    [apply keeps_config_insensitive; intros; apply config_insensitive_print
    |auto with quiet | intros _].
  apply blocked_bind_after;
    [apply keeps_config_insensitive; intros; apply config_insensitive_convert_to_mp3
    |apply never_emits_vad_run_convert_to_mp3 | intros mp3].
  apply blocked_bind, blocked_split_audio.
Qed.

(** X12. The configuration file is not validated.  A [config.json] that
    holds valid JSON other than an object is stored as it is, with no
    complaint; the run that follows cannot complete, and the detector is
    never run. *)
Theorem script_with_config_that_is_not_an_object E w text cfg :
  files w !! resource_path E CONFIG_FILE = Some (File text) ->
  json_load E text = Some cfg ->
  (forall items, cfg <> JDict items) ->
  load_config E w
  = Run (Return tt) (World (files w) cfg) [Printed (MsgCurrentVadConfig cfg)] /\
  (forall a, result (script E w) <> Return a) /\
  (forall fp params, VadRun fp params ∉ trace (script E w)).
Proof.
  intros Hfile Hjson Hcfg.
  pose proof (load_config_parsed E w text cfg Hfile Hjson) as Hload.
  split; [exact Hload|].
  destruct (blocked_main E (World (files w) cfg) (vad_params_None _ Hcfg)) as [Hres Htr].
  unfold script. rewrite (bind_run_Return _ _ w tt _ _ Hload). cbn [result trace].
  split; [exact Hres|].
  intros fp params Hin. apply elem_of_app in Hin as [Hin|Hin].
  - apply list_elem_of_singleton in Hin. discriminate.
  - exact (not_vad_run_trace _ Htr fp params Hin).
Qed.

Lemma script_with_config_that_is_not_an_object_witness :
  let E := {| sys_meipass := None; getcwd := u "/home/user";
              platform_system := u "Linux"; platform_machine := u "x86_64";
              geteuid := 0; os_linesep := [LF];
              args_filepath := Some (u "a.mp3"); stdin_line := None;
              spawn := demo_spawn;
              json_load := fun text => if bool_decide (text = u "[]")
                                       then Some (JList []) else None;
              os_listdir := demo_listdir;
              silero_vad := fun _ _ _ => Some [] |} in
  let w := initial_world {[ u "/home/user/config.json" := File (u "[]") ]} in
  vad_config (final (load_config E w)) = JList [] /\
  (forall a, result (script E w) <> Return a) /\
  (forall fp params, VadRun fp params ∉ trace (script E w)).
Proof.
  intros E w.
  destruct (script_with_config_that_is_not_an_object E w (u "[]") (JList []))
    as (Hload & Hres & Htr).
  - vm_compute. reflexivity.
  - reflexivity.
  - intros items. discriminate.
  - rewrite Hload. split; [reflexivity|]. split; assumption.
Defined.

(** ** What the audio pipeline emits *)

Lemma never_emits_write_text P p data :
  P (Wrote p data) = false -> never_emits P (write_text p data).
Proof.
  intros H. unfold write_text. apply never_emits_bind; [auto with quiet | intros fs].
  destruct (fs !! p) as [[| |]|]; auto with quiet;
    (apply never_emits_bind; [auto with quiet | intros _]; apply never_emits_emit, H).
Qed.

Lemma never_emits_read_text P p : never_emits P (read_text p).
Proof.
  unfold read_text. apply never_emits_bind; [auto with quiet | intros fs].
  destruct (fs !! p) as [[| |]|]; auto with quiet.
Qed.

Lemma never_emits_shutil_move P src dst :
  (forall real_dst, P (Moved src real_dst) = false) -> never_emits P (shutil_move src dst).
Proof.
  intros H.
  assert (Hrename : forall fs real_dst,
            never_emits P (bind (set_files fs) (fun _ => emit (Moved src real_dst)))).
  { intros fs real_dst. apply never_emits_bind; [auto with quiet | intros _].
    apply never_emits_emit, H. }
  unfold shutil_move. apply never_emits_bind; [auto with quiet | intros fs].
  destruct (fs !! dst) as [[| |]|]; destruct (fs !! src) as [nd|];
    try destruct (bool_decide (is_Some _));
    try destruct (if bool_decide (dirname dst = []) then Some Dir else fs !! dirname dst)
      as [[| |]|];
    auto with quiet.
Qed.

Section PipelineEvents.
Variables (P : event -> bool) (E : Env).
Hypothesis P_print : forall m, (forall p v, m <> MsgProgress p v) -> P (Printed m) = false.
Hypothesis P_version : P (Spawned FfmpegVersion) = false.
Hypothesis P_encode : forall src dst, P (Spawned (FfmpegEncode src dst)) = false.
Hypothesis P_cut : forall src ss t dst, P (Spawned (FfmpegCut src ss t dst)) = false.
Hypothesis P_whisper : forall cli model fs, P (Spawned (WhisperCli cli model fs)) = false.
Hypothesis P_vad : forall p params, P (VadRun p params) = false.
Hypothesis P_madedir : forall p, P (MadeDir p) = false.
Hypothesis P_moved : forall src dst, P (Moved src dst) = false.
Hypothesis P_wrote : forall f data, P (Wrote (f ++ u ".txt") data) = false.

Lemma never_emits_message m :
  (forall p v, m <> MsgProgress p v) -> never_emits P (print m).
Proof. intros H. apply never_emits_emit, P_print, H. Qed.

#[local] Hint Extern 1 (never_emits P (print _)) =>
  apply never_emits_message; intros; discriminate : quiet.

Lemma never_emits_check_ffmpeg : never_emits P (check_ffmpeg E).
Proof.
  unfold check_ffmpeg.
  apply never_emits_bind; [apply never_emits_os_system, P_version | intros status].
  auto 6 with quiet.
Qed.

Lemma never_emits_convert_to_mp3_already p :
  endswith (lower p) (u ".mp3") = true -> never_emits P (convert_to_mp3 E p).
Proof. intros H. unfold convert_to_mp3. rewrite H. auto with quiet. Qed.

Lemma never_emits_convert_to_mp3 p : never_emits P (convert_to_mp3 E p).
Proof.
  unfold convert_to_mp3. apply never_emits_if; [auto with quiet|].
  apply never_emits_bind; [auto with quiet | intros _].
  apply never_emits_bind; [apply never_emits_os_system, P_encode | intros _].
  auto 8 with quiet.
Qed.

Lemma never_emits_split_loop file_path mp3_folder total segs :
  forall idx, never_emits P (split_loop E file_path mp3_folder total idx segs).
Proof.
  induction segs as [|seg rest IH]; intros idx; cbn [split_loop]; [auto with quiet|].
  apply never_emits_bind;
    [unfold segment_times, of_result; auto 8 with quiet
    |intros [[start_time end_time] duration]].
  apply never_emits_bind; [|intros _; apply IH].
  apply never_emits_if; [auto with quiet|].
  apply never_emits_bind; [auto with quiet | intros _].
  apply never_emits_bind; [apply never_emits_os_system, P_cut | intros _].
  auto with quiet.
Qed.

(** The segmenter, once its own call of the converter is known to emit
    nothing of the kind. *)
Lemma never_emits_split_audio_after file_path :
  never_emits P (convert_to_mp3 E file_path) -> never_emits P (split_audio E file_path).
Proof.
  intros Hconvert. unfold split_audio.
  apply never_emits_bind; [apply never_emits_check_ffmpeg | intros _].
  apply never_emits_bind; [apply never_emits_makedirs, P_madedir | intros _].
  apply never_emits_bind; [apply never_emits_makedirs, P_madedir | intros _].
  apply never_emits_bind; [exact Hconvert | intros mp3].
  do 3 (apply never_emits_bind; [auto with quiet | intros _]).
  apply never_emits_bind; [auto with quiet | intros cfg].
  do 5 (apply never_emits_bind; [auto with quiet | intros ?]).
  apply never_emits_bind; [auto with quiet | intros fs].
  apply never_emits_bind; [apply never_emits_emit, P_vad | intros _].
  destruct (silero_vad E mp3 _ fs) as [speech_timestamps|]; [|auto with quiet].
  apply never_emits_bind; [auto with quiet | intros _].
  apply never_emits_bind; [apply never_emits_split_loop | intros _].
  auto with quiet.
Qed.

Lemma never_emits_remove_newlines_from_text f :
  never_emits P (remove_newlines_from_text E (f ++ u ".txt")).
Proof.
  unfold remove_newlines_from_text.
  apply never_emits_bind; [apply never_emits_read_text | intros raw].
  apply never_emits_bind; [apply never_emits_write_text, P_wrote | intros _].
  auto with quiet.
Qed.

Lemma never_emits_transcribe_loop text_folder audio_files :
  never_emits P (transcribe_loop E text_folder audio_files).
Proof.
  induction audio_files as [|file rest IH]; cbn [transcribe_loop]; [auto with quiet|].
  apply never_emits_bind; [|intros _; exact IH].
  unfold transcribe_one.
  apply never_emits_bind; [auto with quiet | intros present].
  apply never_emits_if; [|auto with quiet].
  apply never_emits_bind; [apply never_emits_remove_newlines_from_text | intros _].
  apply never_emits_bind; [apply never_emits_shutil_move; intros; apply P_moved | intros _].
  auto with quiet.
Qed.

Lemma never_emits_print_lines lines : never_emits P (print_lines lines).
Proof.
  induction lines as [|line rest IH]; cbn [print_lines]; [auto with quiet|].
  apply never_emits_bind; [auto with quiet | intros _; exact IH].
Qed.

Lemma never_emits_transcribe_audio mp3_folder text_folder :
  never_emits P (transcribe_audio E mp3_folder text_folder).
Proof.
  unfold transcribe_audio.
  apply never_emits_bind; [auto with quiet | intros present].
  apply never_emits_if; [auto 6 with quiet|].
  apply never_emits_bind; [auto with quiet | intros fs].
  destruct (os_listdir E mp3_folder fs) as [names|]; [|auto with quiet].
  do 2 (apply never_emits_bind; [auto with quiet | intros _]).
  apply never_emits_bind; [apply never_emits_popen_lines, P_whisper | intros lines].
  apply never_emits_bind; [apply never_emits_print_lines | intros _].
  apply never_emits_bind; [apply never_emits_transcribe_loop | intros _].
  auto with quiet.
Qed.

Lemma never_emits_process_audio file_path : never_emits P (process_audio E file_path).
Proof.
  unfold process_audio.
  apply never_emits_bind; [auto with quiet | intros _].
  apply never_emits_bind; [apply never_emits_convert_to_mp3 | intros mp3].
  apply never_emits_bind;
    [apply never_emits_split_audio_after, never_emits_convert_to_mp3 | intros [[o m] t]].
  apply never_emits_bind; [apply never_emits_transcribe_audio | intros _].
  auto with quiet.
Qed.

End PipelineEvents.

Lemma txt_not_marker f : f ++ u ".txt" <> marker.
Proof.
  intros H. apply (f_equal last) in H. rewrite last_app in H. vm_compute in H. discriminate.
Qed.

Lemma first_run_event_print m :
  (forall p v, m <> MsgProgress p v) -> is_first_run_event (Printed m) = false.
Proof. intros H. destruct m; try reflexivity. elim (H _ _ eq_refl). Qed.

Lemma first_run_event_wrote f data : is_first_run_event (Wrote (f ++ u ".txt") data) = false.
Proof.
  unfold is_first_run_event, is_marker_write. cbn [is_install_event orb].
  apply bool_decide_eq_false_2, txt_not_marker.
Qed.

Lemma never_emits_first_run_event_process_audio E file_path :
  never_emits is_first_run_event (process_audio E file_path).
Proof.
  apply never_emits_process_audio;
    first [exact first_run_event_print | exact first_run_event_wrote | intros; reflexivity].
Qed.

Lemma not_first_run_event (t : list event) :
  Forall (fun e => is_first_run_event e = false) t ->
  Forall (fun e => is_install_event e = false /\ is_marker_write e = false) t.
Proof.
  intros H. eapply Forall_impl; [exact H|].
  intros e He. apply orb_false_elim in He. exact He.
Qed.

(** X13. The installer and the marker belong to a first run without
    argument alone: with a usable file argument, or once the marker is
    there, [main] starts no installation step, reports no installation
    progress and does not write the marker, whatever the pipeline does. *)
Theorem main_installs_on_a_first_run_only E w :
  filepath_given E = true \/ is_Some (files w !! marker) ->
  Forall (fun e => is_install_event e = false /\ is_marker_write e = false)
         (trace (main E w)).
Proof.
  intros H. apply not_first_run_event.
  assert (Hchoose : Forall (fun e => is_first_run_event e = false) (trace (choose_file E w))).
  { destruct (filepath_given E) eqn:Hgiven.
    - unfold choose_file. rewrite Hgiven. constructor.
    - destruct H as [H|H]; [discriminate H|].
      rewrite (choose_file_installed E w Hgiven H).
      destruct (stdin_line E) as [line|]; [|repeat constructor].
      destruct (bool_decide _); repeat constructor. }
  unfold main, bind.
  destruct (result (choose_file E w)) as [file_path| |]; cbn [trace]; try exact Hchoose.
  apply Forall_app. split; [exact Hchoose|].
  apply never_emits_first_run_event_process_audio.
Qed.

Lemma main_installs_on_a_first_run_only_witness :
  let E := demo_env (Some (u "talk.wav")) [Segment 0 16000] in
  Forall (fun e => is_install_event e = false /\ is_marker_write e = false)
         (trace (main E (initial_world ∅))).
Proof.
  apply (main_installs_on_a_first_run_only
           (demo_env (Some (u "talk.wav")) [Segment 0 16000]) (initial_world ∅)).
  left. reflexivity.
Defined.

Lemma endswith_mp3_appended s : endswith (lower (s ++ u ".mp3")) (u ".mp3") = true.
Proof.
  unfold endswith, lower. rewrite fmap_app. apply bool_decide_eq_true_2.
  exists (lower_char <$> s). reflexivity.
Qed.

(** X14. One call of [process_audio] starts the encoder at most once,
    although the converter is called twice (by [process_audio] and again
    by [split_audio]): what the first call returns already has the target
    extension. *)
Theorem process_audio_encodes_at_most_once E file_path w :
  (length (List.filter is_encoder_run (trace (process_audio E file_path w))) <= 1)%nat.
Proof.
  assert (Hrest : forall mp3, endswith (lower mp3) (u ".mp3") = true ->
            never_emits is_encoder_run
              (bind (split_audio E mp3)
                 (fun folders =>
                    let '(output_folder, mp3_folder, text_folder) := folders in
                    bind (transcribe_audio E mp3_folder text_folder)
                      (fun _ => print MsgAllDone)))).
  { intros mp3 Hmp3.
    apply never_emits_bind; [|intros [[o m] t]].
    - apply never_emits_split_audio_after; try (intros; reflexivity).
      apply never_emits_convert_to_mp3_already; [intros; reflexivity | exact Hmp3].
    - apply never_emits_bind; [|intros _; auto with quiet].
      apply never_emits_transcribe_audio; intros; reflexivity. }
  unfold process_audio.
  rewrite (bind_run_Return (print MsgStart) _ w tt w _ eq_refl). cbn [trace app List.filter
    is_encoder_run].
  destruct (endswith (lower file_path) (u ".mp3")) eqn:Hext.
  - rewrite (bind_run_Return _ _ w _ _ _ (convert_to_mp3_already E file_path w Hext)).
    cbn [trace app List.filter is_encoder_run].
    rewrite (never_emits_filter_nil _ _ w (Hrest file_path Hext)). cbn. lia.
  - pose proof (convert_to_mp3_encode E file_path w Hext) as Henc. cbn zeta in Henc.
    unfold bind at 1.
    destruct Henc as [(Hres & Htr)|(Hres & Htr)].
    + rewrite Hres. cbn [trace]. rewrite List.filter_app, Htr.
      rewrite (never_emits_filter_nil _ _ _ (Hrest _ (endswith_mp3_appended _))).
      cbn. lia.
    + rewrite Hres. cbn [trace]. rewrite Htr. cbn. lia.
Qed.

(** ** The installer, as a whole *)

Lemma never_emits_copy2 P src dst :
  P (Copied src dst) = false -> never_emits P (copy2 src dst).
Proof.
  intros H. unfold copy2. apply never_emits_bind; [auto with quiet | intros fs].
  destruct (fs !! src) as [[| |]|]; auto with quiet.
  apply never_emits_bind; [auto with quiet | intros _]. apply never_emits_emit, H.
Qed.

Lemma never_emits_copytree P src dst :
  P (Copied src dst) = false -> never_emits P (copytree src dst).
Proof.
  intros H. unfold copytree. apply never_emits_bind; [auto with quiet | intros fs].
  apply never_emits_bind; [auto with quiet | intros _]. apply never_emits_emit, H.
Qed.

Lemma never_emits_path_isdir P p : never_emits P (path_isdir p).
Proof. unfold path_isdir. auto with quiet. Qed.

#[local] Hint Resolve never_emits_path_isdir : quiet.
#[local] Hint Extern 1 (never_emits _ (copy2 _ _)) =>
  apply never_emits_copy2; reflexivity : quiet.
#[local] Hint Extern 1 (never_emits _ (copytree _ _)) =>
  apply never_emits_copytree; reflexivity : quiet.

Lemma never_emits_copy_prebundled_files P E :
  (forall src dst, P (Copied src dst) = false) ->
  (forall p, P (MadeDir p) = false) ->
  (forall m, P (Printed m) = false) ->
  never_emits P (copy_prebundled_files E main_callback).
Proof.
  intros Hcopied Hmade Hprint.
  assert (Hcb : forall msg n, never_emits P (main_callback msg n))
    by (intros; apply never_emits_emit, Hprint).
  assert (Hhalf : forall src dst a b c d,
            never_emits P (copy_prebundled main_callback src dst a b c d)).
  { intros. unfold copy_prebundled.
    apply never_emits_bind; [auto with quiet | intros src_isdir].
    apply never_emits_bind; [auto with quiet | intros dest_exists].
    destruct src_isdir, (negb dest_exists); try apply Hcb.
    - apply never_emits_bind; [apply never_emits_copytree, Hcopied | intros _; apply Hcb].
    - apply never_emits_bind; [apply never_emits_copy2, Hcopied | intros _; apply Hcb]. }
  unfold copy_prebundled_files.
  apply never_emits_bind; [apply never_emits_makedirs, Hmade | intros _].
  apply never_emits_bind; [apply Hhalf | intros _; apply Hhalf].
Qed.

Lemma never_emits_write_installation_process E :
  never_emits is_write (installation_process E main_callback).
Proof.
  assert (Hcopy : never_emits is_write (copy_prebundled_files E main_callback))
    by (apply never_emits_copy_prebundled_files; intros; reflexivity).
  unfold installation_process, check_and_install_system_dependencies,
    download_and_build_whisper, check_whisper_cli.
  auto 20 with quiet.
Qed.

Lemma bind_failed {A B} (m : M A) (k : A -> M B) w :
  (forall a, result (m w) <> Return a) ->
  (forall c, result (m w) = SysExit c -> result (bind m k w) = SysExit c) /\
  (forall e, result (m w) = Raise e -> result (bind m k w) = Raise e) /\
  (forall b, result (bind m k w) <> Return b) /\
  final (bind m k w) = final (m w) /\
  trace (bind m k w) = trace (m w).
Proof.
  intros H. unfold bind. destruct (result (m w)) as [a|c|e]; [elim (H a eq_refl) | |];
    cbn [result final trace].
  - split; [intros c' [= <-]; reflexivity|]. split; [discriminate|].
    split; [discriminate|]. split; reflexivity.
  - split; [discriminate|]. split; [intros e' [= <-]; reflexivity|].
    split; [discriminate|]. split; reflexivity.
Qed.

(** X15. A first run whose installation does not complete stops there:
    [main] ends with the installer's own exit or exception, in the state
    the installer left, having shown the first-run notice and the
    installer's events only.  The marker is not written, so the next run
    without argument starts the installer again. *)
Theorem failed_installation_is_not_marked E w :
  filepath_given E = false ->
  files w !! marker = None ->
  let ri := installation_process E main_callback w in
  (forall ok, result ri <> Return ok) ->
  (forall c, result ri = SysExit c -> result (main E w) = SysExit c) /\
  (forall e, result ri = Raise e -> result (main E w) = Raise e) /\
  final (main E w) = final ri /\
  trace (main E w) = Printed MsgFirstRun :: trace ri /\
  (forall data, Wrote marker data ∉ trace (main E w)).
Proof.
  intros Hgiven Hmarker ri Hfail.
  assert (Hchoose : (forall c, result ri = SysExit c -> result (choose_file E w) = SysExit c) /\
                    (forall e, result ri = Raise e -> result (choose_file E w) = Raise e) /\
                    (forall p, result (choose_file E w) <> Return p) /\
                    final (choose_file E w) = final ri /\
                    trace (choose_file E w) = Printed MsgFirstRun :: trace ri).
  { unfold choose_file. rewrite Hgiven.
    rewrite (bind_pure (path_exists marker) _ w false w)
      by (rewrite path_exists_run, Hmarker; reflexivity).
    cbn [negb].
    rewrite (bind_run_Return (print MsgFirstRun) _ w tt w _ eq_refl).
    cbn [result final trace].
    match goal with |- context [bind (installation_process E main_callback) ?k w] =>
      destruct (bind_failed (installation_process E main_callback) k w Hfail)
        as (Hexit & Hraise & Hret & Hfinal & Htrace) end.
    rewrite Hfinal, Htrace. repeat split; assumption. }
  destruct Hchoose as (Hexit & Hraise & Hret & Hfinal & Htrace).
  destruct (bind_failed (choose_file E) (fun file_path => process_audio E file_path) w Hret)
    as (Hexit' & Hraise' & _ & Hfinal' & Htrace').
  unfold main. rewrite Hfinal', Htrace', Hfinal, Htrace.
  split; [intros c Hc; apply Hexit', Hexit, Hc|].
  split; [intros e He; apply Hraise', Hraise, He|].
  split; [reflexivity|]. split; [reflexivity|].
  intros data Hin. apply elem_of_cons in Hin as [Hin|Hin]; [discriminate Hin|].
  pose proof (never_emits_write_installation_process E w) as Hquiet.
  rewrite Forall_forall in Hquiet. specialize (Hquiet _ Hin). discriminate.
Qed.

Lemma failed_installation_is_not_marked_witness :
  let w := initial_world ∅ in
  result (main failing_update_env w) = Raise (CalledProcessError (AptUpdate false) 100) /\
  (forall data, Wrote marker data ∉ trace (main failing_update_env w)).
Proof.
  intros w.
  destruct (failed_installation_is_not_marked failing_update_env w)
    as (_ & Hraise & _ & _ & Hmarker).
  - reflexivity.
  - reflexivity.
  - vm_compute. discriminate.
  - split; [apply Hraise; vm_compute; reflexivity | exact Hmarker].
Defined.

(** *** The order of the installation steps *)

Lemma spawned_app t1 t2 : spawned (t1 ++ t2) = spawned t1 ++ spawned t2.
Proof. apply omap_app. Qed.

Lemma spawned_quiet (t : list event) :
  Forall (fun e => is_spawn e = false) t -> spawned t = [].
Proof.
  induction 1 as [|e t He _ IH]; [reflexivity|].
  destruct e; try discriminate He; exact IH.
Qed.

Lemma spawned_subprocess_run E shell c w :
  spawned (trace (subprocess_run E shell c w)) = [c].
Proof.
  unfold subprocess_run.
  rewrite (bind_pure get_files _ w (files w) w eq_refl).
  rewrite (bind_run_Return (emit (Spawned c)) _ w tt w _ eq_refl). cbn [trace].
  rewrite spawned_app. change (spawned [Spawned c]) with [c].
  rewrite spawned_quiet; [reflexivity|].
  assert (H : forall fs, never_emits is_spawn
            match spawn E c fs with
            | Some (status, _, fs') =>
                bind (set_files fs')
                  (fun _ => if status =? 0 then ret tt else raise (CalledProcessError c status))
            | None =>
                if shell then raise (CalledProcessError c 127)
                else raise (FileNotFoundError [])
            end).
  { intros fs. destruct (spawn E c fs) as [[[status out] fs']|]; auto 6 with quiet. }
  apply H.
Qed.

Lemma spawns_among_exact {A} (m : M A) l :
  (forall w, spawned (trace (m w)) = l) -> spawns_among [l] m.
Proof.
  intros H w. cbn zeta. rewrite H. split.
  - exists l. split; [apply list_elem_of_here | reflexivity].
  - intros _ _. apply list_elem_of_here.
Qed.

Lemma spawns_among_weaken {A} (m : M A) L L' :
  L ⊆ L' -> spawns_among L m -> spawns_among L' m.
Proof.
  intros Hsub H w. destruct (H w) as [(l & Hl & Hpre) Hret]. split.
  - exists l. split; [apply Hsub, Hl | exact Hpre].
  - intros a Ha. apply Hsub, (Hret a Ha).
Qed.

(** After a part that starts no program. *)
Lemma spawns_among_after {A B} (m : M A) (k : A -> M B) L :
  L <> [] -> never_emits is_spawn m -> (forall a, spawns_among L (k a)) ->
  spawns_among L (bind m k).
Proof.
  intros Hne Hm Hk w. cbn zeta. pose proof (spawned_quiet _ (Hm w)) as Hq.
  unfold bind. destruct (result (m w)) as [a| |]; cbn [result trace].
  - rewrite spawned_app, Hq. apply Hk.
  - rewrite Hq. split; [|discriminate].
    destruct L as [|l L]; [contradiction|].
    exists l. split; [apply list_elem_of_here | apply prefix_nil].
  - rewrite Hq. split; [|discriminate].
    destruct L as [|l L]; [contradiction|].
    exists l. split; [apply list_elem_of_here | apply prefix_nil].
Qed.

(** Before a part that starts no program. *)
Lemma spawns_among_before {A B} (m : M A) (k : A -> M B) L :
  spawns_among L m -> (forall a, never_emits is_spawn (k a)) -> spawns_among L (bind m k).
Proof.
  intros Hm Hk w. cbn zeta. destruct (Hm w) as [Hpre Hret].
  unfold bind. destruct (result (m w)) as [a| |] eqn:Hr; cbn [result trace].
  - rewrite spawned_app, (spawned_quiet _ (Hk a (final (m w)))), app_nil_r.
    split; [exact Hpre | intros _ _; exact (Hret a eq_refl)].
  - split; [exact Hpre | discriminate].
  - split; [exact Hpre | discriminate].
Qed.

(** After a part that starts the commands [l1], all of them if it returns. *)
Lemma spawns_among_bind {A B} (m : M A) (k : A -> M B) l1 L :
  L <> [] -> spawns_among [l1] m -> (forall a, spawns_among L (k a)) ->
  spawns_among ((l1 ++.) <$> L) (bind m k).
Proof.
  intros Hne Hm Hk w. cbn zeta. destruct (Hm w) as [(l & Hl & Hpre) Hret].
  apply list_elem_of_singleton in Hl. subst l.
  assert (Hstop : exists l, l ∈ (l1 ++.) <$> L /\ spawned (trace (m w)) `prefix_of` l).
  { destruct L as [|l2 L]; [contradiction|].
    exists (l1 ++ l2). split; [apply list_elem_of_fmap; eexists; split;
                                 [reflexivity | apply list_elem_of_here]|].
    etransitivity; [exact Hpre | apply prefix_app_r; reflexivity]. }
  unfold bind. destruct (result (m w)) as [a| |] eqn:Hr; cbn [result trace];
    [|split; [exact Hstop | discriminate] ..].
  specialize (Hret a eq_refl). apply list_elem_of_singleton in Hret.
  rewrite spawned_app, Hret.
  destruct (Hk a (final (m w))) as [(l2 & Hl2 & Hpre2) Hret2]. split.
  - exists (l1 ++ l2). split; [apply list_elem_of_fmap; eauto | apply prefix_app, Hpre2].
  - intros b Hb. apply list_elem_of_fmap. eexists. split; [reflexivity | eauto].
Qed.

Lemma spawns_among_quiet {A} (m : M A) : never_emits is_spawn m -> spawns_among [[]] m.
Proof. intros H. apply spawns_among_exact. intros w. apply spawned_quiet, H. Qed.

(** A part that starts no program and does not return. *)
Lemma spawns_among_blocked {A B} (m : M A) (k : A -> M B) L :
  L <> [] -> never_emits is_spawn m -> (forall w a, result (m w) <> Return a) ->
  spawns_among L (bind m k).
Proof.
  intros Hne Hm Hfail w. cbn zeta.
  destruct (bind_failed m k w (Hfail w)) as (_ & _ & Hret & _ & ->).
  rewrite (spawned_quiet _ (Hm w)). split.
  - destruct L as [|l L]; [contradiction|].
    exists l. split; [apply list_elem_of_here | apply prefix_nil].
  - intros b Hb. elim (Hret b Hb).
Qed.

(** A handler that starts no program, around a part that starts [l]
    whatever its outcome. *)
Lemma spawns_among_try_exact {A} catches (m : M A) h l :
  (forall w, spawned (trace (m w)) = l) -> (forall e, never_emits is_spawn (h e)) ->
  spawns_among [l] (try_except catches m h).
Proof.
  intros Hm Hh. apply spawns_among_exact. intros w. unfold try_except.
  destruct (result (m w)) as [a| |e]; try apply Hm.
  destruct (catches e); [|apply Hm]. cbn [trace].
  rewrite spawned_app, Hm, (spawned_quiet _ (Hh e (final (m w)))). apply app_nil_r.
Qed.

(** A handler that starts no program and raises again. *)
Lemma spawns_among_try_reraise {A} catches (m : M A) h L :
  spawns_among L m -> (forall e, never_emits is_spawn (h e)) ->
  (forall e w a, result (h e w) <> Return a) ->
  spawns_among L (try_except catches m h).
Proof.
  intros Hm Hh Hfail w. cbn zeta. destruct (Hm w) as [Hpre Hret]. unfold try_except.
  destruct (result (m w)) as [a| |e] eqn:Hr.
  - split; [exact Hpre | intros _ _; exact (Hret a eq_refl)].
  - split; [exact Hpre | rewrite Hr; discriminate].
  - destruct (catches e); [|split; [exact Hpre | rewrite Hr; discriminate]].
    cbn [result trace].
    rewrite spawned_app, (spawned_quiet _ (Hh e (final (m w)))), app_nil_r.
    split; [exact Hpre | intros a Ha; elim (Hfail _ _ _ Ha)].
Qed.

Lemma never_emits_spawn_copy_prebundled_files E :
  never_emits is_spawn (copy_prebundled_files E main_callback).
Proof. apply never_emits_copy_prebundled_files; intros; reflexivity. Qed.

Lemma spawns_among_download_and_build_whisper E :
  let d := resource_path E (u "whisper.cpp") in
  let build := [CmakeConfigure d;
                CmakeBuild d (bool_decide (platform_system E = u "Windows"))] in
  spawns_among [GitClone :: build; build] (download_and_build_whisper E main_callback).
Proof.
  intros d build. pose proof (never_emits_spawn_copy_prebundled_files E) as Hcopy.
  assert (Hrest : spawns_among [build]
    (bind (copy_prebundled_files E main_callback) (fun _ =>
     bind (main_callback PCmakeConfigure 40) (fun _ =>
     bind (subprocess_run E false (CmakeConfigure d)) (fun _ =>
     bind (main_callback PBuilding 50) (fun _ =>
     bind (subprocess_run E false
             (CmakeBuild d (bool_decide (platform_system E = u "Windows")))) (fun _ =>
     main_callback PBuildDone 70))))))).
  { apply spawns_among_after; [discriminate | exact Hcopy | intros _].
    apply spawns_among_after; [discriminate | auto with quiet | intros _].
    apply (spawns_among_bind _ _ [CmakeConfigure d] [[_]]);
      [discriminate | apply spawns_among_exact; intros; apply spawned_subprocess_run
      | intros _].
    apply spawns_among_after; [discriminate | auto with quiet | intros _].
    apply spawns_among_before; [|intros _; auto with quiet].
    apply spawns_among_exact. intros. apply spawned_subprocess_run. }
  unfold download_and_build_whisper. fold d.
  apply spawns_among_after; [discriminate | auto with quiet | intros present].
  destruct present; cbn [negb].
  - apply (spawns_among_weaken _ [build]);
      [intros l Hl; apply list_elem_of_further, Hl|].
    apply spawns_among_after; [discriminate | auto with quiet | intros _]. exact Hrest.
  - apply (spawns_among_weaken _ (([GitClone] ++.) <$> [build]));
      [intros l Hl; apply list_elem_of_singleton in Hl; subst l; apply list_elem_of_here|].
    apply spawns_among_bind; [discriminate | | intros _; exact Hrest].
    apply (spawns_among_after _ _ [[GitClone]]); [discriminate | auto with quiet | intros _].
    apply spawns_among_try_exact; [intros; apply spawned_subprocess_run | intros e].
    apply never_emits_bind; [auto with quiet | intros _].
    apply never_emits_bind; [auto with quiet | intros _]. exact Hcopy.
Qed.

(** X16. The installer starts its tools in one order and each at most
    once: the package index update and the package installation (through
    [sudo] unless the user is root), the clone unless the repository is
    there, the configuration and the build, the last two never before the
    packages and never with the Windows build options.  A run that fails
    stops somewhere along this list; one that completes has gone through
    all of it, or through the two package steps alone when the binary was
    found. *)
Theorem installation_steps_in_order E w :
  let sudo := negb (geteuid E =? 0) in
  let d := resource_path E (u "whisper.cpp") in
  let packages := [AptUpdate sudo; AptInstall sudo] in
  let build := [CmakeConfigure d; CmakeBuild d false] in
  let r := installation_process E main_callback w in
  let cs := spawned (trace r) in
  (cs `prefix_of` packages ++ GitClone :: build \/ cs `prefix_of` packages ++ build) /\
  (forall ok, result r = Return ok ->
     cs = packages ++ GitClone :: build \/ cs = packages ++ build \/ cs = packages).
Proof.
  intros sudo d packages build r cs.
  assert (H : spawns_among ((packages ++.) <$> [GitClone :: build; build; []])
                (installation_process E main_callback)).
  { unfold installation_process.
    apply spawns_among_try_reraise;
      [|intros e; auto with quiet | intros e w' a; discriminate].
    apply spawns_among_after; [discriminate | auto with quiet | intros _].
    apply spawns_among_after; [discriminate | auto with quiet | intros _].
    unfold check_and_install_system_dependencies.
    destruct (bool_decide (platform_system E = u "Linux")) eqn:Hlinux.
    - apply bool_decide_eq_true_1 in Hlinux.
      assert (Hwin : bool_decide (platform_system E = u "Windows") = false).
      { apply bool_decide_eq_false_2. rewrite Hlinux. intros H. vm_compute in H.
        discriminate H. }
      pose proof (spawns_among_download_and_build_whisper E) as Hbuild.
      cbn zeta in Hbuild. rewrite Hwin in Hbuild. fold d in Hbuild.
      apply spawns_among_bind; [discriminate | | intros _].
      + apply spawns_among_after; [discriminate | auto with quiet | intros _].
        apply (spawns_among_bind _ _ [AptUpdate sudo] [[AptInstall sudo]]);
          [discriminate | | intros _];
          apply spawns_among_exact; intros; apply spawned_subprocess_run.
      + apply spawns_among_after;
          [discriminate | unfold check_whisper_cli; auto with quiet | intros present].
        apply spawns_among_before; [|intros _; auto with quiet].
        destruct present; cbn [negb].
        * apply (spawns_among_weaken _ [[]]);
            [intros l Hl; apply list_elem_of_singleton in Hl; subst l;
             do 2 apply list_elem_of_further; apply list_elem_of_here|].
          apply spawns_among_quiet. auto with quiet.
        * apply (spawns_among_weaken _ [GitClone :: build; build]);
            [intros l Hl; apply elem_of_cons in Hl as [->|Hl];
             [apply list_elem_of_here | apply list_elem_of_further; 
              apply elem_of_cons in Hl as [->|Hl];
              [apply list_elem_of_here | apply elem_of_nil in Hl; contradiction]]|].
          apply spawns_among_after; [discriminate | auto with quiet | intros _].
          exact Hbuild.
    - apply spawns_among_blocked;
        [discriminate | auto 6 with quiet | intros w' a; discriminate]. }
  destruct (H w) as [(l & Hl & Hpre) Hret]. fold r cs in Hpre, Hret.
  assert (Hcases : forall l, l ∈ (packages ++.) <$> [GitClone :: build; build; []] ->
            l = packages ++ GitClone :: build \/ l = packages ++ build \/ l = packages).
  { intros l' Hl'. apply list_elem_of_fmap in Hl' as (l2 & -> & Hl2).
    apply elem_of_cons in Hl2 as [->|Hl2]; [left; reflexivity|].
    apply elem_of_cons in Hl2 as [->|Hl2]; [right; left; reflexivity|].
    apply list_elem_of_singleton in Hl2 as ->. right; right. apply app_nil_r. }
  split.
  - destruct (Hcases l Hl) as [->| [->| ->]]; [left | right | right]; try exact Hpre.
    etransitivity; [exact Hpre | apply prefix_app_r; reflexivity].
  - intros ok Hok. apply Hcases, (Hret ok Hok).
Qed.

(** ** The transcriber, as a whole *)

Lemma str_le_total a b : str_le a b = true \/ str_le b a = true.
Proof.
  revert b. induction a as [|x a IH]; intros [|y b]; cbn; auto.
  destruct (N.lt_total x y) as [Hlt|[->|Hgt]].
  - left. apply N.ltb_lt in Hlt. rewrite Hlt. reflexivity.
  - rewrite N.ltb_irrefl, N.eqb_refl. cbn. apply IH.
  - right. apply N.ltb_lt in Hgt. rewrite Hgt. reflexivity.
Qed.

Lemma str_le_trans a b c : str_le a b = true -> str_le b c = true -> str_le a c = true.
Proof.
  revert b c. induction a as [|x a IH]; intros [|y b] [|z c]; cbn; try discriminate; auto.
  intros Hab Hbc.
  apply orb_true_iff in Hab as [Hab|Hab]; apply orb_true_iff in Hbc as [Hbc|Hbc];
    apply orb_true_iff.
  - left. apply N.ltb_lt in Hab, Hbc. apply N.ltb_lt. lia.
  - apply andb_true_iff in Hbc as [Hyz _]. apply N.eqb_eq in Hyz. subst z. auto.
  - apply andb_true_iff in Hab as [Hxy _]. apply N.eqb_eq in Hxy. subst y. auto.
  - apply andb_true_iff in Hab as [Hxy Hab]. apply andb_true_iff in Hbc as [Hyz Hbc].
    right. apply N.eqb_eq in Hxy, Hyz. subst y z. rewrite N.eqb_refl. cbn.
    exact (IH b c Hab Hbc).
Qed.

#[local] Instance str_le_rel_total : Total str_le_rel.
Proof. intros a b. apply str_le_total. Qed.

#[local] Instance str_le_rel_trans : Transitive str_le_rel.
Proof. intros a b c. apply str_le_trans. Qed.

Lemma popen_lines_run E c w :
  popen_lines E c w
  = match spawn E c (files w) with
    | Some (_, lines, fs') => Run (Return lines) (World fs' (vad_config w)) [Spawned c]
    | None => Run (Raise (FileNotFoundError [])) w [Spawned c]
    end.
Proof.
  unfold popen_lines.
  rewrite (bind_pure get_files _ w (files w) w eq_refl).
  rewrite (bind_run_Return (emit (Spawned c)) _ w tt w _ eq_refl).
  destruct (spawn E c (files w)) as [[[status lines] fs']|]; reflexivity.
Qed.

(** X17. With the MP3 folder in place, [transcribe_audio] starts exactly
    one program: the transcription binary, once, on all segment files
    together.  The files are the names the listing gives that end in
    ".mp3" (lower case only), each joined to the folder, each once, in
    lexicographic order of their code points; the announced count is
    their number.  The binary is started even when there is none. *)
Theorem transcribe_audio_starts_whisper_once E mp3_folder text_folder names w :
  is_Some (files w !! mp3_folder) ->
  os_listdir E mp3_folder (files w) = Some names ->
  exists audio_files rest,
    trace (transcribe_audio E mp3_folder text_folder w)
    = [Printed (MsgWhisperFiles (Z.of_nat (length audio_files)));
       Printed MsgWhisperStart;
       Spawned (WhisperCli (WHISPER_CLI E) (WHISPER_MODEL E) audio_files)] ++ rest /\
    Forall (fun e => is_spawn e = false) rest /\
    audio_files ≡ₚ path_join mp3_folder
                     <$> List.filter (fun f => endswith f (u ".mp3")) names /\
    StronglySorted str_le_rel audio_files.
Proof.
  intros Hfolder Hlist.
  set (audio_files := sorted (path_join mp3_folder
                                <$> List.filter (fun f => endswith f (u ".mp3")) names)).
  assert (Hrest : forall lines,
            never_emits is_spawn
              (bind (print_lines lines) (fun _ =>
               bind (transcribe_loop E text_folder audio_files) (fun _ =>
               print (MsgTranscribeDone text_folder))))).
  { intros lines.
    apply never_emits_bind; [apply never_emits_print_lines; intros; reflexivity | intros _].
    apply never_emits_bind; [apply never_emits_transcribe_loop; intros; reflexivity | intros _].
    auto with quiet. }
  unfold transcribe_audio.
  rewrite (bind_pure (path_exists mp3_folder) _ w true w)
    by (rewrite path_exists_run, (bool_decide_eq_true_2 _ Hfolder); reflexivity).
  cbn [negb].
  rewrite (bind_pure get_files _ w (files w) w eq_refl), Hlist. fold audio_files.
  rewrite (bind_run_Return (print _) _ w tt w _ eq_refl).
  rewrite (bind_run_Return (print MsgWhisperStart) _ w tt w _ eq_refl).
  cbn [trace].
  exists audio_files.
  assert (Hsorted : audio_files ≡ₚ path_join mp3_folder
                      <$> List.filter (fun f => endswith f (u ".mp3")) names /\
                    StronglySorted str_le_rel audio_files).
  { split; [apply merge_sort_Permutation | apply StronglySorted_merge_sort; apply _]. }
  unfold bind at 1. rewrite popen_lines_run.
  destruct (spawn E _ (files w)) as [[[status lines] fs']|]; cbn [result final trace].
  - eexists. split; [reflexivity|]. split; [apply Hrest | exact Hsorted].
  - exists []. split; [reflexivity|]. split; [constructor | exact Hsorted].
Qed.

Lemma transcribe_audio_starts_whisper_once_witness :
  let E := demo_env None [] in
  let w := initial_world {[ u "out/MP3" := Dir; u "out/MP3/notes.MP3" := File [] ]} in
  exists rest,
    trace (transcribe_audio E (u "out/MP3") (u "out/TEXT") w)
    = [Printed (MsgWhisperFiles 0); Printed MsgWhisperStart;
       Spawned (WhisperCli (WHISPER_CLI E) (WHISPER_MODEL E) [])] ++ rest.
Proof.
  intros E w.
  destruct (transcribe_audio_starts_whisper_once E (u "out/MP3") (u "out/TEXT")
              [u "notes.MP3"] w) as (audio_files & rest & Htrace & _ & Hperm & _).
  - eexists. vm_compute. reflexivity.
  - vm_compute. reflexivity.
  - apply Permutation_nil_r in Hperm. subst audio_files. exists rest. exact Htrace.
Defined.

(** X18. Where [transcribe_audio] gives up before any transcript is
    touched.  Without the MP3 folder it reports that and exits with
    status 1, the state untouched.  When the binary cannot be started the
    [FileNotFoundError] of [Popen] ends the call right after the two
    announcements: nothing is read, cleaned or moved. *)
Theorem transcribe_audio_gives_up_early E mp3_folder text_folder w :
  (files w !! mp3_folder = None ->
   transcribe_audio E mp3_folder text_folder w
   = Run (SysExit 1) w [Printed (MsgFolderMissing mp3_folder)]) /\
  (forall names,
     is_Some (files w !! mp3_folder) ->
     os_listdir E mp3_folder (files w) = Some names ->
     let audio_files :=
       sorted (path_join mp3_folder <$> List.filter (fun f => endswith f (u ".mp3")) names) in
     let whisper := WhisperCli (WHISPER_CLI E) (WHISPER_MODEL E) audio_files in
     spawn E whisper (files w) = None ->
     transcribe_audio E mp3_folder text_folder w
     = Run (Raise (FileNotFoundError [])) w
           [Printed (MsgWhisperFiles (Z.of_nat (length audio_files)));
            Printed MsgWhisperStart; Spawned whisper]).
Proof.
  split.
  - intros Hnone. unfold transcribe_audio.
    rewrite (bind_pure (path_exists mp3_folder) _ w false w)
      by (rewrite path_exists_run, Hnone; reflexivity).
    reflexivity.
  - intros names Hfolder Hlist audio_files whisper Hspawn. unfold transcribe_audio.
    rewrite (bind_pure (path_exists mp3_folder) _ w true w)
      by (rewrite path_exists_run, (bool_decide_eq_true_2 _ Hfolder); reflexivity).
    cbn [negb].
    rewrite (bind_pure get_files _ w (files w) w eq_refl), Hlist.
    fold audio_files. fold whisper.
    rewrite (bind_run_Return (print _) _ w tt w _ eq_refl).
    rewrite (bind_run_Return (print MsgWhisperStart) _ w tt w _ eq_refl).
    rewrite (bind_run_Raise (popen_lines E whisper) _ w (FileNotFoundError []) w
               [Spawned whisper])
      by (rewrite popen_lines_run, Hspawn; reflexivity).
    reflexivity.
Qed.

(** ** The segmenter, as a whole *)

Lemma check_ffmpeg_failed E w :
  (forall out fs', spawn E FfmpegVersion (files w) <> Some (0, out, fs')) ->
  check_ffmpeg E w
  = Run (SysExit 1)
        (match spawn E FfmpegVersion (files w) with
         | Some (_, _, fs') => World fs' (vad_config w)
         | None => w
         end)
        [Spawned FfmpegVersion; Printed MsgFfmpegMissing].
Proof.
  intros H. unfold check_ffmpeg.
  assert (Hsys : exists status w',
            os_system E FfmpegVersion w = Run (Return status) w' [Spawned FfmpegVersion] /\
            (status =? 0) = false /\
            w' = match spawn E FfmpegVersion (files w) with
                 | Some (_, _, fs') => World fs' (vad_config w)
                 | None => w
                 end).
  { rewrite os_system_status.
    destruct (spawn E FfmpegVersion (files w)) as [[[status out] fs']|].
    - exists status, (World fs' (vad_config w)). split; [reflexivity|]. split; [|reflexivity].
      apply Z.eqb_neq. intros ->. exact (H out fs' eq_refl).
    - exists 32512, w. repeat split. }
  destruct Hsys as (status & w' & Hsys & Hstatus & <-).
  rewrite (bind_run_Return _ _ w status w' _ Hsys), Hstatus. reflexivity.
Qed.

(** X19. Without a working [ffmpeg] the segmenter does nothing: when
    "ffmpeg -version" ends with a non-zero status, or cannot be started
    (the shell then reports 127), [split_audio] exits with status 1 right
    after the probe.  No folder is made, the converter is not called and
    the detector is not loaded. *)
Theorem split_audio_without_ffmpeg E file_path w :
  (forall out fs', spawn E FfmpegVersion (files w) <> Some (0, out, fs')) ->
  split_audio E file_path w
  = Run (SysExit 1)
        (match spawn E FfmpegVersion (files w) with
         | Some (_, _, fs') => World fs' (vad_config w)
         | None => w
         end)
        [Spawned FfmpegVersion; Printed MsgFfmpegMissing].
Proof.
  intros H. unfold split_audio.
  apply bind_run_SysExit, check_ffmpeg_failed, H.
Qed.

Lemma split_audio_without_ffmpeg_witness :
  let E := {| sys_meipass := None; getcwd := u "/home/user";
              platform_system := u "Linux"; platform_machine := u "x86_64";
              geteuid := 0; os_linesep := [LF];
              args_filepath := None; stdin_line := None;
              spawn := fun c fs => match c with
                                   | FfmpegVersion => None
                                   | _ => Some (0, [], fs)
                                   end;
              json_load := fun _ => None; os_listdir := demo_listdir;
              silero_vad := fun _ _ _ => Some [] |} in
  split_audio E (u "talk.mp3") (initial_world ∅)
  = Run (SysExit 1) (initial_world ∅) [Spawned FfmpegVersion; Printed MsgFfmpegMissing].
Proof.
  intros E.
  apply (split_audio_without_ffmpeg E (u "talk.mp3") (initial_world ∅)).
  intros out fs'. discriminate.
Defined.

Lemma detects_once_after {A B} (Q : B -> Prop) (R : A -> Prop) (m : M A) (k : A -> M B) :
  keeps_config m -> never_emits is_vad_run m ->
  (forall w a, result (m w) = Return a -> R a) ->
  (forall a, R a -> detects_once Q (k a)) ->
  detects_once Q (bind m k).
Proof.
  intros Hcfg Hquiet HR Hk w. cbn zeta.
  pose proof (never_emits_filter_nil _ _ w Hquiet) as Hnil.
  unfold bind. destruct (result (m w)) as [a| |] eqn:Hr; cbn [result trace].
  - rewrite List.filter_app, Hnil. cbn [app].
    destruct (Hk a (HR w a Hr) (final (m w))) as [Hruns Hret].
    rewrite (Hcfg w) in Hruns. split; assumption.
  - split; [left; exact Hnil | discriminate].
  - split; [left; exact Hnil | discriminate].
Qed.

Lemma detects_once_after_any {A B} (Q : B -> Prop) (m : M A) (k : A -> M B) :
  keeps_config m -> never_emits is_vad_run m ->
  (forall a, detects_once Q (k a)) ->
  detects_once Q (bind m k).
Proof.
  intros Hcfg Hquiet Hk.
  apply (detects_once_after Q (fun _ => True)); auto.
Qed.

Lemma convert_to_mp3_returns_mp3 E file_path w mp3 :
  result (convert_to_mp3 E file_path w) = Return mp3 ->
  endswith (lower mp3) (u ".mp3") = true.
Proof.
  destruct (endswith (lower file_path) (u ".mp3")) eqn:Hext.
  - rewrite (convert_to_mp3_already E file_path w Hext). intros [= <-]. exact Hext.
  - destruct (convert_to_mp3_encode E file_path w Hext) as [[Hres _]|[Hres _]];
      rewrite Hres; intros [= <-]. apply endswith_mp3_appended.
Qed.

(** X20. One call of [split_audio] runs the detector at most once, and
    then on a path with the MP3 extension (what its own call of the
    converter returned) and with the five values read from [vad_config],
    each the configured one or its fall-back.  A call that returns has
    run it, and returns the folder "split_audio/<stem of the file name>"
    with its sub-folders "MP3" and "TEXT": the directories of the input
    path do not count. *)
Theorem split_audio_detects_once E file_path w :
  let r := split_audio E file_path w in
  let runs := List.filter is_vad_run (trace r) in
  let output_folder := path_join (u "split_audio") (splitext (basename file_path)).1 in
  (runs = [] \/
   exists mp3 params,
     vad_params (vad_config w) = Some params /\
     endswith (lower mp3) (u ".mp3") = true /\
     runs = [VadRun mp3 params]) /\
  (forall folders, result r = Return folders ->
     folders = (output_folder, path_join output_folder (u "MP3"),
                path_join output_folder (u "TEXT")) /\
     runs <> []).
Proof.
  intros r runs output_folder. subst r runs. revert w.
  change (detects_once
            (fun folders =>
               folders = (output_folder, path_join output_folder (u "MP3"),
                          path_join output_folder (u "TEXT")))
            (split_audio E file_path)).
  unfold split_audio. fold output_folder.
  apply detects_once_after_any;
    [apply keeps_config_insensitive; intros; apply config_insensitive_check_ffmpeg
    |apply never_emits_vad_run_check_ffmpeg | intros _].
  apply detects_once_after_any;
    [apply keeps_config_insensitive; intros; apply config_insensitive_makedirs
    |auto with quiet | intros _].
  apply detects_once_after_any;
    [apply keeps_config_insensitive; intros; apply config_insensitive_makedirs
    |auto with quiet | intros _].
  apply (detects_once_after _ (fun mp3 => endswith (lower mp3) (u ".mp3") = true));
    [apply keeps_config_insensitive; intros; apply config_insensitive_convert_to_mp3
    |apply never_emits_vad_run_convert_to_mp3
    |intros w mp3; apply convert_to_mp3_returns_mp3
    |intros mp3 Hmp3].
  do 3 (apply detects_once_after_any;
    [apply keeps_config_insensitive; intros; apply config_insensitive_print
    |auto with quiet | intros _]).
  intros w. cbn zeta.
  rewrite (bind_pure get_vad_config _ w (vad_config w) w eq_refl).
  destruct (vad_config w) as [| | | | | |items];
    try (split; [left; reflexivity | discriminate]).
  cbn [dict_get vad_params]. rewrite !bind_ret_l.
  rewrite (bind_pure get_files _ w (files w) w eq_refl).
  match goal with |- context [emit (VadRun mp3 ?ps)] => set (params := ps) end.
  rewrite (bind_run_Return (emit (VadRun mp3 params)) _ w tt w _ eq_refl).
  cbn [result trace]. rewrite List.filter_app.
  change (List.filter is_vad_run [VadRun mp3 params]) with [VadRun mp3 params].
  match goal with |- context [trace (?m w)] =>
    assert (Hquiet : never_emits is_vad_run m);
    [|assert (Hvalue : forall a, result (m w) = Return a ->
                a = (output_folder, path_join output_folder (u "MP3"),
                     path_join output_folder (u "TEXT")))] end.
  { destruct (silero_vad E mp3 params (files w)) as [speech_timestamps|];
      [|auto with quiet].
    apply never_emits_bind; [auto with quiet | intros _].
    apply never_emits_bind; [apply never_emits_split_loop; intros; reflexivity | intros _].
    auto with quiet. }
  { intros a Ha.
    destruct (silero_vad E mp3 params (files w)) as [speech_timestamps|];
      [|discriminate Ha].
    apply bind_Return_inv in Ha as (? & _ & Ha & _).
    apply bind_Return_inv in Ha as (? & _ & Ha & _).
    apply bind_Return_inv in Ha as (? & _ & Ha & _).
    injection Ha as <-. reflexivity. }
  rewrite (never_emits_filter_nil _ _ w Hquiet). split.
  - right. exists mp3, params. repeat split. exact Hmp3.
  - intros a Ha. split; [exact (Hvalue a Ha) | discriminate].
Qed.

(** ** Cleaning a transcript more than once *)

Lemma lstrip_idem s : lstrip (lstrip s) = lstrip s.
Proof.
  induction s as [|c t IH]; [reflexivity|]. cbn.
  destruct (is_space c) eqn:Hc; [exact IH|]. cbn. rewrite Hc. reflexivity.
Qed.

Lemma rstrip_idem s : rstrip (rstrip s) = rstrip s.
Proof. unfold rstrip. rewrite reverse_involutive, lstrip_idem. reflexivity. Qed.

Lemma lstrip_snoc_nonspace l c :
  is_space c = false -> lstrip (l ++ [c]) = lstrip l ++ [c].
Proof.
  intros Hc. induction l as [|x l IH]; cbn.
  - rewrite Hc. reflexivity.
  - destruct (is_space x); [exact IH | reflexivity].
Qed.

Lemma rstrip_cons_nonspace c t : is_space c = false -> rstrip (c :: t) = c :: rstrip t.
Proof.
  intros Hc. unfold rstrip.
  rewrite reverse_cons, (lstrip_snoc_nonspace _ _ Hc), reverse_app. reflexivity.
Qed.

Lemma lstrip_strip s : lstrip (strip s) = strip s.
Proof.
  unfold strip. destruct (lstrip s) as [|c t] eqn:Hs; [reflexivity|].
  assert (Hc : is_space c = false).
  { pose proof (lstrip_idem s) as Hidem. rewrite Hs in Hidem. cbn in Hidem.
    destruct (is_space c); [|reflexivity].
    apply (f_equal length) in Hidem.
    pose proof (suffix_length _ _ (lstrip_suffix t)) as Hlen. cbn in Hidem. lia. }
  rewrite (rstrip_cons_nonspace _ _ Hc). cbn. rewrite Hc. reflexivity.
Qed.

Lemma strip_idem s : strip (strip s) = strip s.
Proof.
  unfold strip at 1. rewrite lstrip_strip. unfold strip. apply rstrip_idem.
Qed.

Lemma cleaning_a_single_line s :
  LF ∉ s -> CR ∉ s ->
  str_join [SPACE] (strip <$> readlines (universal_newlines s)) = strip s.
Proof.
  intros HLF HCR. rewrite (universal_newlines_id _ HCR), (readlines_no_LF _ HLF).
  destruct s; reflexivity.
Qed.

(** X21. Cleaning a transcript is not idempotent, but it settles after
    two passes.  The first pass leaves the stripped lines joined by single
    spaces; that text can still begin or end with a blank (an empty first
    or last line), which a second pass strips; a third pass changes
    nothing. *)
Theorem remove_newlines_from_text_settles E text_file raw w :
  files w !! text_file = Some (File raw) ->
  let cleaned := str_join [SPACE] (strip <$> readlines (universal_newlines raw)) in
  let w1 := final (remove_newlines_from_text E text_file w) in
  let w2 := final (remove_newlines_from_text E text_file w1) in
  let w3 := final (remove_newlines_from_text E text_file w2) in
  files w1 !! text_file = Some (File cleaned) /\
  files w2 !! text_file = Some (File (strip cleaned)) /\
  files w3 = files w2.
Proof.
  intros Hraw cleaned w1 w2 w3.
  destruct (cleaned_text_no_line_break raw) as [HLF HCR]. fold cleaned in HLF, HCR.
  assert (H1 : files w1 !! text_file = Some (File cleaned)).
  { subst w1. rewrite (remove_newlines_from_text_run E text_file raw w Hraw).
    apply lookup_insert_eq. }
  assert (Hw2 : files w2 = <[text_file := File (strip cleaned)]> (files w1)).
  { subst w2. rewrite (remove_newlines_from_text_run E text_file cleaned w1 H1).
    cbn [final files]. rewrite (cleaning_a_single_line _ HLF HCR). reflexivity. }
  assert (H2 : files w2 !! text_file = Some (File (strip cleaned))).
  { rewrite Hw2. apply lookup_insert_eq. }
  split; [exact H1|]. split; [exact H2|].
  subst w3. rewrite (remove_newlines_from_text_run E text_file (strip cleaned) w2 H2).
  cbn [final files].
  rewrite cleaning_a_single_line, strip_idem
    by (intros Hin; apply elem_of_strip in Hin; contradiction).
  rewrite Hw2. apply insert_insert_eq.
Qed.

Lemma remove_newlines_from_text_settles_witness :
  let E := demo_env None [] in
  let w := initial_world {[ u "1.mp3.txt" := File (LF :: u "hello") ]} in
  let w1 := final (remove_newlines_from_text E (u "1.mp3.txt") w) in
  let w2 := final (remove_newlines_from_text E (u "1.mp3.txt") w1) in
  files w1 !! u "1.mp3.txt" = Some (File (u " hello")) /\
  files w2 !! u "1.mp3.txt" = Some (File (u "hello")).
Proof.
  intros E w w1 w2.
  destruct (remove_newlines_from_text_settles E (u "1.mp3.txt") (LF :: u "hello") w)
    as (H1 & H2 & _).
  - vm_compute. reflexivity.
  - split; [exact H1 | exact H2].
Defined.

(** ** The configuration loader, in every case *)

Lemma read_text_not_file p w :
  (forall text, files w !! p <> Some (File text)) ->
  exists e, read_text p w = Run (Raise e) w [].
Proof.
  intros H. unfold read_text.
  rewrite (bind_pure get_files _ w (files w) w eq_refl).
  destruct (files w !! p) as [[|text|]|]; try (eexists; reflexivity).
  elim (H text eq_refl).
Qed.

(** X22. [load_config] cannot fail and touches no file.  It always
    returns, having replaced [vad_config] by the parsed content of the
    configuration file, whatever JSON value that is, or else by the
    defaults; a file that is absent is no error and leaves no message.
    The last line shown is the configuration now in force. *)
Theorem load_config_always_returns E w :
  let config_path := resource_path E CONFIG_FILE in
  exists cfg shown,
    load_config E w
    = Run (Return tt) (World (files w) cfg) (shown ++ [Printed (MsgCurrentVadConfig cfg)]) /\
    ((exists text, files w !! config_path = Some (File text) /\
                   json_load E text = Some cfg /\ shown = []) \/
     (cfg = DEFAULT_CONFIG /\ files w !! config_path = None /\ shown = []) \/
     (cfg = DEFAULT_CONFIG /\ is_Some (files w !! config_path) /\
      exists e, shown = [Printed (MsgConfigLoadError e)])).
Proof.
  intros config_path.
  unfold load_config. fold config_path.
  rewrite (bind_pure (path_exists _) _ w _ w (path_exists_run _ w)).
  destruct (files w !! config_path) as [nd|] eqn:Hnd.
  - rewrite bool_decide_eq_true_2 by eauto.
    set (body := bind (read_text config_path) _).
    set (handler := fun e : exn => bind (print (MsgConfigLoadError e)) _).
    assert (Hbody : (exists text cfg, nd = File text /\ json_load E text = Some cfg /\
                       body w = Run (Return tt) (World (files w) cfg) []) \/
                    (exists e, body w = Run (Raise e) w [])).
    { subst body. destruct nd as [|text|].
      - right. destruct (read_text_not_file config_path w) as [e He];
          [intros text; rewrite Hnd; discriminate|].
        exists e. apply bind_run_Raise, He.
      - rewrite (bind_pure (read_text _) _ w text w (read_text_file _ _ _ Hnd)).
        destruct (json_load E text) as [cfg|] eqn:Hjson.
        + left. exists text, cfg. split; [reflexivity|]. split; [exact Hjson | reflexivity].
        + right. eexists. reflexivity.
      - right. destruct (read_text_not_file config_path w) as [e He];
          [intros text; rewrite Hnd; discriminate|].
        exists e. apply bind_run_Raise, He. }
    destruct Hbody as [(text & cfg & -> & Hjson & Hbody)|[e Hbody]].
    + exists cfg, [].
      rewrite (bind_pure _ _ w tt (World (files w) cfg)
                 (try_except_run_Return _ _ _ _ _ _ _ Hbody)).
      split; [reflexivity|]. left. exists text. auto.
    + exists DEFAULT_CONFIG, [Printed (MsgConfigLoadError e)].
      rewrite (bind_run_Return _ _ w tt (World (files w) DEFAULT_CONFIG)
                 [Printed (MsgConfigLoadError e)]).
      * split; [reflexivity|]. right; right. split; [reflexivity|].
        split; [eauto|]. exists e. reflexivity.
      * rewrite (try_except_run_Raise _ _ _ _ _ _ _ Hbody eq_refl). reflexivity.
  - rewrite bool_decide_eq_false_2 by (intros [? ?]; discriminate).
    exists DEFAULT_CONFIG, []. split; [reflexivity|]. right; left. auto.
Qed.

(** ** A checkout without the bundled models *)

Lemma copy2_missing src dst w :
  files w !! src = None -> copy2 src dst w = Run (Raise (FileNotFoundError src)) w [].
Proof.
  intros H. unfold copy2.
  rewrite (bind_pure get_files _ w (files w) w eq_refl), H. reflexivity.
Qed.

(** X23. The bundled models are copied whether or not the clone was
    needed.  With the repository and its models directory in place but no
    encoder, neither bundled nor installed, [download_and_build_whisper]
    fails with the [FileNotFoundError] of [shutil.copy2] on the bundled
    encoder: the build tools are not started and the state is
    untouched. *)
Theorem build_needs_the_bundled_encoder E w :
  let models_dir := resource_path E (u "whisper.cpp/models") in
  let encoder_src := resource_path E (u "resources/ggml-large-v3-turbo-encoder.mlmodelc") in
  let encoder_dest := path_join models_dir (u "ggml-large-v3-turbo-encoder.mlmodelc") in
  is_Some (files w !! resource_path E (u "whisper.cpp")) ->
  files w !! models_dir = Some Dir ->
  files w !! encoder_src = None ->
  files w !! encoder_dest = None ->
  download_and_build_whisper E main_callback w
  = Run (Raise (FileNotFoundError encoder_src)) w [Printed (MsgProgress PRepoPresent 10)].
Proof.
  intros models_dir encoder_src encoder_dest Hrepo Hmodels Hsrc Hdest.
  assert (Hcopy : copy_prebundled_files E main_callback w
                  = Run (Raise (FileNotFoundError encoder_src)) w []).
  { unfold copy_prebundled_files. fold models_dir encoder_src encoder_dest.
    rewrite (bind_pure (makedirs models_dir) _ w tt w (makedirs_existing _ _ Hmodels)).
    apply bind_run_Raise. unfold copy_prebundled.
    rewrite (bind_pure (path_isdir encoder_src) _ w _ w (path_isdir_run _ w)), Hsrc.
    rewrite (bind_pure (path_exists encoder_dest) _ w _ w (path_exists_run _ w)), Hdest.
    rewrite bool_decide_eq_false_2 by (intros [? ?]; discriminate). cbn [negb].
    apply bind_run_Raise, copy2_missing, Hsrc. }
  unfold download_and_build_whisper.
  rewrite (bind_pure (path_exists _) _ w true w)
    by (rewrite path_exists_run, (bool_decide_eq_true_2 _ Hrepo); reflexivity).
  cbn [negb].
  rewrite (bind_run_Return (main_callback PRepoPresent 10) _ w tt w _ eq_refl).
  rewrite (bind_run_Raise _ _ w _ w [] Hcopy). reflexivity.
Qed.

Lemma build_needs_the_bundled_encoder_witness :
  let E := demo_env None [] in
  let w := initial_world {[ u "/home/user/whisper.cpp" := Dir;
                            u "/home/user/whisper.cpp/models" := Dir ]} in
  result (download_and_build_whisper E main_callback w)
  = Raise (FileNotFoundError
             (u "/home/user/resources/ggml-large-v3-turbo-encoder.mlmodelc")) /\
  spawned (trace (download_and_build_whisper E main_callback w)) = [].
Proof.
  intros E w.
  rewrite (build_needs_the_bundled_encoder E w).
  - split; reflexivity.
  - eexists. vm_compute. reflexivity.
  - vm_compute. reflexivity.
  - vm_compute. reflexivity.
  - vm_compute. reflexivity.
Defined.

(** ** Saving the configuration *)

Lemma write_text_writable p data w :
  writable (files w) p ->
  write_text p data w
  = Run (Return tt) (World (<[p := File data]> (files w)) (vad_config w)) [Wrote p data].
Proof.
  intros H. unfold write_text.
  rewrite (bind_pure get_files _ w (files w) w eq_refl).
  destruct H as [H|[old H]]; rewrite H; reflexivity.
Qed.

(** X24. What [save_config] writes is what [load_config] reads: both use
    the path [resource_path("config.json")].  When that path can be
    written and the saved text parses back to the configuration in force,
    saving and then loading leaves [vad_config] as it was, changes this one
    file only and reports no load error.  When the path is a directory,
    [save_config] raises and changes nothing. *)
Theorem save_config_then_load_config E json_dump w :
  let config_path := resource_path E CONFIG_FILE in
  let text := write_newlines (os_linesep E) (json_dump (vad_config w)) in
  (writable (files w) config_path ->
   json_load E text = Some (vad_config w) ->
   bind (save_config E json_dump) (fun _ => load_config E) w
   = Run (Return tt)
         (World (<[config_path := File text]> (files w)) (vad_config w))
         [Wrote config_path text; Printed (MsgCurrentVadConfig (vad_config w))]) /\
  (files w !! config_path = Some Dir ->
   save_config E json_dump w = Run (Raise (IsADirectoryError config_path)) w []).
Proof.
  intros config_path text. split.
  - intros Hwritable Hjson.
    assert (Hsave : save_config E json_dump w
                    = Run (Return tt)
                          (World (<[config_path := File text]> (files w)) (vad_config w))
                          [Wrote config_path text]).
    { unfold save_config.
      rewrite (bind_pure get_vad_config _ w (vad_config w) w eq_refl).
      apply write_text_writable, Hwritable. }
    rewrite (bind_run_Return _ _ w tt _ _ Hsave).
    rewrite (load_config_parsed E _ text (vad_config w));
      [reflexivity | apply lookup_insert_eq | exact Hjson].
  - intros Hdir. unfold save_config.
    rewrite (bind_pure get_vad_config _ w (vad_config w) w eq_refl).
    unfold write_text.
    rewrite (bind_pure get_files _ w (files w) w eq_refl).
    fold config_path. rewrite Hdir. reflexivity.
Qed.

Lemma save_config_then_load_config_witness :
  let E := {| sys_meipass := None; getcwd := u "/home/user";
              platform_system := u "Linux"; platform_machine := u "x86_64";
              geteuid := 1000; os_linesep := [LF];
              args_filepath := None; stdin_line := None;
              spawn := demo_spawn;
              json_load := fun text => if bool_decide (text = u "{}")
                                       then Some (JDict []) else None;
              os_listdir := demo_listdir;
              silero_vad := fun _ _ _ => Some [] |} in
  let r := bind (save_config E (fun _ => u "{}")) (fun _ => load_config E)
             (initial_world ∅) in
  result r = Return tt /\
  vad_config (final r) = JDict [] /\
  files (final r) !! u "/home/user/config.json" = Some (File (u "{}")).
Proof.
  intros E r. subst r.
  rewrite (proj1 (save_config_then_load_config E (fun _ => u "{}") (initial_world ∅))).
  - split; [reflexivity|]. split; [reflexivity|]. vm_compute. reflexivity.
  - left. vm_compute. reflexivity.
  - reflexivity.
Defined.
